(** * citation_style_detector: a shallow embedding of the style detector,
    the citation extractor, the pattern catalog and the author matcher.

    Texts are Python [str] values, modelled as lists of Unicode code points
    ([list N]).  String literals of this file are UTF-8 byte strings and are
    decoded by [u].  The regular expressions of the sources are kept as the
    very pattern strings of the sources; [Re.parse] reads them and
    [Re.mt] runs them with the backtracking discipline of Python's [re]
    module (leftmost match, greedy or lazy quantifiers tried in order,
    alternatives tried left to right).

    Python version: inline global flags such as [(?i)] that do not stand at
    the very start of a pattern are honoured for the whole pattern, as in
    Python 3.6 to 3.10 (3.11 turned them into [re.error]). *)

From Stdlib Require Import NArith ZArith QArith List String Ascii Bool Lia.
From Stdlib Require Import Sorting.Sorted.
Import ListNotations.
Open Scope N_scope.

(** ** Text *)

Definition char := N.
Definition text := list char.

(** Decoding of the UTF-8 bytes of a literal into code points. *)
Fixpoint utf8_decode (bs : list N) : list N :=
  match bs with
  | [] => []
  | b :: rest =>
      if b <? 128 then b :: utf8_decode rest
      else if (192 <=? b) && (b <? 224) then
        match rest with
        | b2 :: rest2 => ((b - 192) * 64 + (b2 - 128)) :: utf8_decode rest2
        | [] => [b]
        end
      else if (224 <=? b) && (b <? 240) then
        match rest with
        | b2 :: b3 :: rest3 =>
            ((b - 224) * 4096 + (b2 - 128) * 64 + (b3 - 128)) :: utf8_decode rest3
        | _ => b :: utf8_decode rest
        end
      else b :: utf8_decode rest
  end.

Fixpoint bytes_of (s : string) : list N :=
  match s with
  | EmptyString => []
  | String a s' => N_of_ascii a :: bytes_of s'
  end.

Definition u (s : string) : text := utf8_decode (bytes_of s).

(** The double quote character, spelled out (a Rocq literal would double it). *)
Definition dq : string := String (ascii_of_nat 34) EmptyString.

Definition nl : char := 10.

(** Python's [str.isspace] / the [\s] class of a [str] pattern. *)
Definition ws_chars : list char :=
  [9; 10; 11; 12; 13; 28; 29; 30; 31; 32; 133; 160; 5760;
   8192; 8193; 8194; 8195; 8196; 8197; 8198; 8199; 8200; 8201; 8202;
   8232; 8233; 8239; 8287; 12288].

Definition is_ws (c : char) : bool := existsb (N.eqb c) ws_chars.

Definition is_digit (c : char) : bool := (48 <=? c) && (c <=? 57).

Definition is_upper (c : char) : bool :=
  ((65 <=? c) && (c <=? 90)) || ((192 <=? c) && (c <=? 222) && negb (c =? 215)).

Definition is_lower (c : char) : bool :=
  ((97 <=? c) && (c <=? 122)) || ((224 <=? c) && (c <=? 254) && negb (c =? 247)).

(** [str.lower] / [str.upper] on the ASCII and Latin-1 letters. *)
Definition lower (c : char) : char := if is_upper c then c + 32 else c.
Definition upper (c : char) : char := if is_lower c then c - 32 else c.

Definition is_word (c : char) : bool :=
  is_digit c || is_upper c || is_lower c || (c =? 95) || (c =? 170) || (c =? 181)
  || (c =? 186) || (c =? 223) || (c =? 255).

(** Python slicing helpers. *)
Definition take (n : nat) (s : text) : text := firstn n s.
Definition drop (n : nat) (s : text) : text := skipn n s.

Fixpoint text_eqb (a b : text) : bool :=
  match a, b with
  | [], [] => true
  | x :: a', y :: b' => (x =? y) && text_eqb a' b'
  | _, _ => false
  end.

Fixpoint prefixb (p s : text) : bool :=
  match p, s with
  | [], _ => true
  | x :: p', y :: s' => (x =? y) && prefixb p' s'
  | _, [] => false
  end.

(** Python's [p in s] on strings. *)
Fixpoint containsb (p s : text) : bool :=
  prefixb p s || match s with [] => false | _ :: s' => containsb p s' end.

(** [str.strip()] *)
Definition lstrip (s : text) : text :=
  let fix go s := match s with c :: s' => if is_ws c then go s' else s | [] => [] end in go s.
Definition strip (s : text) : text := rev (lstrip (rev (lstrip s))).

(** [str.split(sep)] for a single-character separator. *)
Fixpoint split_on (sep : char) (s : text) : list text :=
  match s with
  | [] => [[]]
  | c :: s' =>
      if c =? sep then [] :: split_on sep s'
      else match split_on sep s' with
           | w :: ws => (c :: w) :: ws
           | [] => [[c]]
           end
  end.

(** Python's [sep.join(parts)] *)
Fixpoint join (sep : text) (parts : list text) : text :=
  match parts with
  | [] => []
  | [p] => p
  | p :: ps => p ++ sep ++ join sep ps
  end.

(** Python's string ordering: lexicographic on code points. *)
Fixpoint text_ltb (a b : text) : bool :=
  match a, b with
  | [], [] => false
  | [], _ :: _ => true
  | _ :: _, [] => false
  | x :: a', y :: b' => if x <? y then true else if y <? x then false else text_ltb a' b'
  end.

(** ** Exceptions *)

Inductive exn := ReError | TypeError | KeyError | AttributeError | IndexError | OverflowError.

Inductive res (A : Type) := Ok (a : A) | Err (e : exn).
Arguments Ok {A} a.
Arguments Err {A} e.

Definition bind {A B} (m : res A) (f : A -> res B) : res B :=
  match m with Ok a => f a | Err e => Err e end.

Notation "'let*' x ':=' m 'in' f" := (bind m (fun x => f))
  (at level 200, x name, m at level 100, f at level 200).

Fixpoint mapM {A B} (f : A -> res B) (l : list A) : res (list B) :=
  match l with
  | [] => Ok []
  | x :: l' => let* y := f x in let* ys := mapM f l' in Ok (y :: ys)
  end.

(** ** Python's [re] module (the subset the sources use) *)

Module Re.

Inductive citem :=
| CChar (c : char)
| CRange (lo hi : char)
| CDigit              (* \d *)
| CSpace              (* \s *)
| CWord.              (* \w *)

Inductive regex :=
| REmpty
| RSetI                              (* the inline flag (?i) *)
| RChar (c : char)
| RClass (neg : bool) (items : list citem)
| RAny                               (* . *)
| RBol                               (* ^ *)
| REol                               (* $ *)
| RSeq (r1 r2 : regex)
| RAlt (r1 r2 : regex)
| RStar (greedy : bool) (r : regex)
| RGroup (name : option text) (r : regex).

(** *** Parsing a pattern string *)

Definition c_of (a : ascii) : char := N_of_ascii a.

Definition hexval (c : char) : option N :=
  if is_digit c then Some (c - 48)
  else if (65 <=? c) && (c <=? 70) then Some (c - 55)
  else if (97 <=? c) && (c <=? 102) then Some (c - 87)
  else None.

Definition hex4 (s : text) : option (char * text) :=
  match s with
  | a :: b :: c :: d :: rest =>
      match hexval a, hexval b, hexval c, hexval d with
      | Some x, Some y, Some z, Some w => Some (((x * 16 + y) * 16 + z) * 16 + w, rest)
      | _, _, _, _ => None
      end
  | _ => None
  end.

Definition is_ascii_alnum (c : char) : bool :=
  is_digit c || ((65 <=? c) && (c <=? 90)) || ((97 <=? c) && (c <=? 122)).

(** An escape [\x] read after the backslash: a class item or a literal. *)
Definition p_escape (s : text) : option (citem * text) :=
  match s with
  | [] => None
  | c :: rest =>
      if c =? c_of "d" then Some (CDigit, rest)
      else if c =? c_of "s" then Some (CSpace, rest)
      else if c =? c_of "w" then Some (CWord, rest)
      else if c =? c_of "n" then Some (CChar 10, rest)
      else if c =? c_of "t" then Some (CChar 9, rest)
      else if c =? c_of "u" then
        match hex4 rest with Some (v, rest') => Some (CChar v, rest') | None => None end
      else if is_ascii_alnum c then None       (* unknown letter escape: re.error *)
      else Some (CChar c, rest)
  end.

Fixpoint p_class_items (fuel : nat) (s : text) : option (list citem * text) :=
  match fuel with
  | O => None
  | S f =>
      match s with
      | [] => None
      | c :: rest =>
          if c =? c_of "]" then Some ([], rest)
          else
            let one :=
              if c =? c_of "\" then p_escape rest else Some (CChar c, rest) in
            match one with
            | None => None
            | Some (it, rest1) =>
                match it, rest1 with
                | CChar lo, d :: rest2 =>
                    if (d =? c_of "-") && negb (match rest2 with e :: _ => e =? c_of "]" | [] => true end)
                    then
                      let hi :=
                        match rest2 with
                        | e :: rest3 =>
                            if e =? c_of "\" then
                              match p_escape rest3 with
                              | Some (CChar h, rest4) => Some (h, rest4)
                              | _ => None
                              end
                            else Some (e, rest3)
                        | [] => None
                        end in
                      match hi with
                      | Some (h, rest4) =>
                          if h <? lo then None
                          else match p_class_items f rest4 with
                               | Some (its, rest5) => Some (CRange lo h :: its, rest5)
                               | None => None
                               end
                      | None => None
                      end
                    else
                      match p_class_items f rest1 with
                      | Some (its, rest5) => Some (it :: its, rest5)
                      | None => None
                      end
                | _, _ =>
                    match p_class_items f rest1 with
                    | Some (its, rest5) => Some (it :: its, rest5)
                    | None => None
                    end
                end
            end
      end
  end.

(** A class [[...]]; a [']'] right after the opening bracket is literal. *)
Definition p_class (fuel : nat) (s : text) : option (regex * text) :=
  let '(neg, s1) := match s with c :: r => if c =? c_of "^" then (true, r) else (false, s) | [] => (false, s) end in
  match s1 with
  | c :: r =>
      if c =? c_of "]" then
        match p_class_items fuel r with
        | Some (its, rest) => Some (RClass neg (CChar c :: its), rest)
        | None => None
        end
      else
        match p_class_items fuel s1 with
        | Some (its, rest) => Some (RClass neg its, rest)
        | None => None
        end
  | [] => None
  end.

Fixpoint p_digits (s : text) (acc : N) (seen : bool) : option (N * text) :=
  match s with
  | c :: rest => if is_digit c then p_digits rest (acc * 10 + (c - 48)) true
                 else if seen then Some (acc, s) else None
  | [] => if seen then Some (acc, s) else None
  end.

Fixpoint rep (n : nat) (r : regex) : regex :=
  match n with O => REmpty | S n' => RSeq r (rep n' r) end.

Fixpoint opt_chain (greedy : bool) (n : nat) (r : regex) : regex :=
  match n with
  | O => REmpty
  | S n' =>
      let more := RSeq r (opt_chain greedy n' r) in
      if greedy then RAlt more REmpty else RAlt REmpty more
  end.

(** [_sre.MAXREPEAT]: a repeat count must stay below it. *)
Definition MAXREPEAT : N := 4294967295.

(** Optional ASCII digits: the number they spell, if any, and the rest. *)
Definition p_opt_digits (s : text) : option N * text :=
  match p_digits s 0 false with Some (n, rest) => (Some n, rest) | None => (None, s) end.

(** Braces after [{], as [sre_parse] reads them: [{}] and anything that is
    not [{lo}], [{lo,hi}], [{lo,}], [{,hi}] or [{,}] leave the brace literal
    ([None]).  A count of [MAXREPEAT] or more raises [OverflowError], a
    maximum below the minimum is [re.error]; [None] as the maximum is
    unbounded. *)
Definition p_braces (s : text) : option (res (nat * option nat * text)) :=
  match s with
  | c :: _ => if c =? c_of "}" then None else
      let '(lo, s1) := p_opt_digits s in
      let '(hi, s2) :=
        match s1 with
        | d :: r => if d =? c_of "," then p_opt_digits r else (lo, s1)
        | [] => (lo, s1)
        end in
      match s2 with
      | e :: rest =>
          if e =? c_of "}" then
            let mn := match lo with Some n => n | None => 0 end in
            if match lo with Some n => MAXREPEAT <=? n | None => false end then Some (Err OverflowError)
            else
              match hi with
              | Some m =>
                  if MAXREPEAT <=? m then Some (Err OverflowError)
                  else if m <? mn then Some (Err ReError)
                  else Some (Ok (N.to_nat mn, Some (N.to_nat m), rest))
              | None => Some (Ok (N.to_nat mn, None, rest))
              end
          else None
      | [] => None
      end
  | [] => None
  end.

Definition lazy_mark (s : text) : bool * text :=
  match s with c :: rest => if c =? c_of "?" then (false, rest) else (true, s) | [] => (true, s) end.

(** [^] and [$] cannot be repeated: [re.error] "nothing to repeat". *)
Definition repeatable (a : regex) : bool :=
  match a with RBol | REol => false | _ => true end.

(** The quantifier, if any, after the atom [a]. *)
Definition quantify (a : regex) (s : text) : res (regex * text) :=
  match s with
  | c :: rest =>
      if c =? c_of "*" then
        if repeatable a then let '(g, r) := lazy_mark rest in Ok (RStar g a, r) else Err ReError
      else if c =? c_of "+" then
        if repeatable a then let '(g, r) := lazy_mark rest in Ok (RSeq a (RStar g a), r) else Err ReError
      else if c =? c_of "?" then
        if repeatable a then
          let '(g, r) := lazy_mark rest in Ok (if g then RAlt a REmpty else RAlt REmpty a, r)
        else Err ReError
      else if c =? c_of "{" then
        match p_braces rest with
        | None => Ok (a, s)
        | Some (Err e) => Err e
        | Some (Ok (n, m, rest')) =>
            if repeatable a then
              let '(g, r) := lazy_mark rest' in
              Ok (RSeq (rep n a) (match m with
                                  | Some m => opt_chain g (m - n) a
                                  | None => RStar g a
                                  end), r)
            else Err ReError
        end
      else Ok (a, s)
  | [] => Ok (a, s)
  end.

Fixpoint p_name (s : text) : option (text * text) :=
  match s with
  | [] => None
  | c :: rest =>
      if c =? c_of ">" then Some ([], rest)
      else match p_name rest with Some (n, r) => Some (c :: n, r) | None => None end
  end.

Fixpoint p_alt (fuel : nat) (s : text) {struct fuel} : res (regex * text) :=
  match fuel with
  | O => Err ReError
  | S f =>
      match p_seq f s with
      | Ok (r1, c :: rest) =>
          if c =? c_of "|" then
            match p_alt f rest with
            | Ok (r2, rest2) => Ok (RAlt r1 r2, rest2)
            | Err e => Err e
            end
          else Ok (r1, c :: rest)
      | o => o
      end
  end
with p_seq (fuel : nat) (s : text) {struct fuel} : res (regex * text) :=
  match fuel with
  | O => Err ReError
  | S f =>
      match s with
      | [] => Ok (REmpty, [])
      | c :: _ =>
          if (c =? c_of "|") || (c =? c_of ")") then Ok (REmpty, s)
          else
            match p_atom f s with
            | Ok (a, rest) =>
                match quantify a rest with
                | Ok (a', rest') =>
                    match p_seq f rest' with
                    | Ok (r, rest'') => Ok (RSeq a' r, rest'')
                    | Err e => Err e
                    end
                | Err e => Err e
                end
            | Err e => Err e
            end
      end
  end
with p_atom (fuel : nat) (s : text) {struct fuel} : res (regex * text) :=
  match fuel with
  | O => Err ReError
  | S f =>
      match s with
      | [] => Err ReError
      | c :: rest =>
          if c =? c_of "(" then
            let body :=
              match rest with
              | q :: c2 :: rest2 =>
                  if (q =? c_of "?") && (c2 =? c_of ":") then Some (None, false, rest2)
                  else if (q =? c_of "?") && (c2 =? c_of "i") then
                    match rest2 with
                    | c3 :: rest3 => if c3 =? c_of ")" then Some (None, true, rest3) else None
                    | [] => None
                    end
                  else if (q =? c_of "?") && (c2 =? c_of "P") then
                    match rest2 with
                    | c3 :: rest3 =>
                        if c3 =? c_of "<" then
                          match p_name rest3 with
                          | Some (nm, rest4) => Some (Some (Some nm), false, rest4)
                          | None => None
                          end
                        else None
                    | [] => None
                    end
                  else if q =? c_of "?" then None
                  else Some (Some None, false, rest)
              | _ => Some (Some None, false, rest)
              end in
            match body with
            | None => Err ReError
            | Some (_, true, rest3) => Ok (RSetI, rest3)
            | Some (cap, false, rest3) =>
                match p_alt f rest3 with
                | Ok (r, d :: rest4) =>
                    if d =? c_of ")" then
                      match cap with
                      | Some nm => Ok (RGroup nm r, rest4)
                      | None => Ok (r, rest4)
                      end
                    else Err ReError
                | Ok (_, []) => Err ReError
                | Err e => Err e
                end
            end
          else if c =? c_of "[" then
            match p_class f rest with Some p => Ok p | None => Err ReError end
          else if c =? c_of "." then Ok (RAny, rest)
          else if c =? c_of "^" then Ok (RBol, rest)
          else if c =? c_of "$" then Ok (REol, rest)
          else if c =? c_of "\" then
            match p_escape rest with
            | Some (CChar x, rest') => Ok (RChar x, rest')
            | Some (it, rest') => Ok (RClass false [it], rest')
            | None => Err ReError
            end
          else if (c =? c_of "*") || (c =? c_of "+") || (c =? c_of "?") then Err ReError
          else if c =? c_of "{" then
            (* a well-formed brace with nothing before it: "nothing to repeat"
               or "multiple repeat" *)
            match p_braces rest with
            | None => Ok (RChar c, rest)
            | Some (Err e) => Err e
            | Some (Ok _) => Err ReError
            end
          else Ok (RChar c, rest)
      end
  end.

(** [re.compile]: [Err ReError] is [re.error], [Err OverflowError] the
    [OverflowError] of a repeat count at or above [MAXREPEAT].  Syntax the
    sources do not use (other escapes, lookaround, other inline flags) is
    outside this subset and refused as [re.error]. *)
Definition parse (pat : text) : res regex :=
  match p_alt (3 * List.length pat + 3) pat with
  | Ok (r, []) => Ok r
  | Ok (_, _ :: _) => Err ReError
  | Err e => Err e
  end.

Fixpoint has_flag_i (r : regex) : bool :=
  match r with
  | RSetI => true
  | RSeq a b | RAlt a b => has_flag_i a || has_flag_i b
  | RStar _ a | RGroup _ a => has_flag_i a
  | _ => false
  end.

(** *** Matching *)

Record flags := { ignorecase : bool; multiline : bool }.
Definition NOFLAGS := {| ignorecase := false; multiline := false |}.
Definition MULTILINE := {| ignorecase := false; multiline := true |}.
Definition IGNORECASE_MULTILINE := {| ignorecase := true; multiline := true |}.

Definition caps := list (option text * (nat * nat)).

Definition item_match (it : citem) (c : char) : bool :=
  match it with
  | CChar p => c =? p
  | CRange lo hi => (lo <=? c) && (c <=? hi)
  | CDigit => is_digit c
  | CSpace => is_ws c
  | CWord => is_word c
  end.

Section Matcher.
Variable s : text.
Variable ic ml : bool.

Definition at_ (i : nat) : option char := nth_error s i.

Definition char_match (p c : char) : bool :=
  if ic then lower p =? lower c else p =? c.

Definition class_match (neg : bool) (its : list citem) (c : char) : bool :=
  xorb neg (existsb (fun it => item_match it c
                               || (ic && (item_match it (lower c) || item_match it (upper c)))) its).

Definition bol (i : nat) : bool :=
  Nat.eqb i 0 || (ml && match at_ (i - 1) with Some c => c =? nl | None => false end).

Definition eol (i : nat) : bool :=
  Nat.eqb i (List.length s)
  || (ml && match at_ i with Some c => c =? nl | None => false end)
  || (negb ml && Nat.eqb (S i) (List.length s) && match at_ i with Some c => c =? nl | None => false end).

(** The loop of a star [r*] or [r*?] at [i]: [step] runs [r]; each
    iteration must consume input, so [List.length s - i + 1] rounds suffice. *)
Fixpoint star_loop (step : nat -> caps -> (nat -> caps -> option (nat * caps)) -> option (nat * caps))
  (k : nat -> caps -> option (nat * caps)) (g : bool) (fuel i : nat) (cp : caps) {struct fuel}
  : option (nat * caps) :=
  match fuel with
  | O => None
  | S f =>
      if g then
        match step i cp (fun j cp' => if Nat.eqb j i then None else star_loop step k g f j cp') with
        | Some x => Some x
        | None => k i cp
        end
      else
        match k i cp with
        | Some x => Some x
        | None => step i cp (fun j cp' => if Nat.eqb j i then None else star_loop step k g f j cp')
        end
  end.

Fixpoint mt (r : regex) (i : nat) (cp : caps) (k : nat -> caps -> option (nat * caps))
  {struct r} : option (nat * caps) :=
  match r with
  | REmpty | RSetI => k i cp
  | RChar p => match at_ i with Some c => if char_match p c then k (S i) cp else None | None => None end
  | RClass neg its =>
      match at_ i with Some c => if class_match neg its c then k (S i) cp else None | None => None end
  | RAny => match at_ i with Some c => if c =? nl then None else k (S i) cp | None => None end
  | RBol => if bol i then k i cp else None
  | REol => if eol i then k i cp else None
  | RSeq r1 r2 => mt r1 i cp (fun j cp' => mt r2 j cp' k)
  | RAlt r1 r2 => match mt r1 i cp k with Some x => Some x | None => mt r2 i cp k end
  | RGroup nm r1 => mt r1 i cp (fun j cp' => k j ((nm, (i, j)) :: cp'))
  | RStar g r1 => star_loop (mt r1) k g (S (List.length s - i)) i cp
  end.

Definition match_at (r : regex) (i : nat) : option (nat * caps) :=
  mt r i [] (fun j cp => Some (j, cp)).

End Matcher.

Record mtch := { m_start : nat; m_end : nat; m_caps : caps }.

Definition effective_ic (fl : flags) (r : regex) : bool := ignorecase fl || has_flag_i r.

(** The first match starting at or after [i], trying [i], [i+1], ... *)
Fixpoint search_go (fl : flags) (r : regex) (s : text) (fuel i : nat) : option mtch :=
  match fuel with
  | O => None
  | S f =>
      if Nat.ltb (List.length s) i then None else
      match match_at s (effective_ic fl r) (multiline fl) r i with
      | Some (j, cp) => Some {| m_start := i; m_end := j; m_caps := cp |}
      | None => search_go fl r s f (S i)
      end
  end.

Definition search_from (fl : flags) (r : regex) (s : text) (p : nat) : option mtch :=
  search_go fl r s (S (List.length s - p)) p.

(** [finditer]: successive non-overlapping matches, left to right; after an
    empty match the scan resumes one position later. *)
Fixpoint scan_go (fl : flags) (r : regex) (s : text) (fuel p : nat) : list mtch :=
  match fuel with
  | O => []
  | S f =>
      match search_from fl r s p with
      | Some m => m :: scan_go fl r s f (if Nat.eqb (m_end m) (m_start m) then S (m_end m) else m_end m)
      | None => []
      end
  end.

Definition scan (fl : flags) (r : regex) (s : text) : list mtch :=
  scan_go fl r s (S (S (List.length s))) O.

Definition group0 (s : text) (m : mtch) : text := firstn (m_end m - m_start m) (skipn (m_start m) s).

Definition group (s : text) (m : mtch) (name : text) : option text :=
  match find (fun e => match fst e with Some n => text_eqb n name | None => false end) (m_caps m) with
  | Some (_, (a, b)) => Some (firstn (b - a) (skipn a s))
  | None => None
  end.

Definition compile (pat : text) : res regex := parse pat.

Definition finditer (pat : text) (s : text) (fl : flags) : res (list mtch) :=
  let* r := compile pat in Ok (scan fl r s).

(** [re.findall]: only the number of items matters to the callers. *)
Definition findall (pat : text) (s : text) (fl : flags) : res (list mtch) := finditer pat s fl.

Definition search (pat : text) (s : text) (fl : flags) : res (option mtch) :=
  let* r := compile pat in Ok (search_from fl r s 0).

(** [re.match]: anchored at position 0. *)
Definition rmatch (pat : text) (s : text) (fl : flags) : res (option mtch) :=
  let* r := compile pat in
  Ok (match match_at s (effective_ic fl r) (multiline fl) r 0 with
      | Some (j, cp) => Some {| m_start := 0; m_end := j; m_caps := cp |}
      | None => None
      end).

Fixpoint pieces (s : text) (p : nat) (ms : list mtch) : list text :=
  match ms with
  | [] => [skipn p s]
  | m :: ms' => firstn (m_start m - p) (skipn p s) :: pieces s (m_end m) ms'
  end.

(** [re.sub(pat, repl, s)] for a replacement without group references. *)
Definition sub (pat : text) (repl : text) (s : text) (fl : flags) : res text :=
  let* ms := finditer pat s fl in Ok (join repl (pieces s O ms)).

(** [re.split(pat, s)] for a pattern without groups. *)
Definition split (pat : text) (s : text) (fl : flags) : res (list text) :=
  let* ms := finditer pat s fl in Ok (pieces s O ms).

End Re.

(** ** JSON values and Python dicts *)

(** The values [json.load] produces; a dict keeps its insertion order. *)
#[warnings="-register-all"]
Inductive json :=
| JNull
| JBool (b : bool)
| JNum (z : Z)
| JStr (s : text)
| JArr (l : list json)
| JObj (l : list (text * json)).

(** A Python dict with string keys, in insertion order. *)
Definition dict (V : Type) := list (text * V).

Fixpoint dget {V} (d : dict V) (k : text) : option V :=
  match d with
  | [] => None
  | (k', v) :: d' => if text_eqb k k' then Some v else dget d' k
  end.

Definition dmem {V} (d : dict V) (k : text) : bool :=
  match dget d k with Some _ => true | None => false end.

(** [d[k] = v]: replaces in place, or appends a new key. *)
Fixpoint dset {V} (d : dict V) (k : text) (v : V) : dict V :=
  match d with
  | [] => [(k, v)]
  | (k', v') :: d' => if text_eqb k k' then (k', v) :: d' else (k', v') :: dset d' k v
  end.

(** Iterating a value with [for x in v] (a string yields its characters,
    a dict its keys; other values raise [TypeError]). *)
Definition py_iter (v : json) : res (list json) :=
  match v with
  | JArr l => Ok l
  | JStr s => Ok (map (fun c => JStr [c]) s)
  | JObj l => Ok (map (fun kv => JStr (fst kv)) l)
  | _ => Err TypeError
  end.

Definition strs (l : list string) : json := JArr (map (fun p => JStr (u p)) l).

Open Scope string_scope.

(** ** The detector's pattern tables ([CitationStyleDetector.__init__]) *)

Definition default_in_text_patterns : dict json := [
  (u "APA", strs [
    "\((?P<author>[A-Za-z\-]+(?:\s[A-Za-z\-]+)?(?: et al\.)?),\s(?P<year>\d{4})(?:,\s(?P<pages>p\.?\s\d+(?:-\d+)?))?\)";
    "\((?P<author1>[A-Za-z\-]+(?:\s[A-Za-z\-]+)?)\s&\s(?P<author2>[A-Za-z\-]+(?:\s[A-Za-z\-]+)?),\s(?P<year>\d{4})(?:,\s(?P<pages>p\.?\s\d+(?:-\d+)?))?\)";
    "\((?P<author>[A-Za-z\-]+(?:\s[A-Za-z\-]+)?)\set\sal\.,\s(?P<year>\d{4})(?:,\s(?P<pages>p\.?\s\d+(?:-\d+)?))?\)";
    "(?P<author>[A-Za-z\-]+(?:\s[A-Za-z\-]+)?)\s\((?P<year>\d{4})(?:,\s(?P<pages>p\.?\s\d+(?:-\d+)?))?\)"]);
  (u "MLA", strs [
    "\((?P<author>[A-Za-z\-]+(?:\s[A-Za-z\-]+)?(?: et al\.)?) (?P<pages>\d+(?:-\d+)?)\)";
    "\((?P<author1>[A-Za-z\-]+(?:\s[A-Za-z\-]+)?) and (?P<author2>[A-Za-z\-]+(?:\s[A-Za-z\-]+)?) (?P<pages>\d+(?:-\d+)?)\)";
    "(?P<author>[A-Za-z\-]+(?:\s[A-Za-z\-]+)?(?: et al\.)?) \((?P<pages>\d+(?:-\d+)?)\)"]);
  (u "CHICAGO_AUTHOR_DATE", strs [
    "\((?P<author>[A-Za-z\-]+(?:\s[A-Za-z\-]+)?(?: et al\.)?) (?P<year>\d{4})(?:, (?P<pages>\d+(?:-\d+)?))?\)";
    "\((?P<author1>[A-Za-z\-]+(?:\s[A-Za-z\-]+)?) and (?P<author2>[A-Za-z\-]+(?:\s[A-Za-z\-]+)?) (?P<year>\d{4})(?:, (?P<pages>\d+(?:-\d+)?))?\)";
    "(?P<author>[A-Za-z\-]+(?:\s[A-Za-z\-]+)?(?: et al\.)?) \((?P<year>\d{4})(?:, (?P<pages>\d+(?:-\d+)?))?\)"]);
  (u "CHICAGO_NOTES", strs [
    "^\d+\.\s(?P<citation>.+)";
    "(?P<citation>(?:Ibid\.|Op\. cit\.|Loc\. cit\.)(?:,\s\d+(?:-\d+)?)?)"]);
  (u "HARVARD", strs [
    "\((?P<author>[A-Za-z\-]+(?:\s[A-Za-z\-]+)?(?: et al\.)?),\s(?P<year>\d{4})(?:: (?P<pages>\d+(?:-\d+)?))?\)";
    "(?P<author>[A-Za-z\-]+(?:\s[A-Za-z\-]+)?(?: et al\.)?) \((?P<year>\d{4})(?:: (?P<pages>\d+(?:-\d+)?))?\)"]);
  (u "IEEE", strs [
    "\[(?P<citation>\d+(?:,\s*\d+)*)\]"]);
  (u "VANCOUVER", strs [
    "\((?P<citation>\d+(?:-\d+)?)\)";
    "(?P<citation>[\u00B9\u00B2\u00B3\u2070-\u2079]+)"]);
  (u "CSE", strs [
    "\((?P<author>[A-Za-z\-]+(?:\s[A-Za-z\-]+)?(?: et al\.)?) (?P<year>\d{4})\)";
    "(?P<author>[A-Za-z\-]+(?:\s[A-Za-z\-]+)?(?: et al\.)?) (?P<year>\d{4})"])
].

Definition default_full_citation_patterns : dict json := [
  (u "APA", strs [
    "(?P<author>[A-Za-z\-]+,\s[A-Z]\.(?:\s[A-Z]\.)?)(?:,\s[A-Za-z\-]+,\s[A-Z]\.(?:\s[A-Z]\.)?)*(?:,?\s&\s[A-Za-z\-]+,\s[A-Z]\.(?:\s[A-Z]\.)?)?\s\((?P<year>\d{4})\)\.\s(?P<title>.+?)\.\s(?P<publisher>[A-Za-z\s]+)\.";
    "(?P<author>[A-Za-z\-]+,\s[A-Z]\.(?:\s[A-Z]\.)?)(?:,\s[A-Za-z\-]+,\s[A-Z]\.(?:\s[A-Z]\.)?)*(?:,?\s&\s[A-Za-z\-]+,\s[A-Z]\.(?:\s[A-Z]\.)?)?\s\((?P<year>\d{4})\)\.\s(?P<title>.+?)\.\s(?P<journal>.+?),\s(?P<volume>\d+)(?:\((?P<issue>\d+)\))?,\s(?P<pages>\d+-\d+)\.";
    "(?P<author>[A-Za-z\-]+,\s[A-Z]\.(?:\s[A-Z]\.)?)(?:,\s[A-Za-z\-]+,\s[A-Z]\.(?:\s[A-Z]\.)?)*(?:,?\s&\s[A-Za-z\-]+,\s[A-Z]\.(?:\s[A-Z]\.)?)?\s\((?P<year>\d{4})(?:,\s[A-Za-z]+\s\d+)?\)\.\s(?P<title>.+?)\.\s(?:Recuperado|Retrieved)(?:\son|\sde)\s(?P<url>https?://[^\s]+)"]);
  (u "MLA", strs [
    "(?P<author>[A-Za-z\-]+,\s[A-Za-z\s\-]+)(?:,\sand\s[A-Za-z\-]+,\s[A-Za-z\s\-]+)*\.\s(?P<title>.+?)\.\s(?P<publisher>[A-Za-z\s]+),\s(?P<year>\d{4})\.";
    ("(?P<author>[A-Za-z\-]+,\s[A-Za-z\s\-]+)(?:,\sand\s[A-Za-z\-]+,\s[A-Za-z\s\-]+)*\.\s" ++ dq ++ "(?P<title>.+?)\." ++ dq ++ "\s(?P<journal>.+?),\svol\.\s(?P<volume>\d+)(?:,\sno\.\s(?P<issue>\d+))?,\s(?P<year>\d{4}),\spp\.\s(?P<pages>\d+-\d+)\.");
    ("(?P<author>[A-Za-z\-]+,\s[A-Za-z\s\-]+)(?:,\sand\s[A-Za-z\-]+,\s[A-Za-z\s\-]+)*\.\s" ++ dq ++ "(?P<title>.+?)\." ++ dq ++ "\s(?P<site>.+?),\s(?P<date>[A-Za-z\.\s\d,]+),\s(?P<url>https?://[^\s]+)(?:\.\s(?:Accessed|Accedido)\s(?P<access_date>[A-Za-z\.\s\d,]+))?.")]);
  (u "CHICAGO", strs [
    "(?P<author>[A-Za-z\-]+,\s[A-Za-z\s\-]+)(?:,\s[A-Za-z\-]+,\s[A-Za-z\s\-]+)*(?:,\sand\s[A-Za-z\-]+,\s[A-Za-z\s\-]+)?\.\s(?P<title>.+?)\.\s(?P<city>[A-Za-z\s]+):\s(?P<publisher>[A-Za-z\s]+),\s(?P<year>\d{4})\.";
    ("(?P<author>[A-Za-z\-]+,\s[A-Za-z\s\-]+)(?:,\s[A-Za-z\-]+,\s[A-Za-z\s\-]+)*(?:,\sand\s[A-Za-z\-]+,\s[A-Za-z\s\-]+)?\.\s" ++ dq ++ "(?P<title>.+?)\." ++ dq ++ "\s(?P<journal>.+?)\s(?P<volume>\d+),\sno\.\s(?P<issue>\d+)\s\((?P<year>\d{4})\):\s(?P<pages>\d+-\d+)\.");
    ("(?P<author>[A-Za-z\-]+,\s[A-Za-z\s\-]+)(?:,\s[A-Za-z\-]+,\s[A-Za-z\s\-]+)*(?:,\sand\s[A-Za-z\-]+,\s[A-Za-z\s\-]+)?\.\s" ++ dq ++ "(?P<title>.+?)\." ++ dq ++ "\s(?P<site>.+?)\.\s(?P<date>[A-Za-z\.\s\d,]+)\.\s(?P<url>https?://[^\s]+)\.")]);
  (u "HARVARD", strs [
    "(?P<author>[A-Za-z\-]+,\s[A-Z]\.)(?:,\s[A-Za-z\-]+,\s[A-Z]\.)*(?:\sand\s[A-Za-z\-]+,\s[A-Z]\.)?\s\((?P<year>\d{4})\)\s(?P<title>.+?)\.\s(?P<city>[A-Za-z\s]+):\s(?P<publisher>[A-Za-z\s]+)\.";
    "(?P<author>[A-Za-z\-]+,\s[A-Z]\.)(?:,\s[A-Za-z\-]+,\s[A-Z]\.)*(?:\sand\s[A-Za-z\-]+,\s[A-Z]\.)?\s\((?P<year>\d{4})\)\s\'(?P<title>.+?)\',\s(?P<journal>.+?),\s(?P<volume>\d+)(?:\((?P<issue>\d+)\))?,\spp\.\s(?P<pages>\d+-\d+)\.";
    "(?P<author>[A-Za-z\-]+,\s[A-Z]\.)(?:,\s[A-Za-z\-]+,\s[A-Z]\.)*(?:\sand\s[A-Za-z\-]+,\s[A-Z]\.)?\s\((?P<year>\d{4})\)\s(?P<title>.+?)\s\[Online\]\.\s(?:Available|Disponible)(?:\sat|\sen):\s(?P<url>https?://[^\s]+)\s\[(?:Accessed|Accedido):\s(?P<access_date>[A-Za-z\.\s\d,]+)\]"]);
  (u "IEEE", strs [
    ("\[(?P<number>\d+)\]\s(?P<author>[A-Z]\.\s[A-Za-z\-]+)(?:,\s[A-Z]\.\s[A-Za-z\-]+)*(?:,\sand\s[A-Z]\.\s[A-Za-z\-]+)?,\s" ++ dq ++ "(?P<title>.+?)(?:,|" ++ dq ++ ")(?:\s(?P<journal>.+?),\svol\.\s(?P<volume>\d+),\sno\.\s(?P<issue>\d+),\spp\.\s(?P<pages>\d+-\d+),\s(?P<date>[A-Za-z\.\s\d,]+))?");
    "\[(?P<number>\d+)\]\s(?P<author>[A-Z]\.\s[A-Za-z\-]+)(?:,\s[A-Z]\.\s[A-Za-z\-]+)*(?:,\sand\s[A-Z]\.\s[A-Za-z\-]+)?,\s(?P<title>.+?)\.\s(?P<city>[A-Za-z\s]+):\s(?P<publisher>[A-Za-z\s]+),\s(?P<year>\d{4})(?:,\spp\.\s(?P<pages>\d+-\d+))?"]);
  (u "VANCOUVER", strs [
    "(?P<number>\d+)\.\s(?P<author>[A-Za-z\-]+\s[A-Z]{1,2})(?:,\s[A-Za-z\-]+\s[A-Z]{1,2})*(?:,\s[A-Za-z\-]+\s[A-Z]{1,2})?\.\s(?P<title>.+?)\.\s(?P<journal>.+?)\.\s(?P<year>\d{4});(?P<volume>\d+)(?:\((?P<issue>\d+)\))?:(?P<pages>\d+-\d+)\.";
    "(?P<number>\d+)\.\s(?P<author>[A-Za-z\-]+\s[A-Z]{1,2})(?:,\s[A-Za-z\-]+\s[A-Z]{1,2})*(?:,\s[A-Za-z\-]+\s[A-Z]{1,2})?\.\s(?P<title>.+?)(?:\.\s(?P<edition>\d+)(?:rd|nd|st|th)\sed)?(?:\.\s(?P<city>[A-Za-z\s]+):\s(?P<publisher>[A-Za-z\s]+);\s(?P<year>\d{4}))?"]);
  (u "CSE", strs [
    "(?P<author>[A-Za-z\-]+\s[A-Z]{1,2})(?:,\s[A-Za-z\-]+\s[A-Z]{1,2})*\.\s(?P<year>\d{4})\.\s(?P<title>.+?)\.\s(?P<journal>.+?)\.\s(?P<volume>\d+)(?:\((?P<issue>\d+)\))?:(?P<pages>\d+-\d+)\.";
    "(?P<author>[A-Za-z\-]+\s[A-Z]{1,2})(?:,\s[A-Za-z\-]+\s[A-Z]{1,2})*\.\s(?P<year>\d{4})\.\s(?P<title>.+?)\.\s(?P<city>[A-Za-z\s]+)(?:\s\([A-Z]{2}\))?:\s(?P<publisher>[A-Za-z\s]+)(?:\.\s(?P<pages>\d+)\sp)?"])
].
Close Scope string_scope.

(** ** Small list utilities for Python idioms *)

(** Order-preserving deduplication: the [seen]-set loop of the sources. *)
Fixpoint dedup_seen (seen : list text) (l : list text) : list text :=
  match l with
  | [] => []
  | x :: l' =>
      if existsb (text_eqb x) seen then dedup_seen seen l'
      else x :: dedup_seen (x :: seen) l'
  end.

Fixpoint insert_sorted (x : text) (l : list text) : list text :=
  match l with
  | [] => [x]
  | y :: l' => if text_ltb y x then y :: insert_sorted x l' else x :: l
  end.

Definition sort_texts (l : list text) : list text := fold_right insert_sorted [] l.

(** [sorted(list(set(l)))]: the distinct elements in ascending order. *)
Definition sorted_set (l : list text) : list text := sort_texts (dedup_seen [] l).

(** [list(set(l))]: Python fixes no order, so a listing is any duplicate-free
    list with the same elements. *)
Definition set_listing {A} (l out : list A) : Prop :=
  NoDup out /\ forall x, In x out <-> In x l.

Fixpoint anyM {A} (f : A -> res bool) (l : list A) : res bool :=
  match l with
  | [] => Ok false
  | x :: l' => let* b := f x in if b then Ok true else anyM f l'
  end.

Definition is_some {A} (o : option A) : bool := match o with Some _ => true | None => false end.

(** ** [CitationStyleDetector] (core/detector.py) *)

Module Detector.

Local Open Scope string_scope.

Record catalog := {
  in_text_patterns : dict json;
  full_citation_patterns : dict json
}.

Definition default_catalog : catalog :=
  {| in_text_patterns := default_in_text_patterns;
     full_citation_patterns := default_full_citation_patterns |}.

Definition NONE_STYLE : text := u "No se detectaron citas".
Definition CHICAGO : text := u "CHICAGO".
Definition CHICAGO_AUTHOR_DATE : text := u "CHICAGO_AUTHOR_DATE".
Definition CHICAGO_NOTES : text := u "CHICAGO_NOTES".

(** Sum of [len(re.findall(p, text, re.MULTILINE))] over the patterns [ps]. *)
Fixpoint count_matches (ps : list json) (t : text) : res nat :=
  match ps with
  | [] => Ok O
  | JStr p :: ps' =>
      let* ms := Re.findall p t Re.MULTILINE in
      let* n := count_matches ps' t in
      Ok (List.length ms + n)%nat
  | _ :: _ => Err TypeError
  end.

Definition count_style (v : json) (t : text) : res nat :=
  let* ps := py_iter v in count_matches ps t.

Definition count_table (tbl : dict json) (t : text) : res (dict nat) :=
  mapM (fun kv => let* n := count_style (snd kv) t in Ok (fst kv, n)) tbl.

(** [detect_citation_styles]: the [in_text] and [full_citation] counts. *)
Definition detect_citation_styles (cat : catalog) (t : text) : res (dict nat * dict nat) :=
  let* it := count_table (in_text_patterns cat) t in
  let* fu := count_table (full_citation_patterns cat) t in
  Ok (it, fu).

Definition sum_values (d : dict nat) : nat := fold_right Nat.add O (map snd d).

(** [if style not in combined: combined[style] = 0; combined[style] += n] *)
Definition add_to (d : dict nat) (k : text) (n : nat) : dict nat :=
  match dget d k with
  | Some m => dset d k (m + n)%nat
  | None => dset d k n
  end.

Definition is_chicago_sub (st : text) : bool :=
  text_eqb st CHICAGO_AUTHOR_DATE || text_eqb st CHICAGO_NOTES.

Definition combine_in_text (acc : dict nat) (it : dict nat) : dict nat :=
  fold_left (fun acc kv => if is_chicago_sub (fst kv) then add_to acc CHICAGO (snd kv)
                           else add_to acc (fst kv) (snd kv)) it acc.

Definition combine_full (acc : dict nat) (fu : dict nat) : dict nat :=
  fold_left (fun acc kv => add_to acc (fst kv) (snd kv)) fu acc.

Definition combine (it fu : dict nat) : dict nat := combine_full (combine_in_text [] it) fu.

(** [max(d, key=d.get)]: the first key holding the maximum. *)
Fixpoint max_from (best : text * nat) (d : dict nat) : text * nat :=
  match d with
  | [] => best
  | kv :: d' => if Nat.ltb (snd best) (snd kv) then max_from kv d' else max_from best d'
  end.

Definition py_max (d : dict nat) : option (text * nat) :=
  match d with [] => None | kv :: d' => Some (max_from kv d') end.

(** [identify_primary_style].  The confidence [combined[style] / total] is a
    Python float; it is kept here as the exact rational, which the
    correctly rounded float division maps into the same closed bounds. *)
Definition identify_primary_style (cat : catalog) (t : text) : res (text * Q) :=
  let* r := detect_citation_styles cat t in
  let '(it, fu) := r in
  let total := (sum_values it + sum_values fu)%nat in
  if Nat.eqb total O then Ok (NONE_STYLE, 0%Q)
  else
    match py_max (combine it fu) with
    | None => Ok (NONE_STYLE, 0%Q)
    | Some (st, n) => Ok (st, Qmake (Z.of_nat n) (Pos.of_nat total))
    end.

(** [match.group(name).strip()]; a group that did not take part is [None],
    whose [.strip()] raises. *)
Definition group_strip (t : text) (m : Re.mtch) (name : string) : res text :=
  match Re.group t m (u name) with
  | Some g => Ok (strip g)
  | None => Err AttributeError
  end.

Definition author_year_keys (t : text) (pat : string) : res (list (text * text)) :=
  let* ms := Re.finditer (u pat) t Re.NOFLAGS in
  mapM (fun m => let* a := group_strip t m "author" in
                 let* y := group_strip t m "year" in Ok (a, y)) ms.

Definition author_only_keys (t : text) (pat : string) : res (list (text * text)) :=
  let* ms := Re.finditer (u pat) t Re.NOFLAGS in
  mapM (fun m => let* a := group_strip t m "author" in Ok (a, [])) ms.

(** [_extract_citation_keys] up to its final [list(set(keys))]: the keys in
    the order they are appended.  The method returns a [set_listing] of them. *)
Definition extract_citation_keys_raw (t : text) (style : text) : res (list (text * text)) :=
  if text_eqb style (u "APA") || text_eqb style (u "HARVARD") then
    let* k1 := author_year_keys t "\((?P<author>[A-Za-z\-]+(?:\s[A-Za-z\-]+)?(?: et al\.)?),\s(?P<year>\d{4})" in
    let* k2 := author_year_keys t "(?P<author>[A-Za-z\-]+(?:\s[A-Za-z\-]+)?(?: et al\.)?)\s\((?P<year>\d{4})" in
    Ok (k1 ++ k2)%list
  else if text_eqb style (u "MLA") then
    let* k1 := author_only_keys t "\((?P<author>[A-Za-z\-]+(?:\s[A-Za-z\-]+)?(?: et al\.)?)\s\d+" in
    let* k2 := author_only_keys t "(?P<author>[A-Za-z\-]+(?:\s[A-Za-z\-]+)?(?: et al\.)?)\s\(\d+" in
    Ok (k1 ++ k2)%list
  else if text_eqb style CHICAGO then
    author_year_keys t "\((?P<author>[A-Za-z\-]+(?:\s[A-Za-z\-]+)?(?: et al\.)?)\s(?P<year>\d{4})"
  else Ok [].

(** The header table of [_find_bibliography_section]. *)
Definition bib_headers : dict (list string) := [
  (u "APA", ["Referencias"; "Bibliografía"; "Referencias bibliográficas";
             "References"; "Bibliography"; "Reference List"]);
  (u "MLA", ["Obras citadas"; "Bibliografía"; "Works Cited"; "Bibliography"]);
  (u "CHICAGO", ["Bibliografía"; "Notas"; "Bibliography"; "Notes"; "References"]);
  (u "HARVARD", ["Referencias"; "Bibliografía"; "References"; "Bibliography"]);
  (u "IEEE", ["Referencias"; "References"]);
  (u "VANCOUVER", ["Referencias"; "Bibliografía"; "References"; "Bibliography"]);
  (u "CSE", ["Referencias"; "Bibliografía"; "References"; "Bibliography"; "Cited References"])
].

(** Strategy a: the first header found as a line of its own. *)
Fixpoint find_header (hs : list string) (t : text) : res (option nat) :=
  match hs with
  | [] => Ok None
  | h :: hs' =>
      let* m := Re.search (u ("(?i)(?:^|\n)\s*" ++ h ++ "\s*(?:\n|$)")) t Re.NOFLAGS in
      match m with
      | Some mm => Ok (Some (Re.m_start mm))
      | None => find_header hs' t
      end
  end.

(** [any(re.match(p, line) for p in patterns)], iterating in order. *)
Fixpoint first_line_match (ps : list json) (line : text) : res bool :=
  match ps with
  | [] => Ok false
  | JStr p :: ps' =>
      let* m := Re.rmatch p line Re.NOFLAGS in
      if is_some m then Ok true else first_line_match ps' line
  | _ :: _ => Err TypeError
  end.

(** The inner [while] loop walking back to a blank line or a header line. *)
Fixpoint walk_back (fuel : nat) (lines : list text) (hs : list string) (sl : nat) : res nat :=
  match fuel with
  | O => Ok sl
  | S f =>
      if Nat.eqb sl O then Ok sl
      else if Nat.eqb (List.length (strip (nth (sl - 1) lines []))) O then Ok sl
      else
        let sl' := (sl - 1)%nat in
        let* hit := anyM (fun h => let* m := Re.search (u ("(?i)" ++ h)) (nth sl' lines []) Re.NOFLAGS in
                                   Ok (is_some m)) hs in
        if hit then Ok sl' else walk_back f lines hs sl'
  end.

(** Strategy b: lines [i = len(lines)-1, ..., 1], each against the style's
    full-citation patterns. *)
Fixpoint back_scan (i : nat) (lines : list text) (pats : json) (hs : list string) : res (option nat) :=
  match i with
  | O => Ok None
  | S i' =>
      let* ps := py_iter pats in
      let* hit := first_line_match ps (nth i lines []) in
      if hit then let* sl := walk_back i lines hs i in Ok (Some sl)
      else back_scan i' lines pats hs
  end.

Definition find_bibliography_section (cat : catalog) (t : text) (style : text) : res text :=
  let hs := match dget bib_headers style with Some hs => hs | None => [] end in
  let* a := find_header hs t in
  match a with
  | Some p => Ok (drop p t)
  | None =>
      let lines := split_on nl t in
      let pats := match dget (full_citation_patterns cat) style with Some v => v | None => JArr [] end in
      let* b := back_scan (List.length lines - 1) lines pats hs in
      match b with
      | Some sl => Ok (join [nl] (skipn sl lines))
      | None => Ok []
      end
  end.

(** [list_a + list_b] on two stored pattern lists. *)
Definition py_list_add (a b : json) : res json :=
  match a, b with JArr x, JArr y => Ok (JArr (x ++ y)%list) | _, _ => Err TypeError end.

(** All [match.group(0)] of every pattern, in pattern order. *)
Fixpoint all_matches (ps : list json) (t : text) : res (list text) :=
  match ps with
  | [] => Ok []
  | JStr p :: ps' =>
      let* ms := Re.finditer p t Re.MULTILINE in
      let* rest := all_matches ps' t in
      Ok (map (Re.group0 t) ms ++ rest)%list
  | _ :: _ => Err TypeError
  end.

Definition starts_entry (line : text) : res bool :=
  let* a := Re.rmatch (u "^[A-Za-z\-]+,") line Re.NOFLAGS in
  if is_some a then Ok true else
  let* b := Re.rmatch (u "^\[\d+\]") line Re.NOFLAGS in
  if is_some b then Ok true else
  let* c := Re.rmatch (u "^\d+\.") line Re.NOFLAGS in
  Ok (is_some c).

(** The line-grouping fallback of [extract_citations]: state [(found, current_ref)]. *)
Fixpoint group_lines (lines : list text) (found : list text) (cur : text) : res (list text) :=
  match lines with
  | [] => Ok (if Nat.eqb (List.length cur) O then found else found ++ [cur])%list
  | l :: ls =>
      let line := strip l in
      if Nat.eqb (List.length line) O then
        if Nat.eqb (List.length cur) O then group_lines ls found cur
        else group_lines ls (found ++ [cur])%list []
      else
        let* st := starts_entry line in
        if st then
          group_lines ls (if Nat.eqb (List.length cur) O then found else found ++ [cur])%list line
        else group_lines ls found (cur ++ [32] ++ line)%list
  end.

(** [extract_citations]: [(en_texto, bibliograficas)]. *)
Definition extract_citations (cat : catalog) (t : text) : res (list text * list text) :=
  let* r := identify_primary_style cat t in
  let ps := fst r in
  if text_eqb ps NONE_STYLE then Ok ([], [])
  else
    let* en :=
      match dget (in_text_patterns cat) ps with
      | Some v =>
          let* pats :=
            if text_eqb ps CHICAGO then
              py_list_add
                (match dget (in_text_patterns cat) CHICAGO_AUTHOR_DATE with Some x => x | None => JArr [] end)
                (match dget (in_text_patterns cat) CHICAGO_NOTES with Some x => x | None => JArr [] end)
            else Ok v in
          let* pl := py_iter pats in
          all_matches pl t
      | None => Ok []
      end in
    let* bib :=
      match dget (full_citation_patterns cat) ps with
      | Some v =>
          let* sec := find_bibliography_section cat t ps in
          if Nat.eqb (List.length sec) O then Ok []
          else
            let* pl := py_iter v in
            let* found := all_matches pl sec in
            match found with
            | [] => group_lines (split_on nl sec) [] []
            | _ => Ok found
            end
      | None => Ok []
      end in
    Ok (sorted_set en, sorted_set bib).

End Detector.

(** ** [CitationPatterns.add_custom_pattern] (core/patterns.py) *)

Module Patterns.

(** The six tables of a [CitationPatterns] object; [P] is the type of the
    compiled patterns. *)
Record catalog_of (P : Type) := {
  in_text_patterns : dict (list text);
  bibliography_patterns : dict (list text);
  bibliography_headers : dict (list text);
  compiled_in_text : dict (list P);
  compiled_bibliography : dict (list P);
  compiled_headers : dict (list P)
}.
Arguments in_text_patterns {P} c.
Arguments bibliography_patterns {P} c.
Arguments bibliography_headers {P} c.
Arguments compiled_in_text {P} c.
Arguments compiled_bibliography {P} c.
Arguments compiled_headers {P} c.

Definition catalog := catalog_of Re.regex.

(** One (source table, compiled table) pair, as the three branches use it:
    the outcome and the two tables reached, the source list being appended
    to before the compiled list is looked up. *)
Definition add_to_tables {P} (src : dict (list text)) (cmp : dict (list P))
    (style : text) (pat : text) (rx : P)
  : res unit * (dict (list text) * dict (list P)) :=
  let '(src1, cmp1) :=
    if dmem src style then (src, cmp) else (dset src style [], dset cmp style []) in
  match dget src1 style with
  | None => (Err KeyError, (src1, cmp1))
  | Some ps =>
      let src2 := dset src1 style (ps ++ [pat]) in
      match dget cmp1 style with
      | None => (Err KeyError, (src2, cmp1))
      | Some cs => (Ok tt, (src2, dset cmp1 style (cs ++ [rx])))
      end
  end.

(** [add_custom_pattern(style, pattern_type, pattern)] over the compiler
    [compile] that stands for [re.compile(pattern, re.MULTILINE)]: the
    returned flag (or the exception that escapes) and the tables afterwards.
    [re.error] is caught and reported as [False]; any other exception of
    [re.compile] propagates. *)
Definition add_custom_pattern_with {P} (compile : text -> res P) (cat : catalog_of P)
    (style ptype pat : text) : res bool * catalog_of P :=
  match compile pat with
  | Err ReError => (Ok false, cat)
  | Err e => (Err e, cat)
  | Ok rx =>
      if text_eqb ptype (u "in_text") then
        let '(r, (src', cmp')) := add_to_tables (in_text_patterns cat) (compiled_in_text cat) style pat rx in
        (let* _ := r in Ok true,
         {| in_text_patterns := src'; bibliography_patterns := bibliography_patterns cat;
            bibliography_headers := bibliography_headers cat; compiled_in_text := cmp';
            compiled_bibliography := compiled_bibliography cat;
            compiled_headers := compiled_headers cat |})
      else if text_eqb ptype (u "bibliography") then
        let '(r, (src', cmp')) := add_to_tables (bibliography_patterns cat) (compiled_bibliography cat) style pat rx in
        (let* _ := r in Ok true,
         {| in_text_patterns := in_text_patterns cat; bibliography_patterns := src';
            bibliography_headers := bibliography_headers cat;
            compiled_in_text := compiled_in_text cat;
            compiled_bibliography := cmp'; compiled_headers := compiled_headers cat |})
      else if text_eqb ptype (u "headers") then
        let '(r, (src', cmp')) := add_to_tables (bibliography_headers cat) (compiled_headers cat) style pat rx in
        (let* _ := r in Ok true,
         {| in_text_patterns := in_text_patterns cat;
            bibliography_patterns := bibliography_patterns cat;
            bibliography_headers := src'; compiled_in_text := compiled_in_text cat;
            compiled_bibliography := compiled_bibliography cat; compiled_headers := cmp' |})
      else (Ok false, cat)
  end.

(** [add_custom_pattern] with the embedded [re.compile]. *)
Definition add_custom_pattern (cat : catalog) (style ptype pat : text) : res bool * catalog :=
  add_custom_pattern_with Re.compile cat style ptype pat.

(** [get_pattern(style, 'in_text')] *)
Definition get_in_text (cat : catalog) (style : text) : list Re.regex :=
  match dget (compiled_in_text cat) style with Some l => l | None => [] end.

(** The source table and the compiled table of a category have the same
    keys, as [_compile_patterns] builds them. *)
Definition keys_agree {A B} (a : dict A) (b : dict B) : Prop :=
  forall k, dmem a k = dmem b k.

Definition well_formed {P} (cat : catalog_of P) : Prop :=
  keys_agree (in_text_patterns cat) (compiled_in_text cat)
  /\ keys_agree (bibliography_patterns cat) (compiled_bibliography cat)
  /\ keys_agree (bibliography_headers cat) (compiled_headers cat).

End Patterns.

(** ** [CitationStyleDetector._load_custom_patterns] *)

Module Load.

Import Detector.

(** The method mutates the detector's tables in place and any exception
    stops it where it is; a computation here returns its outcome together
    with the tables reached. *)
Definition M (A : Type) := catalog -> res A * catalog.

Definition ret {A} (a : A) : M A := fun c => (Ok a, c).
Definition mbind {A B} (m : M A) (f : A -> M B) : M B :=
  fun c => match m c with (Ok a, c') => f a c' | (Err e, c') => (Err e, c') end.
Definition lift {A} (r : res A) : M A := fun c => (r, c).

Notation "x <- m ;; f" := (mbind m (fun x => f)) (at level 61, m at next level, right associativity).

(** [key in cfg] *)
Definition py_in (k : text) (v : json) : res bool :=
  match v with
  | JObj l => Ok (is_some (dget l k))
  | JArr l => Ok (existsb (fun x => match x with JStr s => text_eqb s k | _ => false end) l)
  | JStr s => Ok (containsb k s)
  | _ => Err TypeError
  end.

(** [cfg[key]] *)
Definition py_getitem (v : json) (k : text) : res json :=
  match v with
  | JObj l => match dget l k with Some x => Ok x | None => Err KeyError end
  | _ => Err TypeError
  end.

(** [v.items()] *)
Definition py_items (v : json) : res (list (text * json)) :=
  match v with JObj l => Ok l | _ => Err AttributeError end.

(** [tbl[style].extend(patterns)] or [tbl[style] = patterns]. *)
Definition merge_one (tbl : dict json) (style : text) (pats : json) : res (dict json) :=
  match dget tbl style with
  | Some (JArr l) => let* more := py_iter pats in Ok (dset tbl style (JArr (l ++ more)))
  | Some _ => Err AttributeError
  | None => Ok (dset tbl style pats)
  end.

Definition get_table (which : bool) (c : catalog) : dict json :=
  if which then in_text_patterns c else full_citation_patterns c.

Definition put_table (which : bool) (t : dict json) (c : catalog) : catalog :=
  if which then {| in_text_patterns := t; full_citation_patterns := full_citation_patterns c |}
  else {| in_text_patterns := in_text_patterns c; full_citation_patterns := t |}.

Fixpoint merge_all (which : bool) (entries : list (text * json)) : M unit :=
  match entries with
  | [] => ret tt
  | (style, pats) :: rest =>
      fun c => match merge_one (get_table which c) style pats with
               | Ok t => merge_all which rest (put_table which t c)
               | Err e => (Err e, c)
               end
  end.

(** One [if key in custom_patterns: for style, patterns in ....items(): ...] block. *)
Definition load_block (which : bool) (key : string) (cfg : json) : M unit :=
  present <- lift (py_in (u key) cfg) ;;
  if present then
    v <- lift (py_getitem cfg (u key)) ;;
    entries <- lift (py_items v) ;;
    merge_all which entries
  else ret tt.

(** The body of the [try]: the in-text block, then the full-citation block. *)
Definition load_body (cfg : json) : M unit :=
  _ <- load_block true "in_text_patterns" cfg ;;
  load_block false "full_citation_patterns" cfg.

(** [_load_custom_patterns] on the loaded configuration [cfg]: the exception,
    if any, is logged and swallowed; the tables keep what was merged. *)
Definition load_custom_patterns (c : catalog) (cfg : json) : catalog := snd (load_body cfg c).

End Load.

(** ** [CitationValidator._match_author_names] (core/validator.py) *)

Module Validator.

Local Open Scope string_scope.

(** [s.replace(old, new)] for a one-character [old]. *)
Definition replace_char (old : char) (new : text) (s : text) : text :=
  flat_map (fun c => if N.eqb c old then new else [c]) s.

(** [_normalize_author_name] *)
Definition normalize_author_name (author : text) : res text :=
  let normalized := map lower author in
  let* normalized := Re.sub (u "[.,;:]") [] normalized Re.NOFLAGS in
  let normalized := replace_char (Re.c_of "&") (u "and") normalized in
  let* normalized := Re.sub (u "\s+") (u " ") normalized Re.NOFLAGS in
  Ok (strip normalized).

(** [s.split(sep)[0]]: what precedes the first occurrence of [sep]. *)
Fixpoint before (sep s : text) : text :=
  if prefixb sep s then []
  else match s with [] => [] | c :: s' => c :: before sep s' end.

(** [s.split()[0]]: the first whitespace-separated word. *)
Definition first_word (s : text) : res text :=
  match lstrip s with
  | [] => Err IndexError
  | s' => Ok (let fix go l := match l with c :: l' => if is_ws c then [] else c :: go l' | [] => [] end in go s')
  end.

Definition main_author (n : text) : res text :=
  if containsb (u " ") n then first_word n else Ok n.

Definition ET_AL : text := u "et al".

(** [_match_author_names(author1, author2)] *)
Definition match_author_names (author1 author2 : text) : res bool :=
  let* auth1_norm := normalize_author_name author1 in
  let* auth2_norm := normalize_author_name author2 in
  if text_eqb auth1_norm auth2_norm then Ok true
  else if containsb ET_AL auth1_norm && containsb (strip (before ET_AL auth1_norm)) auth2_norm then Ok true
  else if containsb ET_AL auth2_norm && containsb (strip (before ET_AL auth2_norm)) auth1_norm then Ok true
  else if containsb auth1_norm auth2_norm || containsb auth2_norm auth1_norm then Ok true
  else
    let* main_author1 := main_author auth1_norm in
    let* main_author2 := main_author auth2_norm in
    Ok (text_eqb main_author1 main_author2).

End Validator.

(** ** [CitationExtractor] (core/extractor.py) *)

Module Extractor.

Local Open Scope string_scope.

(** The tables set by [_init_section_patterns]. *)

Definition bibliography_headers : dict (list text) := [
  (u "APA", map u [
    "(?i)^Referencias$";
    "(?i)^Referencias bibliográficas$";
    "(?i)^Bibliografía$";
    "(?i)^References$";
    "(?i)^Reference List$";
    "(?i)^Bibliography$"]);
  (u "MLA", map u [
    "(?i)^Obras citadas$";
    "(?i)^Works Cited$";
    "(?i)^Bibliografía$";
    "(?i)^Bibliography$"]);
  (u "CHICAGO", map u [
    "(?i)^Bibliografía$";
    "(?i)^Bibliography$";
    "(?i)^Referencias$";
    "(?i)^References$";
    "(?i)^Notas$";
    "(?i)^Notes$"]);
  (u "HARVARD", map u [
    "(?i)^Referencias$";
    "(?i)^Referencias bibliográficas$";
    "(?i)^Bibliografía$";
    "(?i)^Reference List$";
    "(?i)^References$"]);
  (u "IEEE", map u [
    "(?i)^Referencias$";
    "(?i)^References$"]);
  (u "VANCOUVER", map u [
    "(?i)^Referencias$";
    "(?i)^References$";
    "(?i)^Bibliografía$";
    "(?i)^Bibliography$"]);
  (u "CSE", map u [
    "(?i)^Referencias$";
    "(?i)^References$";
    "(?i)^Cited References$";
    "(?i)^Referencias citadas$";
    "(?i)^Bibliografía$";
    "(?i)^Bibliography$"])
].

Definition in_text_patterns : dict (list text) := [
  (u "APA", map u [
    "\((?:[A-Za-zÀ-ÿ\-]+(?:\s[A-Za-zÀ-ÿ\-]+)?(?: et al\.)?(?:,| &| y) )?[A-Za-zÀ-ÿ\-]+(?:\s[A-Za-zÀ-ÿ\-]+)?(?: et al\.)?, \d{4}(?:, p\.? \d+(?:-\d+)?)?\)";
    "(?:[A-Za-zÀ-ÿ\-]+(?:\s[A-Za-zÀ-ÿ\-]+)?(?: et al\.)?(?:,| &| y) )?[A-Za-zÀ-ÿ\-]+(?:\s[A-Za-zÀ-ÿ\-]+)?(?: et al\.)? \(\d{4}(?:, p\.? \d+(?:-\d+)?)?\)"]);
  (u "MLA", map u [
    "\([A-Za-zÀ-ÿ\-]+(?:\s[A-Za-zÀ-ÿ\-]+)?(?: et al\.)?(?: and [A-Za-zÀ-ÿ\-]+(?:\s[A-Za-zÀ-ÿ\-]+)?)? \d+(?:-\d+)?\)";
    "[A-Za-zÀ-ÿ\-]+(?:\s[A-Za-zÀ-ÿ\-]+)?(?: et al\.)?(?: and [A-Za-zÀ-ÿ\-]+(?:\s[A-Za-zÀ-ÿ\-]+)?)? \(\d+(?:-\d+)?\)"]);
  (u "CHICAGO_AUTHOR_DATE", map u [
    "\([A-Za-zÀ-ÿ\-]+(?:\s[A-Za-zÀ-ÿ\-]+)?(?: et al\.)?(?: and [A-Za-zÀ-ÿ\-]+(?:\s[A-Za-zÀ-ÿ\-]+)?)? \d{4}(?:, \d+(?:-\d+)?)?\)";
    "[A-Za-zÀ-ÿ\-]+(?:\s[A-Za-zÀ-ÿ\-]+)?(?: et al\.)?(?: and [A-Za-zÀ-ÿ\-]+(?:\s[A-Za-zÀ-ÿ\-]+)?)? \(\d{4}(?:, \d+(?:-\d+)?)?\)"]);
  (u "CHICAGO_NOTES", map u [
    "^\d+\.\s.+";
    "(?:Ibid\.|Op\. cit\.|Loc\. cit\.)(?:,\s\d+(?:-\d+)?)?"]);
  (u "HARVARD", map u [
    "\([A-Za-zÀ-ÿ\-]+(?:\s[A-Za-zÀ-ÿ\-]+)?(?: et al\.)?(?: and [A-Za-zÀ-ÿ\-]+(?:\s[A-Za-zÀ-ÿ\-]+)?)?, \d{4}(?::\s?\d+(?:-\d+)?)?\)";
    "[A-Za-zÀ-ÿ\-]+(?:\s[A-Za-zÀ-ÿ\-]+)?(?: et al\.)?(?: and [A-Za-zÀ-ÿ\-]+(?:\s[A-Za-zÀ-ÿ\-]+)?)? \(\d{4}(?::\s?\d+(?:-\d+)?)?\)"]);
  (u "IEEE", map u [
    "\[\d+\]";
    "\[\d+(?:,\s*\d+)*\]"]);
  (u "VANCOUVER", map u [
    "\(\d+\)";
    "\[\d+\]";
    "(?:^|\s)[\u00B9\u00B2\u00B3\u2070-\u2079]+"]);
  (u "CSE", map u [
    "\([A-Za-zÀ-ÿ\-]+(?:\s[A-Za-zÀ-ÿ\-]+)?(?: et al\.)? \d{4}\)";
    "[A-Za-zÀ-ÿ\-]+(?:\s[A-Za-zÀ-ÿ\-]+)?(?: et al\.)? \d{4}";
    "\[\d+\]";
    "\[[A-Za-zÀ-ÿ\-]+(?:\s[A-Za-zÀ-ÿ\-]+)?(?:,\s\d{4})?\]"])
].

Definition APA : text := u "APA".
Definition MLA : text := u "MLA".

Definition all_headers : list text := flat_map snd bibliography_headers.

Definition get_list (d : dict (list text)) (k : text) : list text :=
  match dget d k with Some l => l | None => [] end.

(** [while start_pos > 0 and text[start_pos-1] != '\n': start_pos -= 1] *)
Fixpoint line_start (fuel : nat) (t : text) (p : nat) : nat :=
  match fuel with
  | O => p
  | S f => if Nat.eqb p O then p
           else if N.eqb (nth (p - 1) t 0%N) nl then p
           else line_start f t (p - 1)
  end.

(** [while start_pos > 0: if text[start_pos:start_pos+2] == '\n\n': start_pos += 2; break; start_pos -= 1] *)
Fixpoint blank_start (fuel : nat) (t : text) (p : nat) : nat :=
  match fuel with
  | O => p
  | S f => if Nat.eqb p O then p
           else if text_eqb (firstn 2 (skipn p t)) [nl; nl] then (p + 2)%nat
           else blank_start f t (p - 1)
  end.

Definition entry_start (t : text) (p : nat) : nat :=
  let p1 := line_start p t p in blank_start p1 t p1.

(** The first header among [hs] found as a whole line (the [(?i)^{header}\s*$] search). *)
Fixpoint find_header_line (hs : list text) (t : text) : res (option (text * nat)) :=
  match hs with
  | [] => Ok None
  | h :: hs' =>
      let* m := Re.search (u "(?i)^" ++ h ++ u "\s*$")%list t Re.MULTILINE in
      match m with
      | Some mm => Ok (Some (h, Re.m_start mm))
      | None => find_header_line hs' t
      end
  end.

(** [_extract_main_text] *)
Definition extract_main_text (t : text) : res text :=
  let* h := find_header_line all_headers t in
  match h with
  | Some (_, p) => Ok (take p t)
  | None =>
      let* m := Re.search (u "\n[A-Za-zÀ-ÿ\-]+,\s[A-Z]\.(?:\s[A-Z]\.)?\s\(\d{4}\)\.") t Re.NOFLAGS in
      match m with
      | Some mm => Ok (take (entry_start t (Re.m_start mm)) t)
      | None => Ok t
      end
  end.

(** [_is_valid_citation(citation, style, citation_type)] *)
Definition is_valid_citation (citation style ctype : text) : res bool :=
  let has (pat : string) := let* m := Re.search (u pat) citation Re.NOFLAGS in Ok (is_some m) in
  let len := List.length citation in
  if Nat.ltb len 3 then Ok false
  else if text_eqb ctype (u "in_text") then
    let* ok_style :=
      if text_eqb style APA then
        let* y := has "\d{4}" in
        if negb y then Ok false
        else Ok (negb (prefixb (u "(") citation && negb (prefixb (u ")") (rev citation))))
      else if text_eqb style MLA then
        let* d := has "\d+" in
        Ok (negb (containsb (u "(") citation && containsb (u ")") citation && negb d))
      else if text_eqb style (u "CHICAGO_AUTHOR_DATE") || text_eqb style (u "CHICAGO") then
        let* y := has "\d{4}" in
        if negb y then Ok false
        else Ok (negb (prefixb (u "(") citation && negb (prefixb (u ")") (rev citation))))
      else if text_eqb style (u "IEEE") || text_eqb style (u "VANCOUVER") then
        has "\d+"
      else Ok true in
    if negb ok_style then Ok false
    else Ok (negb (Nat.ltb 100 len))
  else if text_eqb ctype (u "bibliography") then
    let* p := has "[.!?]$" in
    if negb p then Ok false else
    let* y := has "\d{4}" in
    if negb (text_eqb style MLA) && negb y then Ok false else
    let* n := has "^\[\d+\]|\d+\." in
    if (text_eqb style (u "IEEE") || text_eqb style (u "VANCOUVER")) && negb n then Ok false else
    let* a := has "^[A-Za-zÀ-ÿ\-]+," in
    if existsb (text_eqb style) (map u ["APA"; "MLA"; "CHICAGO"; "HARVARD"]) && negb a then Ok false
    else if Nat.ltb len 20 then Ok false
    else if Nat.ltb 1000 len then Ok false
    else Ok true
  else Ok true.

(** A pattern as the loop of [extract_in_text_citations] meets it: a source
    string (compiled there without flags) or a pattern compiled by
    [CitationPatterns] (with [re.MULTILINE]). *)
Inductive pattern := PStr (p : text) | PCompiled (r : Re.regex).

Definition run_pattern (p : pattern) (t : text) : res (list Re.mtch) :=
  match p with
  | PStr s => Re.finditer s t Re.NOFLAGS
  | PCompiled r => Ok (Re.scan Re.MULTILINE r t)
  end.

(** Every accepted match, in pattern order then text order. *)
Fixpoint candidates (ps : list pattern) (t style : text) : res (list text) :=
  match ps with
  | [] => Ok []
  | p :: ps' =>
      let* ms := run_pattern p t in
      let* here :=
        (fix keep (ms : list Re.mtch) : res (list text) :=
           match ms with
           | [] => Ok []
           | m :: ms' =>
               let c := Re.group0 t m in
               let* v := is_valid_citation c style (u "in_text") in
               let* rest := keep ms' in
               Ok (if v then c :: rest else rest)
           end) ms in
      let* rest := candidates ps' t style in
      Ok (here ++ rest)%list
  end.

(** The pattern list chosen by [extract_in_text_citations]. *)
Definition in_text_pattern_list (pc : option Patterns.catalog) (style : text) : list pattern :=
  let ps :=
    match pc with
    | Some c => map PCompiled (Patterns.get_in_text c style)
    | None =>
        if text_eqb style (u "CHICAGO") then
          map PStr (get_list in_text_patterns (u "CHICAGO_AUTHOR_DATE")
                    ++ get_list in_text_patterns (u "CHICAGO_NOTES"))%list
        else map PStr (get_list in_text_patterns style)
    end in
  match ps with
  | [] => map PStr (flat_map snd in_text_patterns)
  | _ => ps
  end.

(** [extract_in_text_citations(text, style)]; [pc] is the optional
    [CitationPatterns] instance given to the constructor. *)
Definition extract_in_text_citations (pc : option Patterns.catalog) (t style : text) : res (list text) :=
  let* main_text := extract_main_text t in
  let* citations := candidates (in_text_pattern_list pc style) main_text style in
  Ok (dedup_seen [] citations).

(** [_extract_bibliography_section(text, style)] *)
Definition extract_bibliography_section (t style : text) : res text :=
  let headers := match get_list bibliography_headers style with [] => all_headers | hs => hs end in
  let* h := find_header_line headers t in
  match h with
  | Some (header, p) =>
      let bibliography := drop p t in
      let* ns := Re.search (u "\n\s*[A-Z][A-Za-zÀ-ÿ\s]+\s*\n")
                           (drop (List.length header) bibliography) Re.NOFLAGS in
      match ns with
      | Some n => Ok (take (List.length header + Re.m_start n) bibliography)
      | None => Ok bibliography
      end
  | None =>
      let fallback (pat : string) : res text :=
        let* ms := Re.finditer (u pat) t Re.NOFLAGS in
        match ms with
        | m :: _ => Ok (drop (entry_start t (Re.m_start m)) t)
        | [] => Ok []
        end in
      if text_eqb style APA then fallback "\n[A-Za-zÀ-ÿ\-]+,\s[A-Z]\.(?:\s[A-Z]\.)?\s\(\d{4}\)\."
      else if text_eqb style MLA then fallback "\n[A-Za-zÀ-ÿ\-]+,\s[A-Za-zÀ-ÿ\-\s]+\.\s"
      else if text_eqb style (u "IEEE") then fallback "\n\[\d+\]\s[A-Z]\.\s[A-Za-zÀ-ÿ\-]+"
      else Ok []
  end.

(** The line-grouping loop of [_split_bibliography_entries], with the
    entry-start test [starts]. *)
Fixpoint group_entries (starts : text -> res bool) (lines : list text) (entries : list text) (cur : text)
  : res (list text) :=
  match lines with
  | [] => Ok (if Nat.eqb (List.length (strip cur)) O then entries else entries ++ [strip cur])%list
  | l :: ls =>
      let line := strip l in
      if Nat.eqb (List.length line) O then
        if Nat.eqb (List.length (strip cur)) O then group_entries starts ls entries cur
        else group_entries starts ls (entries ++ [strip cur])%list []
      else
        let* st := starts line in
        if st then
          group_entries starts ls
            (if Nat.eqb (List.length (strip cur)) O then entries else entries ++ [strip cur])%list line
        else group_entries starts ls entries (cur ++ [32%N] ++ line)%list
  end.

Definition re_starts (pat : string) (line : text) : res bool :=
  let* m := Re.rmatch (u pat) line Re.NOFLAGS in Ok (is_some m).

Fixpoint remove_headers (hs : list text) (bib : text) : res text :=
  match hs with
  | [] => Ok bib
  | h :: hs' =>
      let* bib' := Re.sub (u "(?i)^" ++ h ++ u "\s*" ++ [nl])%list [] bib Re.NOFLAGS in
      remove_headers hs' bib'
  end.

(** [_split_bibliography_entries(bib_section, style)] *)
Definition split_bibliography_entries (bib style : text) : res (list text) :=
  let* bib := remove_headers (get_list bibliography_headers style) bib in
  if existsb (text_eqb style) (map u ["APA"; "MLA"; "CHICAGO"; "HARVARD"]) then
    group_entries (re_starts "^[A-Za-zÀ-ÿ\-]+,") (split_on nl bib) [] []
  else if text_eqb style (u "IEEE") || text_eqb style (u "VANCOUVER") then
    group_entries (re_starts "^\[\d+\]|\d+\.") (split_on nl bib) [] []
  else if text_eqb style (u "CSE") then
    group_entries (re_starts "^\[\d+\]|\d+\.|\w+\s\w+\s\d{4}\.") (split_on nl bib) [] []
  else
    let* raw := Re.split (u "\n\s*\n") bib Re.NOFLAGS in
    Ok (filter (fun e => negb (Nat.eqb (List.length e) O)) (map strip raw)).

Fixpoint keep_valid (entries : list text) (style : text) : res (list text) :=
  match entries with
  | [] => Ok []
  | e :: es =>
      let entry := strip e in
      let* v := if Nat.eqb (List.length entry) O then Ok false
                else is_valid_citation entry style (u "bibliography") in
      let* rest := keep_valid es style in
      Ok (if v then entry :: rest else rest)
  end.

(** [extract_bibliography_citations(text, style)] *)
Definition extract_bibliography_citations (t style : text) : res (list text) :=
  let* bib_section := extract_bibliography_section t style in
  if Nat.eqb (List.length bib_section) O then Ok []
  else
    let* entries := split_bibliography_entries bib_section style in
    keep_valid entries style.

(** [style_counts.pop(key, 0)] *)
Definition dpop (d : dict nat) (k : text) : nat * dict nat :=
  (match dget d k with Some v => v | None => O end,
   filter (fun kv => negb (text_eqb (fst kv) k)) d).

(** The header pass of [_detect_citation_style]: [+5] per header found. *)
Definition header_counts (t : text) (sc : dict nat) : res (dict nat) :=
  fold_left (fun acc kv =>
               let* sc := acc in
               fold_left (fun acc2 h =>
                            let* sc := acc2 in
                            let* m := Re.search h t Re.IGNORECASE_MULTILINE in
                            Ok (if is_some m then Detector.add_to sc (fst kv) 5 else sc))
                         (snd kv) (Ok sc))
            bibliography_headers (Ok sc).

(** The pattern pass: [+len(re.findall(pattern, text))]. *)
Definition pattern_counts (t : text) (sc : dict nat) : res (dict nat) :=
  fold_left (fun acc kv =>
               let* sc := acc in
               fold_left (fun acc2 p =>
                            let* sc := acc2 in
                            let* ms := Re.findall p t Re.NOFLAGS in
                            Ok (Detector.add_to sc (fst kv) (List.length ms)))
                         (snd kv) (Ok sc))
            in_text_patterns (Ok sc).

(** The Chicago merge and the final choice of [_detect_citation_style]. *)
Definition choose_style (sc : dict nat) : text :=
  let sc :=
    if dmem sc (u "CHICAGO_AUTHOR_DATE") || dmem sc (u "CHICAGO_NOTES") then
      let '(author_date, sc1) := dpop sc (u "CHICAGO_AUTHOR_DATE") in
      let '(notes, sc2) := dpop sc1 (u "CHICAGO_NOTES") in
      dset sc2 (u "CHICAGO") (author_date + notes)%nat
    else sc in
  match Detector.py_max sc with
  | Some (st, n) => if Nat.ltb O n then st else APA
  | None => APA
  end.

(** [_detect_citation_style(text)] *)
Definition detect_citation_style (t : text) : res text :=
  let* sc := header_counts t [] in
  let* sc := pattern_counts t sc in
  Ok (choose_style sc).

(** [extract_all_citations(text, style)]: [(en_texto, bibliograficas)];
    [None] and the empty string both trigger detection. *)
Definition extract_all_citations (pc : option Patterns.catalog) (t : text) (style : option text)
  : res (list text * list text) :=
  let* st := match style with
             | Some s => if Nat.eqb (List.length s) O then detect_citation_style t else Ok s
             | None => detect_citation_style t
             end in
  let* en := extract_in_text_citations pc t st in
  let* bib := extract_bibliography_citations t st in
  Ok (en, bib).

End Extractor.

(** ** Reference semantics of the regular expressions *)

Module ReSem.
Import Re.

(** [matches s ic ml r i j]: [r] can match [s] from [i] to [j]. *)
Inductive matches (s : text) (ic ml : bool) : regex -> nat -> nat -> Prop :=
| m_empty i : matches s ic ml REmpty i i
| m_seti i : matches s ic ml RSetI i i
| m_char p c i : at_ s i = Some c -> char_match ic p c = true -> matches s ic ml (RChar p) i (S i)
| m_class neg its c i : at_ s i = Some c -> class_match ic neg its c = true ->
    matches s ic ml (RClass neg its) i (S i)
| m_any c i : at_ s i = Some c -> (c =? nl) = false -> matches s ic ml RAny i (S i)
| m_bol i : bol s ml i = true -> matches s ic ml RBol i i
| m_eol i : eol s ml i = true -> matches s ic ml REol i i
| m_seq r1 r2 i j l : matches s ic ml r1 i j -> matches s ic ml r2 j l -> matches s ic ml (RSeq r1 r2) i l
| m_altl r1 r2 i j : matches s ic ml r1 i j -> matches s ic ml (RAlt r1 r2) i j
| m_altr r1 r2 i j : matches s ic ml r2 i j -> matches s ic ml (RAlt r1 r2) i j
| m_group nm r1 i j : matches s ic ml r1 i j -> matches s ic ml (RGroup nm r1) i j
| m_star0 g r1 i : matches s ic ml (RStar g r1) i i
| m_star g r1 i j l : matches s ic ml r1 i j -> matches s ic ml (RStar g r1) j l ->
    matches s ic ml (RStar g r1) i l.

(** [r] cannot match without consuming a character that is not
    whitespace: a sufficient syntactic condition, checked against every
    whitespace code point. *)
Fixpoint needs_nonws (ic : bool) (r : regex) : bool :=
  match r with
  | RChar p => forallb (fun w => negb (char_match ic p w)) ws_chars
  | RClass neg its => forallb (fun w => negb (class_match ic neg its w)) ws_chars
  | RSeq a b => needs_nonws ic a || needs_nonws ic b
  | RAlt a b => needs_nonws ic a && needs_nonws ic b
  | RGroup _ a => needs_nonws ic a
  | _ => false
  end.

(** A pattern string that compiles, and whose regex needs a non-whitespace
    character under [re.MULTILINE] (no global [re.IGNORECASE]). *)
Definition pat_ok (p : json) : bool :=
  match p with
  | JStr s => match parse s with
              | Ok r => needs_nonws (effective_ic MULTILINE r) r
              | Err _ => false
              end
  | _ => false
  end.

Definition table_ok (tbl : dict json) : bool :=
  forallb (fun kv => match snd kv with JArr ps => forallb pat_ok ps | _ => false end) tbl.

End ReSem.

(** ** Properties and inputs the statements below refer to *)

Module Props.

(** [d.get(k, 0)] on a table of counts. *)
Definition count_of (d : dict nat) (k : text) : nat :=
  match dget d k with Some n => n | None => O end.

(** [d'] is [d] with [x] appended to the list at [k] (created empty when
    absent), every other key untouched. *)
Definition appended {A} (d d' : dict (list A)) (k : text) (x : A) : Prop :=
  dget d' k = Some ((match dget d k with Some l => l | None => [] end) ++ [x])%list
  /\ forall k', k' <> k -> dget d' k' = dget d k'.

(** Position of the first occurrence of [x] in [l] ([List.length l] if absent). *)
Fixpoint first_index (x : text) (l : list text) : nat :=
  match l with
  | [] => O
  | y :: l' => if text_eqb x y then O else S (first_index x l')
  end.

(** The characters of the class [[A-Za-zÀ-ÿ\-]]. *)
Definition author_char (c : char) : bool :=
  ((65 <=? c) && (c <=? 90)) || ((97 <=? c) && (c <=? 122))
  || ((192 <=? c) && (c <=? 255)) || (c =? 45).

Definition terminal (c : char) : bool := (c =? 46) || (c =? 33) || (c =? 63).

(** No bibliography header is found and no in-text pattern matches: every
    score of [_detect_citation_style] stays zero. *)
Definition no_style_evidence (t : text) : bool :=
  forallb (fun kv => forallb (fun h => match Re.search h t Re.IGNORECASE_MULTILINE with
                                       | Ok None => true | _ => false end) (snd kv))
          Extractor.bibliography_headers
  && forallb (fun kv => forallb (fun p => match Re.findall p t Re.NOFLAGS with
                                          | Ok [] => true | _ => false end) (snd kv))
             Extractor.in_text_patterns.

(** The classes of [[.!?]] and [[A-Za-zÀ-ÿ\-]] as parsed. *)
Definition terminal_items : list Re.citem := [Re.CChar 46; Re.CChar 33; Re.CChar 63].
Definition author_items : list Re.citem :=
  [Re.CRange 65 90; Re.CRange 97 122; Re.CRange 192 255; Re.CChar 45].

(** The styles whose bibliography entries must start with a surname and a comma. *)
Definition author_styles : list text := map u ["APA"; "MLA"; "CHICAGO"; "HARVARD"]%string.

(** Strict order of Python strings. *)
Definition text_lt (a b : text) : Prop := text_ltb a b = true.

(** Every score of a count dictionary is zero. *)
Definition all_zero (d : dict nat) : Prop := Forall (fun kv => snd kv = O) d.

(** The pattern types [add_custom_pattern] knows. *)
Definition pattern_types : list text := [u "in_text"; u "bibliography"; u "headers"].

(** The tables of the two other categories are as before. *)
Definition others_unchanged_in_text {P} (cat cat' : Patterns.catalog_of P) : Prop :=
  Patterns.bibliography_patterns cat' = Patterns.bibliography_patterns cat /\
  Patterns.bibliography_headers cat' = Patterns.bibliography_headers cat /\
  Patterns.compiled_bibliography cat' = Patterns.compiled_bibliography cat /\
  Patterns.compiled_headers cat' = Patterns.compiled_headers cat.

End Props.

Module Examples.

(** A detector catalog with an in-text style named like the sentinel. *)
Definition sentinel_catalog : Detector.catalog :=
  {| Detector.in_text_patterns := [(Detector.NONE_STYLE, JArr [JStr (u "x")])];
     Detector.full_citation_patterns := [] |}.

(** A configuration whose in-text block is well formed and whose
    full-citation block is not a JSON object. *)
Definition bad_config : json :=
  JObj [(u "in_text_patterns", JObj [(u "APA", JArr [JStr (u "x")])]);
        (u "full_citation_patterns", JNum 5)].

(** An empty pattern catalog. *)
Definition empty_patterns : Patterns.catalog :=
  {| Patterns.in_text_patterns := []; Patterns.bibliography_patterns := [];
     Patterns.bibliography_headers := []; Patterns.compiled_in_text := [];
     Patterns.compiled_bibliography := []; Patterns.compiled_headers := [] |}.

(** A reference list holding the same entry twice. *)
Definition duplicate_entry_text : text :=
  (u "References" ++ [nl] ++ u "Smith, J. (2020). A title here. Publisher." ++ [nl] ++ [nl]
   ++ u "Smith, J. (2020). A title here. Publisher.")%list.

(** An IEEE reference list whose only entry does not start with a number. *)
Definition ieee_entry_text : text :=
  (u "References" ++ [nl] ++ u "Smith J, Title of the work, vol. 12. 2020.")%list.

(** A reference list whose entry starts with a lower-case surname. *)
Definition lower_case_entry_text : text :=
  (u "References" ++ [nl] ++ u "smith, j. (2020). A title here. Publisher.")%list.

End Examples.

(** ** Cross-checking citations against references (core/detector.py) *)

Module CrossRef.

Local Open Scope string_scope.

(** A [str] is truthy when it is not empty. *)
Definition nonempty (s : text) : bool := match s with [] => false | _ :: _ => true end.

(** [d.get(k, '')] on a dict of strings. *)
Definition get_str (d : dict text) (k : text) : text :=
  match dget d k with Some v => v | None => [] end.

(** [s.replace(old, new)] for a non-empty [old]: the occurrences of [old]
    found left to right without overlapping are replaced; [skip] counts the
    characters of an occurrence still to be dropped. *)
Fixpoint replace_go (old new : text) (skip : nat) (s : text) : text :=
  match s with
  | [] => []
  | c :: s' =>
      match skip with
      | S k => replace_go old new k s'
      | O => if prefixb old s then (new ++ replace_go old new (pred (List.length old)) s')%list
             else c :: replace_go old new O s'
      end
  end.

Definition replace (old new s : text) : text := replace_go old new O s.

Definition author_date_styles : list text := [u "APA"; u "HARVARD"; u "CHICAGO"].

(** [ref_author = ref.get('author', ''); if ref_author: ref_author = ref_author.split(',')[0].strip()] *)
Definition ref_surname (ref : dict text) : text :=
  let ref_author := get_str ref (u "author") in
  if nonempty ref_author then strip (Validator.before (u ",") ref_author) else ref_author.

(** [author.lower().replace('et al.', '').strip()] *)
Definition norm_cited (author : text) : text := strip (replace (u "et al.") [] (map lower author)).

(** The inner loop of [_find_citations_without_references]: [found]. *)
Fixpoint found_reference (style author year : text) (references : list (dict text)) : bool :=
  match references with
  | [] => false
  | ref :: refs =>
      if existsb (text_eqb style) author_date_styles then
        let ref_author := ref_surname ref in
        let ref_year := get_str ref (u "year") in
        if nonempty author && nonempty ref_author && nonempty year && nonempty ref_year then
          let author_norm := norm_cited author in
          let ref_author_norm := strip (map lower ref_author) in
          if containsb author_norm ref_author_norm || containsb ref_author_norm author_norm then
            if text_eqb year ref_year then true else found_reference style author year refs
          else found_reference style author year refs
        else found_reference style author year refs
      else if text_eqb style (u "MLA") then
        let ref_author := ref_surname ref in
        if nonempty author && nonempty ref_author then
          let author_norm := norm_cited author in
          let ref_author_norm := strip (map lower ref_author) in
          if containsb author_norm ref_author_norm || containsb ref_author_norm author_norm then true
          else found_reference style author year refs
        else found_reference style author year refs
      else found_reference style author year refs
  end.

(** [f"{author} ({year})" if year else author] *)
Definition citation_text (author year : text) : text :=
  if nonempty year then (author ++ u " (" ++ year ++ u ")")%list else author.

(** [_find_citations_without_references(citations, references, style)] *)
Fixpoint find_citations_without_references (citations : list (text * text))
    (references : list (dict text)) (style : text) : list text :=
  match citations with
  | [] => []
  | (author, year) :: cs =>
      let found := found_reference style author year references in
      if negb found && nonempty (strip author) then
        citation_text author year :: find_citations_without_references cs references style
      else find_citations_without_references cs references style
  end.

(** The inner loop of [_find_references_without_citations]: [cited]. *)
Fixpoint cited_in (style ref_author ref_year : text) (citations : list (text * text)) : bool :=
  match citations with
  | [] => false
  | (author, year) :: cs =>
      if existsb (text_eqb style) author_date_styles then
        if nonempty author && nonempty ref_author && nonempty year && nonempty ref_year then
          let author_norm := norm_cited author in
          let ref_author_norm := strip (map lower ref_author) in
          if containsb author_norm ref_author_norm || containsb ref_author_norm author_norm then
            if text_eqb year ref_year then true else cited_in style ref_author ref_year cs
          else cited_in style ref_author ref_year cs
        else cited_in style ref_author ref_year cs
      else if text_eqb style (u "MLA") then
        if nonempty author && nonempty ref_author then
          let author_norm := norm_cited author in
          let ref_author_norm := strip (map lower ref_author) in
          if containsb author_norm ref_author_norm || containsb ref_author_norm author_norm then true
          else cited_in style ref_author ref_year cs
        else cited_in style ref_author ref_year cs
      else cited_in style ref_author ref_year cs
  end.

(** [_find_references_without_citations(citations, references, style)] *)
Fixpoint find_references_without_citations (citations : list (text * text))
    (references : list (dict text)) (style : text) : list (dict text) :=
  match references with
  | [] => []
  | ref :: refs =>
      let ref_author := ref_surname ref in
      let ref_year := get_str ref (u "year") in
      let cited := cited_in style ref_author ref_year citations in
      if negb cited && nonempty (strip ref_author) then
        ref :: find_references_without_citations citations refs style
      else find_references_without_citations citations refs style
  end.

End CrossRef.

(** ** [CitationExtractor._is_matching_citation] (core/extractor.py) *)

Module Matching.
Import CrossRef.

Local Open Scope string_scope.

(** [_is_matching_citation(author, year, bib_author, bib_year, style)];
    [split()[0]] raises [IndexError] on a blank string. *)
Definition is_matching_citation (author year bib_author bib_year style : text) : res bool :=
  if negb (nonempty author) && negb (nonempty year) then Ok false else
  let author_simple := strip (replace (u "et al.") [] (map lower author)) in
  let bib_author_simple := strip (map lower bib_author) in
  let* bib_surname :=
    if containsb (u ",") bib_author_simple then Ok (strip (Validator.before (u ",") bib_author_simple))
    else if nonempty bib_author_simple then
      let* w := Validator.first_word bib_author_simple in Ok (strip w)
    else Ok [] in
  if text_eqb style (u "MLA") then
    Ok (containsb author_simple bib_author_simple || containsb bib_surname author_simple)
  else
    let author_match := containsb author_simple bib_author_simple || containsb bib_surname author_simple in
    let year_match := text_eqb year bib_year in
    Ok (author_match && year_match).

End Matching.

(** ** Key matching of the validator (core/validator.py) *)

Module KeyMatch.
Import Validator CrossRef.

Local Open Scope string_scope.

(** [_find_matching_reference(author, year, bib_keys, style)]; a
    bibliography key is [(author, year, title)]. *)
Definition find_matching_reference (author year : text) (bib_keys : list (text * text * text))
    (style : text) : res bool :=
  if negb (nonempty year) && text_eqb style (u "MLA") then
    (fix go ks := match ks with
     | [] => Ok false
     | (bib_author, _, _) :: ks' =>
         let* m := match_author_names author bib_author in if m then Ok true else go ks'
     end) bib_keys
  else
    (fix go ks := match ks with
     | [] => Ok false
     | (bib_author, bib_year, _) :: ks' =>
         let* m := match_author_names author bib_author in
         if m && text_eqb year bib_year then Ok true else go ks'
     end) bib_keys.

(** [_find_matching_citation(author, year, in_text_keys, style)] *)
Fixpoint find_matching_citation (author year : text) (in_text_keys : list (text * text))
    (style : text) : res bool :=
  match in_text_keys with
  | [] => Ok false
  | (citation_author, citation_year) :: ks =>
      if text_eqb style (u "MLA") then
        let* m := match_author_names author citation_author in
        if m then Ok true else find_matching_citation author year ks style
      else
        let* m := match_author_names author citation_author in
        if m && text_eqb year citation_year then Ok true else find_matching_citation author year ks style
  end.

End KeyMatch.

(** ** Document-level checks of the validator (core/validator.py) *)

Module Report.
Import CrossRef.

Local Open Scope string_scope.

(** An issue or recommendation dict: [{'rule_id', 'description',
    'recommendation', 'citation'}]; [citation] may be [None]. *)
Record issue := {
  rule_id : text;
  description : text;
  recommendation : text;
  citation : option text
}.

Definition mk (r d c : text) : issue :=
  {| rule_id := r; description := d; recommendation := c; citation := None |}.

(** [citations.get(k, [])] *)
Definition get_list (citations : dict (list text)) (k : text) : list text :=
  match dget citations k with Some l => l | None => [] end.

Definition nonempty_list {A} (l : list A) : bool := match l with [] => false | _ :: _ => true end.

Definition re_found (pat : string) (fl : Re.flags) (s : text) : res bool :=
  let* m := Re.search (u pat) s fl in Ok (is_some m).

Definition re_matched (pat : string) (s : text) : res bool :=
  let* m := Re.rmatch (u pat) s Re.NOFLAGS in Ok (is_some m).

(** [_check_overall_style_consistency(citations, style)] *)
Definition check_overall_style_consistency (citations : dict (list text)) (style : text)
  : res (list issue) :=
  let in_text := get_list citations (u "en_texto") in
  let* issues1 :=
    if nonempty_list in_text then
      let has_parenthetical := existsb (fun cit => containsb (u "(") cit && containsb (u ")") cit) in_text in
      let has_brackets := existsb (fun cit => containsb (u "[") cit && containsb (u "]") cit) in_text in
      let i1 := if has_parenthetical && has_brackets then
          [mk (u "mixed_citation_styles")
              (u "Se mezclan citas con paréntesis () y corchetes []")
              (u "En estilo " ++ style ++ u ", mantener consistencia en el uso de paréntesis o corchetes")%list]
        else [] in
      let* has_author_year := anyM (re_found "\([A-Za-z].*\d{4}" Re.NOFLAGS) in_text in
      let* has_numeric := anyM (re_found "[\[\(]\d+[\]\)]" Re.NOFLAGS) in_text in
      let i2 := if has_author_year && has_numeric then
          [mk (u "mixed_citation_systems")
              (u "Se mezclan sistemas de citación autor-fecha y numérico")
              (u "Elegir un solo sistema de citación para todo el documento")]
        else [] in
      Ok (i1 ++ i2)%list
    else Ok [] in
  let bib := get_list citations (u "bibliograficas") in
  let* issues2 :=
    if nonempty_list bib then
      let* has_last_first := anyM (re_matched "^[A-Za-z\-]+,\s[A-Za-z]") bib in
      let* has_first_last := anyM (re_matched "^[A-Z]\.\s[A-Za-z\-]+") bib in
      let i3 := if has_last_first && has_first_last then
          [mk (u "mixed_author_formats")
              (u "Se mezclan formatos de autor (Apellido, Nombre y Inicial. Apellido)")
              (u "En estilo " ++ style ++ u ", mantener consistencia en el formato de autores en la bibliografía")%list]
        else [] in
      let* has_numbered := anyM (re_matched "^\d+\.|\[\d+\]") bib in
      let* has_unnumbered := anyM (re_matched "^[A-Za-z]") bib in
      let i4 := if has_numbered && has_unnumbered then
          [mk (u "mixed_bibliography_numbering")
              (u "La bibliografía mezcla entradas numeradas y no numeradas")
              (u "En estilo " ++ style ++ u ", mantener consistencia en la numeración de entradas bibliográficas")%list]
        else [] in
      Ok (i3 ++ i4)%list
    else Ok [] in
  Ok (issues1 ++ issues2)%list.

(** The [all_issues] dict [validate_all_citations] passes in. *)
Record all_issues := {
  formato_incorrecto : list issue;
  inconsistencias_estilo : list issue;
  recomendaciones : list issue
}.

(** [_generate_recommendations(citations, style, issues)].  The [Counter] of
    rule ids the method builds is never read. *)
Definition generate_recommendations (citations : dict (list text)) (style : text) (issues : all_issues)
  : res (list issue) :=
  let r1 :=
    if nonempty_list (formato_incorrecto issues) || nonempty_list (inconsistencias_estilo issues) then
      (mk (u "consult_style_guide") (u "Revisar guía oficial de estilo " ++ style)
          (u "Consultar la guía oficial del estilo " ++ style ++ u " para asegurar consistencia")
       :: (if existsb (text_eqb style) [u "APA"; u "MLA"; u "CHICAGO"; u "HARVARD"] then
             [mk (u "use_citation_tool") (u "Considerar el uso de un gestor de referencias")
                 (u "Herramientas como Zotero, Mendeley o EndNote pueden ayudar a mantener consistencia en las citas")]
           else []))%list
    else [] in
  let* r2 :=
    if text_eqb style (u "APA") then
      let in_text := get_list citations (u "en_texto") in
      let bib := get_list citations (u "bibliograficas") in
      let has_multiple_authors := existsb (fun cit => containsb (u "&") cit || containsb (u "et al") cit) in_text in
      let has_doi := existsb (fun e => containsb (u "doi") (map lower e)) bib in
      Ok ((if has_multiple_authors then
             [mk (u "apa_et_al") (u "Regla APA para múltiples autores")
                 (u "Para tres o más autores, usar " ++ u dq ++ u "et al." ++ u dq ++ u " desde la primera cita (APA 7ª edición)")]
           else []) ++
          (if negb has_doi && nonempty_list bib then
             [mk (u "apa_doi") (u "Incluir DOI en entradas bibliográficas")
                 (u "APA 7ª edición recomienda incluir DOI para artículos académicos cuando estén disponibles")]
           else []))%list
    else if text_eqb style (u "MLA") then
      let in_text := get_list citations (u "en_texto") in
      let has_et_al := existsb (fun cit => containsb (u "et al") cit) in_text in
      let bib := get_list citations (u "bibliograficas") in
      let has_web := existsb (fun e => containsb (u "web") (map lower e) || containsb (u "www") (map lower e)
                                       || containsb (u "http") (map lower e)) bib in
      Ok ((if has_et_al then
             [mk (u "mla_et_al") (u "Regla MLA para múltiples autores")
                 (u "En MLA 9ª edición, usar " ++ u dq ++ u "et al." ++ u dq ++ u " para obras con tres o más autores")]
           else []) ++
          (if has_web then
             [mk (u "mla_web") (u "Formato MLA para recursos web")
                 (u "Para recursos web, incluir la URL y la fecha de acceso")]
           else []))%list
    else if text_eqb style (u "CHICAGO") then
      let in_text := get_list citations (u "en_texto") in
      let* has_footnotes := anyM (re_matched "^\d+\.") in_text in
      Ok (if has_footnotes then
            [mk (u "chicago_notes") (u "Sistema de notas Chicago")
                (u "En el sistema de notas Chicago, se puede usar forma abreviada para citas repetidas")]
          else
            [mk (u "chicago_author_date") (u "Sistema autor-fecha Chicago")
                (u "En el sistema autor-fecha Chicago, asegurar que cada cita tenga su entrada correspondiente en la bibliografía")])
    else Ok [] in
  let in_text_count := List.length (get_list citations (u "en_texto")) in
  let bib_count := List.length (get_list citations (u "bibliograficas")) in
  let r3 :=
    if Nat.ltb 0 in_text_count && Nat.eqb bib_count 0 then
      [mk (u "missing_bibliography_section") (u "No se detecta sección de bibliografía")
          (u "Añadir una sección de bibliografía con todas las obras citadas")]
    else [] in
  Ok (r1 ++ r2 ++ r3)%list.

End Report.

(** ** [CitationExtractor.identify_style_markers] (core/extractor.py) *)

Module Markers.

Local Open Scope string_scope.

Definition marker_styles : list text :=
  map u ["APA"; "MLA"; "CHICAGO"; "HARVARD"; "IEEE"; "VANCOUVER"; "CSE"].

Definition zero_counts : dict nat :=
  [(u "in_text", 0%nat); (u "bibliography", 0%nat); (u "headers", 0%nat); (u "specific", 0%nat)].

Definition init_markers : dict (dict nat) := map (fun st => (st, zero_counts)) marker_styles.

(** [markers[style][field] += n] *)
Definition bump (m : dict (dict nat)) (style field : text) (n : nat) : res (dict (dict nat)) :=
  match dget m style with
  | None => Err KeyError
  | Some d =>
      match dget d field with
      | None => Err KeyError
      | Some v => Ok (dset m style (dset d field (v + n)%nat))
      end
  end.

Fixpoint header_loop (style : text) (hs : list text) (t : text) (m : dict (dict nat))
  : res (dict (dict nat)) :=
  match hs with
  | [] => Ok m
  | h :: hs' =>
      let* o := Re.search h t Re.IGNORECASE_MULTILINE in
      let* m' := if is_some o then bump m style (u "headers") 1 else Ok m in
      header_loop style hs' t m'
  end.

Fixpoint header_markers (tbl : dict (list text)) (t : text) (m : dict (dict nat))
  : res (dict (dict nat)) :=
  match tbl with
  | [] => Ok m
  | (style, hs) :: tbl' =>
      let* m' := header_loop style hs t m in header_markers tbl' t m'
  end.

(** [if re.search(pat, text): markers[style]['specific'] += 1] *)
Definition if_found (pat : string) (style : text) (t : text) (m : dict (dict nat))
  : res (dict (dict nat)) :=
  let* o := Re.search (u pat) t Re.NOFLAGS in
  if is_some o then bump m style (u "specific") 1 else Ok m.

(** [n = len(re.findall(pat, text, fl)); if n > 0: markers[style]['specific'] += min(n, cap)] *)
Definition capped (pat : string) (fl : Re.flags) (cap : nat) (style : text) (t : text)
    (m : dict (dict nat)) : res (dict (dict nat)) :=
  let* ms := Re.findall (u pat) t fl in
  let n := List.length ms in
  if Nat.ltb 0 n then bump m style (u "specific") (Nat.min n cap) else Ok m.

(** [identify_style_markers(text)] *)
Definition identify_style_markers (t : text) : res (dict (dict nat)) :=
  let* m := header_markers Extractor.bibliography_headers t init_markers in
  let* m := if_found "\([A-Za-zÀ-ÿ\-]+ & [A-Za-zÀ-ÿ\-]+," (u "APA") t m in
  let* m := if_found "\d{4}, p\. \d+" (u "APA") t m in
  let* m := if_found "\([A-Za-zÀ-ÿ\-]+ and [A-Za-zÀ-ÿ\-]+ \d+" (u "MLA") t m in
  let* m := if_found "\([A-Za-zÀ-ÿ\-]+ \d+\)" (u "MLA") t m in
  let* m := capped "^\d+\.\s" Re.MULTILINE 5 (u "CHICAGO") t m in
  let* m := capped "Ibid\.|Op\. cit\.|Loc\. cit\." Re.NOFLAGS 3 (u "CHICAGO") t m in
  let* m := if_found "\d{4}: \d+" (u "HARVARD") t m in
  let* m := capped "\[\d+\]" Re.NOFLAGS 5 (u "IEEE") t m in
  let* m := if_found "\(\d+\)" (u "VANCOUVER") t m in
  let* m := if_found "[A-Za-zÀ-ÿ\-]+ [A-Z]{1,2}\. \d{4}\." (u "CSE") t m in
  Ok m.

End Markers.

(** ** [CitationPatterns.get_pattern] (core/patterns.py) *)

Module Getter.
Import Patterns.

Local Open Scope string_scope.

(** The [Union[Pattern, List[Pattern]]] it returns. *)
Inductive got := One (r : Re.regex) | Many (l : list Re.regex).

Definition get_or_nil (d : dict (list Re.regex)) (style : text) : list Re.regex :=
  match dget d style with Some l => l | None => [] end.

(** [get_pattern(style, pattern_type, index)]; [index=None] is [None]. *)
Definition get_pattern (cat : catalog) (style ptype : text) (index : option Z) : got :=
  let patterns :=
    if text_eqb ptype (u "in_text") then Some (get_or_nil (compiled_in_text cat) style)
    else if text_eqb ptype (u "bibliography") then Some (get_or_nil (compiled_bibliography cat) style)
    else if text_eqb ptype (u "headers") then Some (get_or_nil (compiled_headers cat) style)
    else None in
  match patterns with
  | None => Many []
  | Some ps =>
      match index with
      | Some i =>
          if (0 <=? i)%Z && (i <? Z.of_nat (List.length ps))%Z then
            match nth_error ps (Z.to_nat i) with Some p => One p | None => Many ps end
          else Many ps
      | None => Many ps
      end
  end.

End Getter.

Module XProps.
Import CrossRef.
Local Open Scope string_scope.

(** The author comparison both loops of the detector apply. *)
Definition names_match (author ref_author : text) : bool :=
  containsb (norm_cited author) (strip (map lower ref_author))
  || containsb (strip (map lower ref_author)) (norm_cited author).

(** Citation [(author, year)] and reference [ref] correspond under [style]. *)
Definition xmatch (style author year : text) (ref : dict text) : bool :=
  let ref_author := ref_surname ref in
  let ref_year := get_str ref (u "year") in
  if existsb (text_eqb style) author_date_styles then
    nonempty author && nonempty ref_author && nonempty year && nonempty ref_year
    && names_match author ref_author && text_eqb year ref_year
  else if text_eqb style (u "MLA") then
    nonempty author && nonempty ref_author && names_match author ref_author
  else false.

Definition compared_styles : list text := map u ["APA"; "HARVARD"; "CHICAGO"; "MLA"].

(** A blank string: nothing but whitespace. *)
Definition blank (s : text) : bool := forallb is_ws s.

(** The four counters of a style in [identify_style_markers]. *)
Definition marker_fields : list text := map u ["in_text"; "bibliography"; "headers"; "specific"].

(** How many header patterns the extractor has for [st]. *)
Definition header_count (st : text) : nat :=
  List.length (match dget Extractor.bibliography_headers st with Some l => l | None => [] end).

(** The most the specific markers of [identify_style_markers] add per style:
    one per [re.search] marker, and the cap of each [min(count, cap)]. *)
Definition specific_caps : dict nat :=
  [(u "APA", 2%nat); (u "MLA", 2%nat); (u "CHICAGO", 8%nat); (u "HARVARD", 1%nat);
   (u "IEEE", 5%nat); (u "VANCOUVER", 1%nat); (u "CSE", 1%nat)].

Definition specific_cap (st : text) : nat :=
  match dget specific_caps st with Some n => n | None => 0%nat end.

(** A markers dict with the seven styles, each with its four counters, the
    in-text and bibliography counters at zero, and the header and specific
    counters bounded by [hb] and [sb]. *)
Definition markers_shape (hb sb : text -> nat) (m : dict (dict nat)) : Prop :=
  map fst m = Markers.marker_styles /\
  forall st d, dget m st = Some d ->
    map fst d = marker_fields /\ dget d (u "in_text") = Some 0%nat /\
    dget d (u "bibliography") = Some 0%nat /\
    exists h s, dget d (u "headers") = Some h /\ dget d (u "specific") = Some s /\
      (h <= hb st)%nat /\ (s <= sb st)%nat.

(** [_find_matching_reference] and [_find_matching_citation] test authors
    with [_match_author_names], which never raises: its boolean. *)
Definition mab (a b : text) : bool :=
  match Validator.match_author_names a b with Ok m => m | Err _ => false end.

End XProps.


(** * Proofs *)

(** ** Facts about the matcher *)

Module ReFacts.
Import Re ReSem.

(** Whatever [mt] returns comes from a match of [r] followed by the
    continuation. *)
Lemma mt_sound s ic ml r :
  forall i cp k x, mt s ic ml r i cp k = Some x ->
  exists j cp', matches s ic ml r i j /\ k j cp' = Some x.
Proof.
  induction r; intros i cp k x H; cbn [mt] in H.
  - eauto using matches.
  - eauto using matches.
  - destruct (at_ s i) eqn:E; [|discriminate].
    destruct (char_match ic c c0) eqn:C; [|discriminate]. eauto using matches.
  - destruct (at_ s i) eqn:E; [|discriminate].
    destruct (class_match ic _ _ c) eqn:C; [|discriminate]. eauto using matches.
  - destruct (at_ s i) eqn:E; [|discriminate].
    destruct (c =? nl)%N eqn:C; [discriminate|]. eauto using matches.
  - destruct (bol s ml i) eqn:E; [|discriminate]. eauto using matches.
  - destruct (eol s ml i) eqn:E; [|discriminate]. eauto using matches.
  - destruct (IHr1 _ _ _ _ H) as (j & cp' & M1 & H1).
    destruct (IHr2 _ _ _ _ H1) as (l & cp'' & M2 & H2). eauto using matches.
  - destruct (mt s ic ml r1 i cp k) eqn:E.
    + inversion H; subst. destruct (IHr1 _ _ _ _ E) as (j & cp' & M & K). eauto using matches.
    + destruct (IHr2 _ _ _ _ H) as (j & cp' & M & K). eauto using matches.
  - remember (S (List.length s - i)) as n eqn:Hn; clear Hn; revert i cp H.
    induction n as [|n IHn]; intros i cp H; simpl in H; [discriminate|].
    destruct greedy.
    + destruct (mt s ic ml r i cp _) eqn:E.
      * inversion H; subst.
        destruct (IHr _ _ _ _ E) as (j & cp' & M & K).
        destruct (Nat.eqb j i); [discriminate|].
        destruct (IHn _ _ K) as (l & cp'' & M2 & K2). eauto using matches.
      * eauto using matches.
    + destruct (k i cp) eqn:E.
      * inversion H; subst. eauto using matches.
      * destruct (IHr _ _ _ _ H) as (j & cp' & M & K).
        destruct (Nat.eqb j i); [discriminate|].
        destruct (IHn _ _ K) as (l & cp'' & M2 & K2). eauto using matches.
  - destruct (IHr _ _ _ _ H) as (j & cp' & M & K). eauto using matches.
Qed.

Lemma ws_excluded (f : char -> bool) c :
  forallb (fun w => negb (f w)) ws_chars = true -> f c = true -> is_ws c = false.
Proof.
  intros N F. destruct (is_ws c) eqn:W; [|reflexivity].
  unfold is_ws in W. apply existsb_exists in W as (w & Iw & Ew).
  apply N.eqb_eq in Ew; subst w.
  rewrite forallb_forall in N. specialize (N c Iw). rewrite F in N. discriminate.
Qed.

Lemma matches_le s ic ml r i j : matches s ic ml r i j -> (i <= j)%nat.
Proof. induction 1; lia. Qed.

Lemma matches_nonws s ic ml r i j :
  matches s ic ml r i j -> needs_nonws ic r = true ->
  exists p c, (i <= p < j)%nat /\ at_ s p = Some c /\ is_ws c = false.
Proof.
  induction 1; cbn [needs_nonws]; intros N; try discriminate.
  - exists i, c. split; [lia|]. split; [assumption|]. eapply ws_excluded; eauto.
  - exists i, c. split; [lia|]. split; [assumption|].
    eapply (ws_excluded (class_match ic neg its)); eauto.
  - apply matches_le in H. apply matches_le in H0.
    apply orb_true_iff in N as [N|N].
    + destruct (IHmatches1 N) as (p & c & ? & ? & ?). exists p, c. split; [lia|auto].
    + destruct (IHmatches2 N) as (p & c & ? & ? & ?). exists p, c. split; [lia|auto].
  - apply andb_true_iff in N as [N _]. auto.
  - apply andb_true_iff in N as [_ N]. auto.
  - auto.
Qed.

Lemma match_at_ws s ic ml r i :
  forallb is_ws s = true -> needs_nonws ic r = true -> match_at s ic ml r i = None.
Proof.
  intros W N. unfold match_at.
  destruct (mt s ic ml r i [] _) as [x|] eqn:E; [|reflexivity].
  destruct (mt_sound _ _ _ _ _ _ _ _ E) as (j & cp & M & _).
  destruct (matches_nonws _ _ _ _ _ _ M N) as (p & c & _ & A & Wc).
  unfold at_ in A. apply nth_error_In in A.
  rewrite forallb_forall in W. rewrite (W c A) in Wc. discriminate.
Qed.

Lemma search_go_ws fl r s n p :
  forallb is_ws s = true -> needs_nonws (effective_ic fl r) r = true -> search_go fl r s n p = None.
Proof.
  intros W N. revert p. induction n as [|n IH]; intros p; [reflexivity|].
  cbn [search_go]. destruct (Nat.ltb (List.length s) p); [reflexivity|].
  rewrite match_at_ws by assumption. apply IH.
Qed.

Lemma scan_ws fl r s :
  forallb is_ws s = true -> needs_nonws (effective_ic fl r) r = true -> scan fl r s = [].
Proof.
  intros W N. unfold scan, scan_go, search_from. rewrite search_go_ws by assumption. reflexivity.
Qed.

End ReFacts.

(** ** Texts and dictionaries *)

Module DictFacts.

Lemma text_eqb_refl a : text_eqb a a = true.
Proof. induction a; simpl; [reflexivity|]. rewrite N.eqb_refl. assumption. Qed.

Lemma text_eqb_eq a b : text_eqb a b = true -> a = b.
Proof.
  revert b; induction a as [|x a IH]; intros [|y b]; simpl; try discriminate; [reflexivity|].
  intros H. apply andb_true_iff in H as [H1 H2]. apply N.eqb_eq in H1. f_equal; auto.
Qed.

Lemma text_eqb_neq a b : a <> b -> text_eqb a b = false.
Proof.
  intros H. destruct (text_eqb a b) eqn:E; [|reflexivity]. apply text_eqb_eq in E. contradiction.
Qed.

Lemma in_keys_dget {V} (d : dict V) k : In k (map fst d) -> dget d k <> None.
Proof.
  induction d as [|[k' v] d IH]; simpl; [tauto|].
  intros [H|H].
  - subst. rewrite text_eqb_refl. discriminate.
  - destruct (text_eqb k k'); [discriminate|auto].
Qed.

Lemma in_pair_key {V} (d : dict V) k v : In (k, v) d -> In k (map fst d).
Proof. intros H. exact (in_map fst d (k, v) H). Qed.

Lemma dset_keys {V} (d : dict V) k v x :
  In x (map fst (dset d k v)) -> x = k \/ In x (map fst d).
Proof.
  induction d as [|[k' v'] d IH]; simpl.
  - intuition.
  - destruct (text_eqb k k'); simpl; intuition.
Qed.

Lemma dget_dset_same {V} (d : dict V) k v : dget (dset d k v) k = Some v.
Proof.
  induction d as [|[k' v'] d IH]; simpl.
  - rewrite text_eqb_refl. reflexivity.
  - destruct (text_eqb k k') eqn:E; simpl; rewrite E; [reflexivity|exact IH].
Qed.

Lemma dget_dset_other {V} (d : dict V) k v k' : k' <> k -> dget (dset d k v) k' = dget d k'.
Proof.
  intros Hne. induction d as [|[k0 v0] d IH]; simpl.
  - rewrite (text_eqb_neq _ _ Hne). reflexivity.
  - destruct (text_eqb k k0) eqn:E; simpl.
    + apply text_eqb_eq in E. subst k0. rewrite (text_eqb_neq _ _ Hne). reflexivity.
    + destruct (text_eqb k' k0); [reflexivity|exact IH].
Qed.

End DictFacts.

(** ** The style detector *)

Module DetectorFacts.
Import Detector DictFacts Re ReSem ReFacts Props.
Local Open Scope nat_scope.

Lemma dset_sum_some d k v m :
  dget d k = Some m -> (sum_values (dset d k v) + m = sum_values d + v)%nat.
Proof.
  induction d as [|[k' v'] d IH]; simpl; [discriminate|].
  destruct (text_eqb k k'); intros H.
  - inversion H; subst. unfold sum_values; simpl. lia.
  - specialize (IH H). unfold sum_values in *; simpl. lia.
Qed.

Lemma dset_sum_none d k v :
  dget d k = None -> sum_values (dset d k v) = (sum_values d + v)%nat.
Proof.
  induction d as [|[k' v'] d IH]; simpl; intros H.
  - unfold sum_values; simpl. lia.
  - destruct (text_eqb k k'); [discriminate|].
    specialize (IH H). unfold sum_values in *; simpl. lia.
Qed.

Lemma add_to_sum d k n : sum_values (add_to d k n) = (sum_values d + n)%nat.
Proof.
  unfold add_to. destruct (dget d k) eqn:E.
  - pose proof (dset_sum_some d k (n0 + n) n0 E). lia.
  - apply dset_sum_none. assumption.
Qed.

Lemma add_to_keys d k n x : In x (map fst (add_to d k n)) -> x = k \/ In x (map fst d).
Proof. unfold add_to. destruct (dget d k); apply dset_keys. Qed.

Lemma combine_in_text_sum acc it :
  sum_values (combine_in_text acc it) = (sum_values acc + sum_values it)%nat.
Proof.
  unfold combine_in_text. revert acc.
  induction it as [|[k n] it IH]; intros acc; simpl.
  - unfold sum_values; simpl. lia.
  - rewrite IH. destruct (is_chicago_sub k); rewrite add_to_sum; unfold sum_values; simpl; lia.
Qed.

Lemma combine_full_sum acc fu :
  sum_values (combine_full acc fu) = (sum_values acc + sum_values fu)%nat.
Proof.
  unfold combine_full. revert acc.
  induction fu as [|[k n] fu IH]; intros acc; simpl.
  - unfold sum_values; simpl. lia.
  - rewrite IH, add_to_sum. unfold sum_values; simpl. lia.
Qed.

Lemma combine_sum it fu : sum_values (combine it fu) = (sum_values it + sum_values fu)%nat.
Proof. unfold combine. rewrite combine_full_sum, combine_in_text_sum. reflexivity. Qed.

Lemma combine_in_text_keys acc it x :
  In x (map fst (combine_in_text acc it)) ->
  In x (map fst acc) \/ x = CHICAGO \/ In x (map fst it).
Proof.
  unfold combine_in_text. revert acc.
  induction it as [|[k n] it IH]; intros acc; simpl; [tauto|].
  intros H. destruct (IH _ H) as [H1|H1]; [|tauto].
  destruct (is_chicago_sub k); apply add_to_keys in H1; intuition.
Qed.

Lemma combine_full_keys acc fu x :
  In x (map fst (combine_full acc fu)) -> In x (map fst acc) \/ In x (map fst fu).
Proof.
  unfold combine_full. revert acc.
  induction fu as [|[k n] fu IH]; intros acc; simpl; [tauto|].
  intros H. destruct (IH _ H) as [H1|H1]; [|tauto].
  apply add_to_keys in H1; intuition.
Qed.

Lemma combine_keys it fu x :
  In x (map fst (combine it fu)) -> x = CHICAGO \/ In x (map fst it) \/ In x (map fst fu).
Proof.
  unfold combine. intros H. apply combine_full_keys in H as [H|H]; [|tauto].
  apply combine_in_text_keys in H; simpl in H; tauto.
Qed.

Lemma max_from_spec best d :
  In (max_from best d) (best :: d) /\ (snd best <= snd (max_from best d))%nat /\
  Forall (fun kv => snd kv <= snd (max_from best d))%nat d.
Proof.
  revert best. induction d as [|kv d IH]; intros best; simpl.
  - auto.
  - destruct (Nat.ltb (snd best) (snd kv)) eqn:L.
    + apply Nat.ltb_lt in L. destruct (IH kv) as (I & G & F).
      split; [simpl in I; tauto|]. split; [lia|]. constructor; auto.
    + apply Nat.ltb_ge in L. destruct (IH best) as (I & G & F).
      split; [simpl in I; tauto|]. split; [lia|]. constructor; [|auto]. lia.
Qed.

Lemma py_max_spec d st n :
  py_max d = Some (st, n) ->
  In (st, n) d /\ Forall (fun kv => snd kv <= n)%nat d.
Proof.
  destruct d as [|kv d]; simpl; [discriminate|]. intros H.
  injection H as H. destruct (max_from_spec kv d) as (I & G & F). rewrite H in *. simpl in *.
  split; [assumption|]. constructor; assumption.
Qed.

Lemma in_value_le_sum d k n : In (k, n) d -> (n <= sum_values d)%nat.
Proof.
  induction d as [|[k' n'] d IH]; simpl; [tauto|].
  unfold sum_values in *; simpl. intros [H|H]; [inversion H; lia|]. specialize (IH H). lia.
Qed.

Lemma pos_sum_max d n :
  Forall (fun kv => snd kv <= n)%nat d -> (0 < sum_values d)%nat -> (0 < n)%nat.
Proof.
  induction d as [|[k' n'] d IH]; unfold sum_values; simpl; [lia|].
  intros F P. inversion F; subst. simpl in *.
  destruct n'; [apply IH; auto|lia].
Qed.

Lemma count_table_keys tbl t d : count_table tbl t = Ok d -> map fst d = map fst tbl.
Proof.
  unfold count_table. revert d. induction tbl as [|[k v] tbl IH]; intros d; simpl.
  - intros H; inversion H; reflexivity.
  - destruct (count_style v t); simpl; [|discriminate].
    destruct (mapM _ tbl) eqn:E; simpl; [|discriminate].
    intros H; inversion H; subst. simpl. f_equal. apply IH. reflexivity.
Qed.

Lemma Qmake_bounds n total :
  (1 <= n <= total)%nat ->
  (0 <= Qmake (Z.of_nat n) (Pos.of_nat total) <= 1)%Q /\ ~ (Qmake (Z.of_nat n) (Pos.of_nat total) == 0)%Q.
Proof.
  intros B. assert (P : Z.pos (Pos.of_nat total) = Z.of_nat total).
  { destruct total as [|m]; [lia|]. rewrite <- Pos.of_nat_succ. reflexivity. }
  unfold Qle, Qeq; simpl. rewrite P. lia.
Qed.

Lemma chicago_not_sentinel : CHICAGO <> NONE_STYLE.
Proof. intros E. vm_compute in E. discriminate. Qed.

Lemma confidence_none : (0 <= 0 <= 1)%Q /\ (0 == 0 <-> NONE_STYLE = NONE_STYLE)%Q.
Proof. split; [split; discriminate|]. split; [reflexivity|]. intros _; reflexivity. Qed.

Lemma sentinel_not_combined it fu n :
  ~ In NONE_STYLE (map fst it) -> ~ In NONE_STYLE (map fst fu) ->
  In (NONE_STYLE, n) (combine it fu) -> False.
Proof.
  intros N1 N2 I.
  pose proof (combine_keys _ _ _ (in_pair_key _ _ _ I)) as I2. destruct I2 as [I2|[I2|I2]].
  - exact (chicago_not_sentinel (eq_sym I2)).
  - exact (N1 I2).
  - exact (N2 I2).
Qed.

Lemma confidence_max it fu st n :
  ~ In NONE_STYLE (map fst it) -> ~ In NONE_STYLE (map fst fu) ->
  sum_values it + sum_values fu <> 0 ->
  py_max (combine it fu) = Some (st, n) ->
  (0 <= Qmake (Z.of_nat n) (Pos.of_nat (sum_values it + sum_values fu)) <= 1)%Q /\
  (Qmake (Z.of_nat n) (Pos.of_nat (sum_values it + sum_values fu)) == 0 <-> st = NONE_STYLE)%Q.
Proof.
  intros N1 N2 Z M.
  destruct (py_max_spec _ _ _ M) as [I F].
  assert (n <= sum_values it + sum_values fu).
  { rewrite <- combine_sum. eapply in_value_le_sum; eauto. }
  assert (0 < n).
  { eapply pos_sum_max; eauto. rewrite combine_sum. lia. }
  destruct (Qmake_bounds n (sum_values it + sum_values fu)) as [B NZ]; [lia|].
  split; [exact B|]. split; [intros Q; exfalso; exact (NZ Q)|].
  intros E. subst st. exfalso. exact (sentinel_not_combined _ _ _ N1 N2 I).
Qed.

Lemma count_matches_ok ps t :
  forallb pat_ok ps = true ->
  exists n, count_matches ps t = Ok n /\ (forallb is_ws t = true -> n = O).
Proof.
  induction ps as [|p ps IH]; intros H.
  - exists O. split; reflexivity.
  - simpl in H. apply andb_true_iff in H as [P H].
    destruct (IH H) as (n & E & Z).
    destruct p as [| | |pat| |]; try discriminate. unfold pat_ok in P.
    destruct (parse pat) as [r|e] eqn:Pr; [|discriminate].
    exists (List.length (scan MULTILINE r t) + n)%nat.
    split.
    + simpl. unfold findall, finditer, compile. rewrite Pr. simpl. rewrite E. reflexivity.
    + intros W. rewrite scan_ws by assumption. rewrite Z by assumption. reflexivity.
Qed.

Lemma count_table_ok tbl t :
  table_ok tbl = true ->
  exists d, count_table tbl t = Ok d /\ map fst d = map fst tbl /\
            (forallb is_ws t = true -> sum_values d = O).
Proof.
  induction tbl as [|[k v] tbl IH]; intros H.
  - exists []. repeat split.
  - unfold table_ok in H. simpl in H. apply andb_true_iff in H as [P H].
    destruct (IH H) as (d & E & K & Z).
    destruct v; try discriminate.
    destruct (count_matches_ok l t P) as (n & En & Zn).
    exists ((k, n) :: d). split; [|split].
    + unfold count_table, count_style in *. cbn [mapM py_iter bind snd fst].
      rewrite En. cbn [bind]. rewrite E. reflexivity.
    + simpl. rewrite K. reflexivity.
    + intros W. unfold sum_values in *. simpl. rewrite Zn, Z by assumption. reflexivity.
Qed.

Lemma default_tables_ok :
  table_ok default_in_text_patterns = true /\ table_ok default_full_citation_patterns = true.
Proof. split; vm_compute; reflexivity. Qed.


(** C1 (amended): for a catalog with no style named like the sentinel
    ["No se detectaron citas"], as the default one, the confidence [c]
    returned by [identify_primary_style] satisfies [0 <= c <= 1], and
    [c = 0] exactly when the returned style is the sentinel. *)
Theorem identify_primary_style_confidence (cat : catalog) (t : text) st c :
  dget (in_text_patterns cat) NONE_STYLE = None ->
  dget (full_citation_patterns cat) NONE_STYLE = None ->
  identify_primary_style cat t = Ok (st, c) ->
  (0 <= c <= 1)%Q /\ (c == 0 <-> st = NONE_STYLE)%Q.
Proof.
  intros N1 N2. unfold identify_primary_style, detect_citation_styles.
  destruct (count_table (in_text_patterns cat) t) as [it|] eqn:E1; [|discriminate]. cbn [bind].
  destruct (count_table (full_citation_patterns cat) t) as [fu|] eqn:E2; [|discriminate]. cbn [bind].
  assert (K1 : ~ In NONE_STYLE (map fst it)).
  { rewrite (count_table_keys _ _ _ E1). intros I. exact (in_keys_dget _ _ I N1). }
  assert (K2 : ~ In NONE_STYLE (map fst fu)).
  { rewrite (count_table_keys _ _ _ E2). intros I. exact (in_keys_dget _ _ I N2). }
  destruct (Nat.eqb (sum_values it + sum_values fu) 0) eqn:Z.
  - intros H; injection H as <- <-. exact confidence_none.
  - apply Nat.eqb_neq in Z.
    destruct (py_max (combine it fu)) as [[st' n]|] eqn:M.
    + intros H; injection H as <- <-. exact (confidence_max _ _ _ _ K1 K2 Z M).
    + intros H; injection H as <- <-. exact confidence_none.
Qed.

Lemma identify_primary_style_confidence_witness :
  dget (in_text_patterns default_catalog) NONE_STYLE = None /\
  dget (full_citation_patterns default_catalog) NONE_STYLE = None /\
  identify_primary_style default_catalog (u "(Smith 25)") = Ok (u "MLA", 1%Q) /\
  (0 <= 1 <= 1)%Q /\ (1 == 0 <-> u "MLA" = NONE_STYLE)%Q.
Proof.
  assert (A : dget (in_text_patterns default_catalog) NONE_STYLE = None) by (vm_compute; reflexivity).
  assert (B : dget (full_citation_patterns default_catalog) NONE_STYLE = None) by (vm_compute; reflexivity).
  assert (C : identify_primary_style default_catalog (u "(Smith 25)") = Ok (u "MLA", 1%Q)) by (vm_compute; reflexivity).
  split; [exact A|]. split; [exact B|]. split; [exact C|].
  exact (identify_primary_style_confidence default_catalog (u "(Smith 25)") _ _ A B C).
Defined.

(** C1 counterexample: with an in-text style named like the sentinel, the
    sentinel comes back with confidence [1]. *)
Lemma identify_primary_style_sentinel_cex :
  identify_primary_style Examples.sentinel_catalog (u "x") = Ok (NONE_STYLE, 1%Q)
  /\ ~ (1 == 0)%Q.
Proof. split; [vm_compute; reflexivity|]. discriminate. Qed.

(** C2: on the default catalog [identify_primary_style] never raises;
    for an empty or whitespace-only text it returns the sentinel with
    confidence [0], and [extract_citations] then returns two empty lists. *)
Theorem identify_primary_style_total_blank (t : text) :
  (exists r, identify_primary_style default_catalog t = Ok r) /\
  (forallb is_ws t = true ->
   identify_primary_style default_catalog t = Ok (NONE_STYLE, 0%Q) /\
   extract_citations default_catalog t = Ok ([], [])).
Proof.
  destruct default_tables_ok as [A B].
  destruct (count_table_ok _ t A) as (d1 & E1 & _ & Z1).
  destruct (count_table_ok _ t B) as (d2 & E2 & _ & Z2).
  assert (D : detect_citation_styles default_catalog t = Ok (d1, d2)).
  { unfold detect_citation_styles, default_catalog. cbn [in_text_patterns full_citation_patterns].
    rewrite E1. cbn [bind]. rewrite E2. reflexivity. }
  split.
  - unfold identify_primary_style. rewrite D. simpl.
    destruct (Nat.eqb _ _); [eauto|]. destruct (py_max _) as [[]|]; eauto.
  - intros W.
    assert (I : identify_primary_style default_catalog t = Ok (NONE_STYLE, 0%Q)).
    { unfold identify_primary_style. rewrite D. simpl. rewrite Z1, Z2 by assumption. reflexivity. }
    split; [exact I|].
    unfold extract_citations. rewrite I. simpl. reflexivity.
Qed.

Lemma identify_primary_style_total_blank_witness :
  forallb is_ws [32%N; 10%N; 9%N] = true /\
  identify_primary_style default_catalog [32%N; 10%N; 9%N] = Ok (NONE_STYLE, 0%Q) /\
  extract_citations default_catalog [32%N; 10%N; 9%N] = Ok ([], []).
Proof.
  assert (W : forallb is_ws [32%N; 10%N; 9%N] = true) by (vm_compute; reflexivity).
  split; [exact W|].
  exact (proj2 (identify_primary_style_total_blank [32%N; 10%N; 9%N]) W).
Defined.

(** *** Chicago fusion *)

Lemma combine_in_text_keys_sub acc it x :
  In x (map fst (combine_in_text acc it)) ->
  In x (map fst acc) \/ x = CHICAGO \/ (In x (map fst it) /\ is_chicago_sub x = false).
Proof.
  unfold combine_in_text. revert acc.
  induction it as [|[k n] it IH]; intros acc; simpl; [tauto|].
  intros H. destruct (IH _ H) as [H1|H1]; [|tauto].
  destruct (is_chicago_sub k) eqn:C; apply add_to_keys in H1; simpl in H1.
  - tauto.
  - destruct H1 as [->|H1]; tauto.
Qed.

Lemma combine_keys_sub it fu x :
  In x (map fst (combine it fu)) ->
  x = CHICAGO \/ (In x (map fst it) /\ is_chicago_sub x = false) \/ In x (map fst fu).
Proof.
  unfold combine. intros H. apply combine_full_keys in H as [H|H]; [|tauto].
  apply combine_in_text_keys_sub in H; simpl in H; tauto.
Qed.

Lemma cad_sub : is_chicago_sub CHICAGO_AUTHOR_DATE = true.
Proof. vm_compute. reflexivity. Qed.

Lemma cn_sub : is_chicago_sub CHICAGO_NOTES = true.
Proof. vm_compute. reflexivity. Qed.

Lemma chicago_not_sub : is_chicago_sub CHICAGO = false.
Proof. vm_compute. reflexivity. Qed.

Lemma sentinel_not_sub : is_chicago_sub NONE_STYLE = false.
Proof. vm_compute. reflexivity. Qed.

(** A key of the combined table is never a Chicago sub-style, as long as
    the full-citation table has none. *)
Lemma combined_key_not_sub it fu x :
  dget fu CHICAGO_AUTHOR_DATE = None -> dget fu CHICAGO_NOTES = None ->
  In x (map fst (combine it fu)) -> is_chicago_sub x = false.
Proof.
  intros N1 N2 I.
  destruct (combine_keys_sub _ _ _ I) as [->|[[_ S]|I2]]; [exact chicago_not_sub|exact S|].
  destruct (is_chicago_sub x) eqn:S; [|reflexivity]. exfalso.
  unfold is_chicago_sub in S. apply orb_true_iff in S as [S|S]; apply text_eqb_eq in S; subst x.
  - exact (in_keys_dget _ _ I2 N1).
  - exact (in_keys_dget _ _ I2 N2).
Qed.

Lemma dget_some_in {V} (d : dict V) k v : dget d k = Some v -> In k (map fst d).
Proof.
  induction d as [|[k' v'] d IH]; cbn [dget]; [discriminate|].
  destruct (text_eqb k k') eqn:E; intros H.
  - apply text_eqb_eq in E. subst. left. reflexivity.
  - right. exact (IH H).
Qed.

Lemma identify_primary_style_not_sub cat t st c :
  dget (full_citation_patterns cat) CHICAGO_AUTHOR_DATE = None ->
  dget (full_citation_patterns cat) CHICAGO_NOTES = None ->
  identify_primary_style cat t = Ok (st, c) -> is_chicago_sub st = false.
Proof.
  intros N1 N2. unfold identify_primary_style, detect_citation_styles.
  destruct (count_table (in_text_patterns cat) t) as [it|] eqn:E1; [|discriminate]. cbn [bind].
  destruct (count_table (full_citation_patterns cat) t) as [fu|] eqn:E2; [|discriminate]. cbn [bind].
  assert (F1 : dget fu CHICAGO_AUTHOR_DATE = None).
  { destruct (dget fu CHICAGO_AUTHOR_DATE) eqn:G; [|reflexivity]. exfalso.
    pose proof (dget_some_in _ _ _ G) as I.
    rewrite (count_table_keys _ _ _ E2) in I. exact (in_keys_dget _ _ I N1). }
  assert (F2 : dget fu CHICAGO_NOTES = None).
  { destruct (dget fu CHICAGO_NOTES) eqn:G; [|reflexivity]. exfalso.
    pose proof (dget_some_in _ _ _ G) as I.
    rewrite (count_table_keys _ _ _ E2) in I. exact (in_keys_dget _ _ I N2). }
  destruct (Nat.eqb (sum_values it + sum_values fu) 0).
  - intros H; injection H as <- _. exact sentinel_not_sub.
  - destruct (py_max (combine it fu)) as [[st' n]|] eqn:M.
    + intros H; injection H as <- _.
      destruct (py_max_spec _ _ _ M) as [I _].
      exact (combined_key_not_sub _ _ _ F1 F2 (in_pair_key _ _ _ I)).
    + intros H; injection H as <- _. exact sentinel_not_sub.
Qed.

Lemma dict_shape {V} (d : dict V) : d = List.combine (map fst d) (map snd d).
Proof. induction d as [|[k v] d IH]; simpl; [reflexivity|]. f_equal. exact IH. Qed.

(** The combined [CHICAGO] count of the default catalog. *)
Lemma default_fusion t it fu :
  detect_citation_styles default_catalog t = Ok (it, fu) ->
  count_of (combine it fu) CHICAGO =
  count_of it CHICAGO_AUTHOR_DATE + count_of it CHICAGO_NOTES + count_of fu CHICAGO.
Proof.
  unfold detect_citation_styles.
  destruct (count_table (in_text_patterns default_catalog) t) as [it'|] eqn:E1; [|discriminate].
  cbn [bind].
  destruct (count_table (full_citation_patterns default_catalog) t) as [fu'|] eqn:E2; [|discriminate].
  cbn [bind]. intros H; injection H as <- <-.
  pose proof (count_table_keys _ _ _ E1) as K1. pose proof (count_table_keys _ _ _ E2) as K2.
  rewrite (dict_shape it'), (dict_shape fu'), K1, K2.
  assert (L1 : List.length (map snd it') = 8) by (rewrite length_map, <- (length_map fst), K1; reflexivity).
  assert (L2 : List.length (map snd fu') = 7) by (rewrite length_map, <- (length_map fst), K2; reflexivity).
  generalize dependent (map snd it'). generalize dependent (map snd fu').
  intros ws L2 vs L1.   destruct vs as [|v1 vs]; [discriminate|]. injection L1 as L1.
  destruct vs as [|v2 vs]; [discriminate|]. injection L1 as L1.
  destruct vs as [|v3 vs]; [discriminate|]. injection L1 as L1.
  destruct vs as [|v4 vs]; [discriminate|]. injection L1 as L1.
  destruct vs as [|v5 vs]; [discriminate|]. injection L1 as L1.
  destruct vs as [|v6 vs]; [discriminate|]. injection L1 as L1.
  destruct vs as [|v7 vs]; [discriminate|]. injection L1 as L1.
  destruct vs as [|v8 vs]; [discriminate|]. injection L1 as L1.
  destruct vs; [|discriminate].
  destruct ws as [|w1 ws]; [discriminate|]. injection L2 as L2.
  destruct ws as [|w2 ws]; [discriminate|]. injection L2 as L2.
  destruct ws as [|w3 ws]; [discriminate|]. injection L2 as L2.
  destruct ws as [|w4 ws]; [discriminate|]. injection L2 as L2.
  destruct ws as [|w5 ws]; [discriminate|]. injection L2 as L2.
  destruct ws as [|w6 ws]; [discriminate|]. injection L2 as L2.
  destruct ws as [|w7 ws]; [discriminate|]. injection L2 as L2.
  destruct ws; [|discriminate].
  vm_compute. reflexivity.
Qed.

Lemma default_full_no_sub :
  dget (full_citation_patterns default_catalog) CHICAGO_AUTHOR_DATE = None /\
  dget (full_citation_patterns default_catalog) CHICAGO_NOTES = None.
Proof. split; vm_compute; reflexivity. Qed.

(** C3 (amended): with the default catalog, the combined score of
    [CHICAGO] in [identify_primary_style] is the in-text count of
    [CHICAGO_AUTHOR_DATE] plus the in-text count of [CHICAGO_NOTES] plus the
    full-citation count of [CHICAGO], and the primary style it returns is
    never one of the two sub-style tags. *)
Theorem chicago_fusion (t : text) it fu :
  detect_citation_styles default_catalog t = Ok (it, fu) ->
  count_of (combine it fu) CHICAGO =
    count_of it CHICAGO_AUTHOR_DATE + count_of it CHICAGO_NOTES + count_of fu CHICAGO /\
  (forall st c, identify_primary_style default_catalog t = Ok (st, c) ->
   st <> CHICAGO_AUTHOR_DATE /\ st <> CHICAGO_NOTES).
Proof.
  intros D. split; [exact (default_fusion _ _ _ D)|].
  intros st c H. destruct default_full_no_sub as [N1 N2].
  pose proof (identify_primary_style_not_sub _ _ _ _ N1 N2 H) as S.
  split; intros ->.
  - rewrite cad_sub in S. discriminate.
  - rewrite cn_sub in S. discriminate.
Qed.

Lemma chicago_fusion_witness :
  detect_citation_styles default_catalog (u "(Smith 2020)") =
    Ok ([(u "APA", 0); (u "MLA", 1); (u "CHICAGO_AUTHOR_DATE", 1); (u "CHICAGO_NOTES", 0);
         (u "HARVARD", 0); (u "IEEE", 0); (u "VANCOUVER", 0); (u "CSE", 2)],
        [(u "APA", 0); (u "MLA", 0); (u "CHICAGO", 0); (u "HARVARD", 0);
         (u "IEEE", 0); (u "VANCOUVER", 0); (u "CSE", 0)]) /\
  count_of (combine [(u "APA", 0); (u "MLA", 1); (u "CHICAGO_AUTHOR_DATE", 1); (u "CHICAGO_NOTES", 0);
                     (u "HARVARD", 0); (u "IEEE", 0); (u "VANCOUVER", 0); (u "CSE", 2)]
                    [(u "APA", 0); (u "MLA", 0); (u "CHICAGO", 0); (u "HARVARD", 0);
                     (u "IEEE", 0); (u "VANCOUVER", 0); (u "CSE", 0)]) CHICAGO = 1.
Proof.
  assert (D : detect_citation_styles default_catalog (u "(Smith 2020)") =
    Ok ([(u "APA", 0); (u "MLA", 1); (u "CHICAGO_AUTHOR_DATE", 1); (u "CHICAGO_NOTES", 0);
         (u "HARVARD", 0); (u "IEEE", 0); (u "VANCOUVER", 0); (u "CSE", 2)],
        [(u "APA", 0); (u "MLA", 0); (u "CHICAGO", 0); (u "HARVARD", 0);
         (u "IEEE", 0); (u "VANCOUVER", 0); (u "CSE", 0)])) by (vm_compute; reflexivity).
  split; [exact D|].
  rewrite (proj1 (chicago_fusion _ _ _ D)). vm_compute. reflexivity.
Defined.

(** C3 counterexample: the public [detect_citation_styles], whose in-text
    table [analyze_text] reports as its breakdown, keys a count by the
    sub-style tag [CHICAGO_AUTHOR_DATE]. *)
Lemma detect_citation_styles_substyle_cex :
  exists it fu, detect_citation_styles default_catalog (u "(Smith 2020)") = Ok (it, fu) /\
                dget it CHICAGO_AUTHOR_DATE = Some 1.
Proof.
  exists [(u "APA", 0); (u "MLA", 1); (u "CHICAGO_AUTHOR_DATE", 1); (u "CHICAGO_NOTES", 0);
          (u "HARVARD", 0); (u "IEEE", 0); (u "VANCOUVER", 0); (u "CSE", 2)],
         [(u "APA", 0); (u "MLA", 0); (u "CHICAGO", 0); (u "HARVARD", 0);
          (u "IEEE", 0); (u "VANCOUVER", 0); (u "CSE", 0)].
  split; vm_compute; reflexivity.
Qed.

(** *** Citation keys *)

Lemma mapM_forall {A B} (f : A -> res B) (P : B -> Prop) l r :
  (forall x y, f x = Ok y -> P y) -> mapM f l = Ok r -> Forall P r.
Proof.
  intros HP. revert r. induction l as [|x l IH]; intros r; simpl.
  - intros H; injection H as <-. constructor.
  - destruct (f x) as [y|e] eqn:E; cbn [bind]; [|discriminate].
    destruct (mapM f l) as [ys|e] eqn:E2; cbn [bind]; [|discriminate].
    intros H; injection H as <-. constructor; [exact (HP _ _ E)|exact (IH _ eq_refl)].
Qed.

Lemma author_only_keys_no_year t pat l :
  author_only_keys t pat = Ok l -> Forall (fun k => snd k = []) l.
Proof.
  unfold author_only_keys. destruct (Re.finditer (u pat) t Re.NOFLAGS) as [ms|e]; cbn [bind]; [|discriminate].
  apply mapM_forall. intros m y.
  destruct (group_strip t m "author") as [a|e]; cbn [bind]; [|discriminate].
  intros H; injection H as <-. reflexivity.
Qed.

Lemma mla_style_branch :
  text_eqb (u "MLA") (u "APA") = false /\ text_eqb (u "MLA") (u "HARVARD") = false /\
  text_eqb (u "MLA") (u "MLA") = true.
Proof. vm_compute. repeat split. Qed.

(** C7: every key that [_extract_citation_keys] returns for the style
    [MLA], i.e. every element of [list(set(keys))], has an empty year. *)
Theorem mla_keys_no_year (t : text) raw out :
  extract_citation_keys_raw t (u "MLA") = Ok raw -> set_listing raw out ->
  forall k, In k out -> snd k = [].
Proof.
  intros E [_ S] k I. apply S in I. revert E.
  unfold extract_citation_keys_raw. destruct mla_style_branch as (A & B & C).
  rewrite A, B, C. cbn [orb].
  match goal with |- context [author_only_keys t ?p] =>
    destruct (author_only_keys t p) as [k1|e] eqn:E1; cbn [bind]; [|discriminate] end.
  match goal with |- context [author_only_keys t ?p] =>
    destruct (author_only_keys t p) as [k2|e] eqn:E2; cbn [bind]; [|discriminate] end.
  intros H; injection H as <-.
  apply author_only_keys_no_year in E1. apply author_only_keys_no_year in E2.
  apply in_app_or in I as [I|I].
  - rewrite Forall_forall in E1. exact (E1 k I).
  - rewrite Forall_forall in E2. exact (E2 k I).
Qed.

Lemma set_listing_single {A} (x : A) out : set_listing [x] out -> out = [x].
Proof.
  intros [N S].
  assert (All : forall y, In y out -> y = x) by (intros y I; apply S in I; destruct I as [->|[]]; reflexivity).
  destruct out as [|a [|b out']].
  - destruct (proj2 (S x) (or_introl eq_refl)).
  - rewrite (All a (or_introl eq_refl)). reflexivity.
  - exfalso. inversion N as [|? ? NI _]; subst.
    apply NI. rewrite (All a (or_introl eq_refl)), (All b (or_intror (or_introl eq_refl))). left. reflexivity.
Qed.

Lemma set_listing_refl_single {A} (x : A) : set_listing [x] [x].
Proof. split; [constructor; [intros []|constructor]|tauto]. Qed.

Lemma mla_keys_no_year_witness :
  extract_citation_keys_raw (u "(Smith 25)") (u "MLA") = Ok [(u "Smith", [])] /\
  set_listing [(u "Smith", @nil char)] [(u "Smith", [])] /\
  snd (u "Smith", @nil char) = [].
Proof.
  assert (E : extract_citation_keys_raw (u "(Smith 25)") (u "MLA") = Ok [(u "Smith", [])])
    by (vm_compute; reflexivity).
  split; [exact E|]. split; [exact (set_listing_refl_single _)|].
  exact (mla_keys_no_year _ _ _ E (set_listing_refl_single _) (u "Smith", []) (or_introl eq_refl)).
Defined.

(** C8: for the text ["(Smith 25)"], [identify_primary_style] returns
    [MLA] with confidence exactly [1], and [_extract_citation_keys] with
    style [MLA] returns exactly [[("Smith", "")]]. *)
Theorem scenario_b :
  identify_primary_style default_catalog (u "(Smith 25)") = Ok (u "MLA", 1%Q) /\
  extract_citation_keys_raw (u "(Smith 25)") (u "MLA") = Ok [(u "Smith", [])] /\
  (forall out, set_listing [(u "Smith", @nil char)] out -> out = [(u "Smith", [])]).
Proof.
  split; [vm_compute; reflexivity|]. split; [vm_compute; reflexivity|].
  intros out. apply set_listing_single.
Qed.

Lemma scenario_b_witness :
  set_listing [(u "Smith", @nil char)] [(u "Smith", [])] /\
  [(u "Smith", @nil char)] = [(u "Smith", [])].
Proof.
  split; [exact (set_listing_refl_single _)|].
  exact (proj2 (proj2 scenario_b) _ (set_listing_refl_single _)).
Defined.

End DetectorFacts.

(** ** The author matcher *)

Module ValidatorFacts.
Import Validator DictFacts.

Lemma compile_punct :
  Re.compile (u "[.,;:]") =
  Ok (Re.RSeq (Re.RClass false [Re.CChar 46; Re.CChar 44; Re.CChar 59; Re.CChar 58]) Re.REmpty).
Proof. vm_compute. reflexivity. Qed.

Lemma compile_spaces :
  Re.compile (u "\s+") =
  Ok (Re.RSeq (Re.RSeq (Re.RClass false [Re.CSpace]) (Re.RStar true (Re.RClass false [Re.CSpace])))
              Re.REmpty).
Proof. vm_compute. reflexivity. Qed.

(** [_normalize_author_name] never raises. *)
Lemma normalize_total a : exists n, normalize_author_name a = Ok n.
Proof.
  unfold normalize_author_name, Re.sub, Re.finditer.
  rewrite compile_punct. cbn [bind]. rewrite compile_spaces. cbn [bind].
  eexists. reflexivity.
Qed.

Lemma text_eqb_sym a b : text_eqb a b = text_eqb b a.
Proof.
  revert b; induction a as [|x a IH]; intros [|y b]; simpl; try reflexivity.
  rewrite N.eqb_sym, IH. reflexivity.
Qed.

Lemma first_word_err s e : first_word s = Err e -> e = IndexError.
Proof. unfold first_word. destruct (lstrip s); [intros H; injection H as <-; reflexivity|discriminate]. Qed.

Lemma main_author_err n e : main_author n = Err e -> e = IndexError.
Proof.
  unfold main_author. destruct (containsb (u " ") n); [apply first_word_err|discriminate].
Qed.

(** C6: [_match_author_names] is symmetric. *)
Theorem match_author_names_sym (a b : text) :
  match_author_names a b = match_author_names b a.
Proof.
  destruct (normalize_total a) as [na Ea], (normalize_total b) as [nb Eb].
  unfold match_author_names. rewrite Ea, Eb. cbn [bind].
  rewrite (text_eqb_sym nb na).
  destruct (text_eqb na nb); [reflexivity|].
  destruct (containsb ET_AL na && containsb (strip (before ET_AL na)) nb);
  destruct (containsb ET_AL nb && containsb (strip (before ET_AL nb)) na); try reflexivity.
  rewrite orb_comm.
  destruct (containsb nb na || containsb na nb); [reflexivity|].
  destruct (main_author na) as [ma|e1] eqn:Ma, (main_author nb) as [mb|e2] eqn:Mb; cbn [bind].
  - rewrite text_eqb_sym. reflexivity.
  - reflexivity.
  - reflexivity.
  - apply main_author_err in Ma. apply main_author_err in Mb. subst. reflexivity.
Qed.

End ValidatorFacts.

(** ** Style detection of the extractor *)

Module ExtractorFacts.
Import Extractor DictFacts DetectorFacts Props.
Local Open Scope nat_scope.

(** A left fold in the error monad keeps any invariant its step keeps. *)
Lemma fold_res_inv {A B} (P : B -> Prop) (f : B -> A -> res B) (l : list A) (b : B) :
  P b -> (forall x a, In a l -> P x -> exists y, f x a = Ok y /\ P y) ->
  exists y, fold_left (fun acc a => let* x := acc in f x a) l (Ok b) = Ok y /\ P y.
Proof.
  revert b; induction l as [|a l IH]; intros b Hb Hf; simpl.
  - exists b. split; [reflexivity|assumption].
  - destruct (Hf b a (or_introl eq_refl) Hb) as [y [Ey Py]]. rewrite Ey.
    apply IH; [assumption|]. intros x a' I. apply Hf. right. assumption.
Qed.

Lemma dget_zero d k m : all_zero d -> dget d k = Some m -> m = 0.
Proof.
  induction d as [|[k' v] d IH]; simpl; [discriminate|].
  intros Z. inversion Z as [|? ? Z1 Z2]; subst. destruct (text_eqb k k').
  - intros H. injection H as <-. exact Z1.
  - apply IH. exact Z2.
Qed.

Lemma dset_zero d k : all_zero d -> all_zero (dset d k 0).
Proof.
  induction d as [|[k' v] d IH]; simpl; intros Z.
  - constructor; [reflexivity|constructor].
  - inversion Z as [|? ? Z1 Z2]; subst.
    destruct (text_eqb k k'); constructor; simpl; auto; apply IH; exact Z2.
Qed.

Lemma add_to_zero d k : all_zero d -> all_zero (Detector.add_to d k 0).
Proof.
  intros Z. unfold Detector.add_to. destruct (dget d k) eqn:E.
  - rewrite (dget_zero d k n Z E). apply dset_zero. exact Z.
  - apply dset_zero. exact Z.
Qed.

Lemma choose_style_zero sc : all_zero sc -> choose_style sc = APA.
Proof.
  intros Z. unfold choose_style.
  set (sc' := if dmem sc (u "CHICAGO_AUTHOR_DATE") || dmem sc (u "CHICAGO_NOTES") then _ else sc).
  assert (Z' : all_zero sc').
  { subst sc'. destruct (_ || _); [|exact Z].
    unfold dpop. cbn [fst snd].
    assert (F : forall d k, all_zero d -> all_zero (filter (fun kv => negb (text_eqb (fst kv) k)) d)).
    { intros d k Zd. unfold all_zero in *. apply Forall_forall. intros x Ix.
      apply filter_In in Ix as [Ix _]. rewrite Forall_forall in Zd. apply Zd. exact Ix. }
    destruct (dget sc (u "CHICAGO_AUTHOR_DATE")) as [a|] eqn:Ea;
    [rewrite (dget_zero _ _ _ Z Ea)|];
    match goal with |- context [dget ?d (u "CHICAGO_NOTES")] =>
      destruct (dget d (u "CHICAGO_NOTES")) as [b|] eqn:Eb end;
    try (rewrite (dget_zero _ _ _ (F _ _ Z) Eb));
    apply dset_zero; apply F; apply F; exact Z. }
  clearbody sc'.
  destruct (Detector.py_max sc') as [[st n]|] eqn:M; [|reflexivity].
  apply py_max_spec in M as [I _]. unfold all_zero in Z'. rewrite Forall_forall in Z'.
  pose proof (Z' _ I) as N0. cbn [snd] in N0. subst n. reflexivity.
Qed.

Lemma header_counts_none t :
  forallb (fun kv => forallb (fun h => match Re.search h t Re.IGNORECASE_MULTILINE with
                                       | Ok None => true | _ => false end) (snd kv))
          bibliography_headers = true ->
  header_counts t [] = Ok [].
Proof.
  intros H.
  assert (E : exists y, header_counts t [] = Ok y /\ y = []).
  2: { destruct E as [y [E ->]]. exact E. }
  unfold header_counts. apply fold_res_inv; [reflexivity|].
  intros x kv I ->. rewrite forallb_forall in H. specialize (H kv I).
  apply fold_res_inv; [reflexivity|]. intros x h Ih ->.
  rewrite forallb_forall in H. specialize (H h Ih).
  destruct (Re.search h t Re.IGNORECASE_MULTILINE) as [[m|]|e]; try discriminate.
  cbn [bind]. exists []. split; reflexivity.
Qed.

Lemma pattern_counts_zero t sc :
  forallb (fun kv => forallb (fun p => match Re.findall p t Re.NOFLAGS with
                                       | Ok [] => true | _ => false end) (snd kv))
          in_text_patterns = true ->
  all_zero sc -> exists sc', pattern_counts t sc = Ok sc' /\ all_zero sc'.
Proof.
  intros H Z. unfold pattern_counts.
  apply fold_res_inv; [exact Z|].
  intros x kv I Zx. rewrite forallb_forall in H. specialize (H kv I).
  apply fold_res_inv; [exact Zx|]. intros y p Ip Zy.
  rewrite forallb_forall in H. specialize (H p Ip).
  destruct (Re.findall p t Re.NOFLAGS) as [[|m ms]|e]; try discriminate.
  cbn [bind]. eexists. split; [reflexivity|]. apply add_to_zero. exact Zy.
Qed.

(** C10: when no bibliography header and no in-text pattern of any style
    matches, [_detect_citation_style] falls back to ['APA'], and
    [extract_all_citations] without a style runs exactly as with ['APA']. *)
Theorem detect_default_apa (pc : option Patterns.catalog) (t : text) :
  no_style_evidence t = true ->
  detect_citation_style t = Ok APA /\
  extract_all_citations pc t None = extract_all_citations pc t (Some APA).
Proof.
  unfold no_style_evidence. intros H. apply andb_true_iff in H as [H1 H2].
  assert (D : detect_citation_style t = Ok APA).
  { unfold detect_citation_style. rewrite (header_counts_none t H1). cbn [bind].
    destruct (pattern_counts_zero t [] H2 (Forall_nil _)) as [sc [E Z]].
    rewrite E. cbn [bind]. rewrite (choose_style_zero sc Z). reflexivity. }
  split; [exact D|].
  unfold extract_all_citations. rewrite D. reflexivity.
Qed.

Lemma detect_default_apa_witness :
  no_style_evidence (u "hello") = true /\ detect_citation_style (u "hello") = Ok APA.
Proof.
  assert (H : no_style_evidence (u "hello") = true) by (vm_compute; reflexivity).
  split; [exact H|]. exact (proj1 (detect_default_apa None (u "hello") H)).
Defined.
End ExtractorFacts.

(** ** Custom patterns *)

Module PatternsFacts.
Import Patterns DictFacts Props.

Lemma dget_dmem_some {V} (d : dict V) k : dmem d k = true -> exists v, dget d k = Some v.
Proof. unfold dmem. destruct (dget d k) as [v|]; [eauto|discriminate]. Qed.

Lemma dget_dmem_none {V} (d : dict V) k : dmem d k = false -> dget d k = None.
Proof. unfold dmem. destruct (dget d k) as [v|]; [discriminate|reflexivity]. Qed.

(** One branch of [add_custom_pattern] appends to both tables of its category. *)
Lemma add_to_tables_appends {P} (src : dict (list text)) (cmp : dict (list P)) style pat rx :
  keys_agree src cmp ->
  exists src' cmp', add_to_tables src cmp style pat rx = (Ok tt, (src', cmp')) /\
    appended src src' style pat /\ appended cmp cmp' style rx.
Proof.
  intros K. unfold add_to_tables. specialize (K style).
  destruct (dmem src style) eqn:Ms.
  - destruct (dget_dmem_some _ _ Ms) as [ps Ps].
    symmetry in K. destruct (dget_dmem_some _ _ K) as [cs Cs].
    rewrite Ps, Cs. do 2 eexists. split; [reflexivity|].
    split; split; try (rewrite ?Ps, ?Cs; apply dget_dset_same);
      intros k' Hk; apply dget_dset_other; exact Hk.
  - symmetry in K. pose proof (dget_dmem_none _ _ Ms) as Ps. pose proof (dget_dmem_none _ _ K) as Cs.
    rewrite !dget_dset_same. do 2 eexists. split; [reflexivity|].
    split; split; try (rewrite ?Ps, ?Cs; apply dget_dset_same);
      intros k' Hk; rewrite !dget_dset_other by exact Hk; reflexivity.
Qed.

Lemma merge_all_full_keeps_in_text entries (c : Detector.catalog) :
  Detector.in_text_patterns (snd (Load.merge_all false entries c)) = Detector.in_text_patterns c.
Proof.
  revert c; induction entries as [|[st ps] rest IH]; intros c; simpl; [reflexivity|].
  destruct (Load.merge_one _ st ps) as [t|e]; [|reflexivity].
  rewrite IH. reflexivity.
Qed.

(** The full-citation block never touches the in-text table, whether it
    succeeds or raises. *)
Lemma full_block_keeps_in_text cfg (c : Detector.catalog) :
  Detector.in_text_patterns (snd (Load.load_block false "full_citation_patterns" cfg c))
  = Detector.in_text_patterns c.
Proof.
  unfold Load.load_block, Load.mbind, Load.lift, Load.ret.
  destruct (Load.py_in _ cfg) as [[|]|e]; [|reflexivity|reflexivity].
  destruct (Load.py_getitem cfg _) as [v|e]; [|reflexivity].
  destruct (Load.py_items v) as [l|e]; [|reflexivity].
  apply merge_all_full_keeps_in_text.
Qed.



End PatternsFacts.

(** ** Order and repetition of the extracted lists *)

Module OrderFacts.
Import DictFacts Props.
Local Open Scope nat_scope.

Lemma existsb_text_eqb x l : existsb (text_eqb x) l = true <-> In x l.
Proof.
  rewrite existsb_exists. split.
  - intros [y [I E]]. apply text_eqb_eq in E. subst. exact I.
  - intros I. exists x. split; [exact I|apply text_eqb_refl].
Qed.

Lemma dedup_seen_in seen l x :
  In x (dedup_seen seen l) <-> In x l /\ ~ In x seen.
Proof.
  revert seen; induction l as [|a l IH]; intros seen; simpl; [tauto|].
  destruct (existsb (text_eqb a) seen) eqn:E.
  - apply existsb_text_eqb in E. rewrite IH. split; [tauto|].
    intros [[<-|I] N]; [contradiction|tauto].
  - simpl. rewrite IH. simpl. split.
    + intros [<-|[I N]]; [split; [left; reflexivity|]|tauto].
      intros I. apply existsb_text_eqb in I. congruence.
    + intros [[<-|I] N]; [left; reflexivity|].
      destruct (text_eqb x a) eqn:X; [left; symmetry; apply text_eqb_eq; exact X|right].
      split; [exact I|]. intros [Q|Q]; [|tauto]. subst. rewrite text_eqb_refl in X. discriminate.
Qed.

Lemma dedup_seen_nodup seen l : NoDup (dedup_seen seen l).
Proof.
  revert seen; induction l as [|a l IH]; intros seen; simpl; [constructor|].
  destruct (existsb (text_eqb a) seen); [apply IH|].
  constructor; [|apply IH]. rewrite dedup_seen_in. simpl. tauto.
Qed.

Lemma first_index_cons_other a l x : x <> a -> first_index x (a :: l) = S (first_index x l).
Proof. intros N. simpl. rewrite (text_eqb_neq x a N). reflexivity. Qed.

(** The kept elements come in the order of their first occurrence in [l]. *)
Lemma dedup_seen_first_order seen l :
  StronglySorted (fun x y => first_index x l < first_index y l) (dedup_seen seen l).
Proof.
  revert seen; induction l as [|a l IH]; intros seen; simpl; [constructor|].
  assert (Lift : forall s, (forall y, In y (dedup_seen s l) -> y <> a) ->
            StronglySorted (fun x y => first_index x (a :: l) < first_index y (a :: l))
                           (dedup_seen s l)).
  { intros s Ns. pose proof (IH s) as S0. revert S0 Ns. generalize (dedup_seen s l).
    induction l0 as [|b l0 IHl]; intros S0 Ns; [constructor|].
    apply StronglySorted_inv in S0 as [S1 F1]. constructor.
    - apply IHl; [exact S1|]. intros y I. apply Ns. right. exact I.
    - rewrite Forall_forall in *. intros y I.
      rewrite !first_index_cons_other by (apply Ns; simpl; auto). specialize (F1 y I). lia. }
  destruct (existsb (text_eqb a) seen) eqn:E.
  - apply Lift. intros y I <-. apply dedup_seen_in in I as [_ N].
    apply existsb_text_eqb in E. contradiction.
  - constructor.
    + apply Lift. intros y I <-. apply dedup_seen_in in I as [_ N]. apply N. left. reflexivity.
    + apply Forall_forall. intros y I. rewrite text_eqb_refl, text_eqb_neq; [lia|].
      intros <-. apply dedup_seen_in in I as [_ N]. apply N. left. reflexivity.
Qed.

Lemma text_ltb_irrefl a : text_ltb a a = false.
Proof. induction a as [|x a IH]; simpl; [reflexivity|]. rewrite N.ltb_irrefl. exact IH. Qed.

Lemma text_ltb_trans a b c : text_ltb a b = true -> text_ltb b c = true -> text_ltb a c = true.
Proof.
  revert b c; induction a as [|x a IH]; intros [|y b] [|z c] H1 H2; simpl in *;
    try discriminate; try reflexivity.
  destruct (N.ltb_spec x y), (N.ltb_spec y x), (N.ltb_spec y z), (N.ltb_spec z y),
           (N.ltb_spec x z), (N.ltb_spec z x); try lia; try reflexivity; try discriminate.
  all: assert (x = y) by lia; assert (y = z) by lia; subst; exact (IH _ _ H1 H2).
Qed.

Lemma text_ltb_total a b : a <> b -> text_ltb a b = true \/ text_ltb b a = true.
Proof.
  revert b; induction a as [|x a IH]; intros [|y b] Hne; simpl.
  - exfalso. apply Hne. reflexivity.
  - left. reflexivity.
  - right. reflexivity.
  - destruct (N.ltb_spec x y), (N.ltb_spec y x); auto; try lia.
    assert (x = y) by lia. subst. apply IH. congruence.
Qed.

Lemma text_ltb_asym a b : text_ltb a b = true -> text_ltb b a = false.
Proof.
  intros H. destruct (text_ltb b a) eqn:E; [|reflexivity].
  pose proof (text_ltb_trans _ _ _ H E) as C. rewrite text_ltb_irrefl in C. discriminate.
Qed.

Lemma insert_sorted_in x l y : In y (insert_sorted x l) <-> y = x \/ In y l.
Proof.
  induction l as [|b l IH]; simpl; [intuition congruence|].
  destruct (text_ltb b x); simpl; [rewrite IH|]; intuition congruence.
Qed.

Lemma insert_sorted_sorted x l :
  StronglySorted text_lt l -> ~ In x l -> StronglySorted text_lt (insert_sorted x l).
Proof.
  induction l as [|b l IH]; intros S N; simpl; [repeat constructor|].
  apply StronglySorted_inv in S as [S F].
  assert (Nb : b <> x) by (intros ->; apply N; left; reflexivity).
  destruct (text_ltb b x) eqn:E.
  - constructor; [apply IH; [exact S|intros I; apply N; right; exact I]|].
    apply Forall_forall. intros y I. apply insert_sorted_in in I as [->|I]; [exact E|].
    rewrite Forall_forall in F. apply F. exact I.
  - destruct (text_ltb_total x b (not_eq_sym Nb)) as [L|L]; [|congruence].
    constructor; [constructor; assumption|].
    constructor; [exact L|]. rewrite Forall_forall in *. intros y I.
    exact (text_ltb_trans _ _ _ L (F y I)).
Qed.

Lemma sort_texts_in l y : In y (sort_texts l) <-> In y l.
Proof.
  induction l as [|a l IH]; simpl; [tauto|]. rewrite insert_sorted_in, IH. intuition congruence.
Qed.

Lemma sort_texts_sorted l : NoDup l -> StronglySorted text_lt (sort_texts l).
Proof.
  induction l as [|a l IH]; intros D; simpl; [constructor|].
  apply NoDup_cons_iff in D as [N D]. apply insert_sorted_sorted; [apply IH; exact D|].
  rewrite sort_texts_in. exact N.
Qed.

(** [sorted(list(set(l)))] is strictly ascending and has the elements of [l]. *)
Lemma sorted_set_spec l :
  StronglySorted text_lt (sorted_set l) /\ (forall x, In x (sorted_set l) <-> In x l).
Proof.
  unfold sorted_set. split.
  - apply sort_texts_sorted, dedup_seen_nodup.
  - intros x. rewrite sort_texts_in, dedup_seen_in. simpl. tauto.
Qed.

Lemma strictly_sorted_nodup l : StronglySorted text_lt l -> NoDup l.
Proof.
  induction l as [|a l IH]; intros S; [constructor|].
  apply StronglySorted_inv in S as [S F]. constructor; [|apply IH; exact S].
  intros I. rewrite Forall_forall in F. specialize (F a I). unfold text_lt in F.
  rewrite text_ltb_irrefl in F. discriminate.
Qed.

Lemma extract_citations_sorted_set cat t en bib :
  Detector.extract_citations cat t = Ok (en, bib) ->
  exists en0 bib0, en = sorted_set en0 /\ bib = sorted_set bib0.
Proof.
  unfold Detector.extract_citations. intros H.
  destruct (Detector.identify_primary_style cat t) as [r|e]; cbn [bind] in H; [|discriminate].
  destruct (text_eqb (fst r) Detector.NONE_STYLE).
  { injection H as <- <-. exists [], []. split; reflexivity. }
  lazymatch type of H with bind ?m _ = _ => destruct m as [en0|e] end; cbn [bind] in H;
    [|discriminate].
  lazymatch type of H with bind ?m _ = _ => destruct m as [bib0|e] end; cbn [bind] in H;
    [|discriminate].
  injection H as <- <-. exists en0, bib0. split; reflexivity.
Qed.

(** C5 (as the code behaves): [extract_in_text_citations] returns the
    accepted matches without repetition, in the order of their first
    occurrence; [extract_citations] returns both lists without repetition
    in ascending string order ([sorted(list(set(...)))]), not in order of
    first occurrence. *)
Theorem extraction_dedup (pc : option Patterns.catalog) (t style : text) (cat : Detector.catalog) :
  (forall l, Extractor.extract_in_text_citations pc t style = Ok l ->
     exists main cands,
       Extractor.extract_main_text t = Ok main /\
       Extractor.candidates (Extractor.in_text_pattern_list pc style) main style = Ok cands /\
       NoDup l /\ (forall x, In x l <-> In x cands) /\
       StronglySorted (fun x y => first_index x cands < first_index y cands) l) /\
  (forall en bib, Detector.extract_citations cat t = Ok (en, bib) ->
     NoDup en /\ NoDup bib /\ StronglySorted text_lt en /\ StronglySorted text_lt bib).
Proof.
  split.
  - intros l H. unfold Extractor.extract_in_text_citations in H.
    destruct (Extractor.extract_main_text t) as [main|e] eqn:M; cbn [bind] in H; [|discriminate].
    destruct (Extractor.candidates _ main style) as [cands|e] eqn:C; cbn [bind] in H;
      [|discriminate].
    injection H as <-. exists main, cands.
    split; [reflexivity|]. split; [exact C|]. split; [apply dedup_seen_nodup|].
    split; [|apply dedup_seen_first_order].
    intros x. rewrite dedup_seen_in. simpl. tauto.
  - intros en bib H. apply extract_citations_sorted_set in H as [en0 [bib0 [-> ->]]].
    destruct (sorted_set_spec en0) as [S1 _], (sorted_set_spec bib0) as [S2 _].
    split; [apply strictly_sorted_nodup; exact S1|].
    split; [apply strictly_sorted_nodup; exact S2|]. split; assumption.
Qed.

Lemma extraction_dedup_witness :
  Extractor.extract_in_text_citations None (u "(Smith 25) (Adams 30)") (u "MLA")
    = Ok [u "(Smith 25)"; u "(Adams 30)"] /\
  NoDup [u "(Smith 25)"; u "(Adams 30)"].
Proof.
  assert (E : Extractor.extract_in_text_citations None (u "(Smith 25) (Adams 30)") (u "MLA")
              = Ok [u "(Smith 25)"; u "(Adams 30)"]) by (vm_compute; reflexivity).
  split; [exact E|].
  destruct (proj1 (extraction_dedup None (u "(Smith 25) (Adams 30)") (u "MLA")
                     Detector.default_catalog) _ E) as [m [c [_ [_ [D _]]]]].
  exact D.
Defined.

(** C5: [extract_citations] sorts, so its in-text list is not in order of
    first occurrence; and [extract_bibliography_citations] can return the
    same entry twice. *)
Lemma extraction_order_cex :
  Detector.extract_citations Detector.default_catalog (u "(Smith 25) (Adams 30)")
    = Ok ([u "(Adams 30)"; u "(Smith 25)"], []) /\
  Extractor.extract_in_text_citations None (u "(Smith 25) (Adams 30)") (u "MLA")
    = Ok [u "(Smith 25)"; u "(Adams 30)"] /\
  Extractor.extract_bibliography_citations Examples.duplicate_entry_text Extractor.APA
    = Ok [u "Smith, J. (2020). A title here. Publisher.";
          u "Smith, J. (2020). A title here. Publisher."].
Proof. split; [|split]; vm_compute; reflexivity. Qed.
End OrderFacts.

(** ** Shape of the bibliography entries *)

Module BibFacts.
Import Re ReSem ReFacts DictFacts Props.
Local Open Scope nat_scope.

Lemma search_go_sound fl r s n i m :
  search_go fl r s n i = Some m ->
  exists j, matches s (effective_ic fl r) (multiline fl) r (m_start m) j.
Proof.
  revert i; induction n as [|n IH]; intros i H; cbn [search_go] in H; [discriminate|].
  destruct (Nat.ltb (List.length s) i); [discriminate|].
  destruct (match_at s _ _ r i) as [[j cp]|] eqn:E.
  - injection H as <-. unfold match_at in E.
    destruct (mt_sound _ _ _ _ _ _ _ _ E) as (j' & cp' & M & _). exists j'. exact M.
  - apply (IH _ H).
Qed.

(** A match reported by [re.search] is a match of the compiled regex. *)
Lemma search_sound pat s fl m :
  search pat s fl = Ok (Some m) ->
  exists r j, compile pat = Ok r /\ matches s (effective_ic fl r) (multiline fl) r (m_start m) j.
Proof.
  unfold search. destruct (compile pat) as [r|e]; cbn [bind]; [|discriminate].
  intros H. injection H as H. destruct (search_go_sound _ _ _ _ _ _ H) as [j M].
  exists r, j. split; [reflexivity|exact M].
Qed.

(** Every position a star over a class runs through holds a character of
    the class. *)
Lemma class_star_run s ic ml g neg its i j :
  matches s ic ml (RStar g (RClass neg its)) i j ->
  forall k, i <= k < j -> exists c, at_ s k = Some c /\ class_match ic neg its c = true.
Proof.
  intros H. remember (RStar g (RClass neg its)) as R eqn:ER.
  induction H; try discriminate; intros k Hk.
  - lia.
  - injection ER as E1 E2. subst. inversion H as [| | |neg' its' c i' Ac Cc| | | | | | | | |]; subst.
    destruct (Nat.eq_dec k i) as [->|Ne]; [exists c; split; assumption|].
    apply IHmatches2; [reflexivity|lia].
Qed.

Lemma lstrip_shape s : lstrip s = [] \/ exists c r, lstrip s = c :: r /\ is_ws c = false.
Proof.
  unfold lstrip. induction s as [|c s IH]; [left; reflexivity|]. cbn [List.length].
  simpl. destruct (is_ws c) eqn:W; [exact IH|]. right. exists c, s. split; [reflexivity|exact W].
Qed.

(** [str.strip()] leaves no whitespace at the end. *)
Lemma strip_last_nonws s pre c : strip s = pre ++ [c] -> is_ws c = false.
Proof.
  unfold strip. destruct (lstrip_shape (rev (lstrip s))) as [E|(c' & r & E & W)]; rewrite E.
  - simpl. intros H. destruct pre; discriminate.
  - simpl. intros H. apply app_inj_tail in H as [_ <-]. exact W.
Qed.


Lemma compile_terminal :
  compile (u "[.!?]$") = Ok (RSeq (RClass false terminal_items) (RSeq REol REmpty)).
Proof. vm_compute. reflexivity. Qed.

Lemma compile_author :
  compile (u "^[A-Za-zÀ-ÿ\-]+,") =
  Ok (RSeq RBol (RSeq (RSeq (RClass false author_items) (RStar true (RClass false author_items)))
                      (RSeq (RChar 44%N) REmpty))).
Proof. vm_compute. reflexivity. Qed.

Lemma class_terminal c : class_match false false terminal_items c = terminal c.
Proof.
  unfold class_match, terminal. simpl. rewrite !orb_false_r, !orb_assoc. reflexivity.
Qed.

Lemma class_author c : class_match false false author_items c = author_char c.
Proof.
  unfold class_match, author_char. simpl. rewrite !orb_false_r. rewrite !orb_assoc. reflexivity.
Qed.

Lemma last_of_length (e : text) i c :
  at_ e i = Some c -> List.length e = S i -> exists pre, e = pre ++ [c].
Proof.
  unfold at_. intros A L. destruct (nth_error_split e i A) as (l1 & l2 & -> & L1).
  rewrite length_app in L. simpl in L. destruct l2; [|simpl in L; lia].
  exists l1. reflexivity.
Qed.

(** [re.search(r'[.!?]$', e)] succeeds on a text that does not end in
    whitespace only if its last character is terminal punctuation. *)
Lemma terminal_search e m :
  (forall pre c, e = pre ++ [c] -> is_ws c = false) ->
  search (u "[.!?]$") e NOFLAGS = Ok (Some m) ->
  exists pre c, e = pre ++ [c] /\ terminal c = true.
Proof.
  intros NW H. apply search_sound in H as (r & j & C & M).
  rewrite compile_terminal in C. injection C as <-.
  cbn [effective_ic has_flag_i ignorecase multiline NOFLAGS orb] in M.
  inversion M as [| | | | | | | r1 r2 i0 j0 l0 M1 M2 | | | | |]; subst.
  inversion M1 as [| | |neg its c i1 Ac Cc| | | | | | | | |]; subst.
  inversion M2 as [| | | | | | | r3 r4 i2 j2 l2 M3 M4 | | | | |]; subst.
  inversion M3 as [| | | | | |i3 E| | | | | |]; subst.
  unfold eol in E. cbn [negb andb] in E.
  destruct (Nat.eqb_spec (S (m_start m)) (List.length e)) as [L|L].
  - destruct (last_of_length e _ _ Ac (eq_sym L)) as [pre ->].
    exists pre, c. split; [reflexivity|]. rewrite <- class_terminal. exact Cc.
  - cbn [orb] in E.
    apply andb_true_iff in E as [L2 A2].
    apply Nat.eqb_eq in L2. destruct (at_ e (S (m_start m))) as [x|] eqn:Ax; [|discriminate].
    apply N.eqb_eq in A2. subst x.
    destruct (last_of_length e _ _ Ax (eq_sym L2)) as [pre Ep].
    specialize (NW _ _ Ep). discriminate NW.
Qed.

(** [re.search(r'^[A-Za-zÀ-ÿ\-]+,', e)] succeeds only on a text that starts
    with a non-empty run of letters of the class and hyphens, then a comma. *)
Lemma author_search e m :
  search (u "^[A-Za-zÀ-ÿ\-]+,") e NOFLAGS = Ok (Some m) ->
  exists w rest, w <> [] /\ forallb author_char w = true /\ e = w ++ 44%N :: rest.
Proof.
  intros H. apply search_sound in H as (r & j & C & M).
  rewrite compile_author in C. injection C as <-.
  cbn [effective_ic has_flag_i ignorecase multiline NOFLAGS orb] in M.
  inversion M as [| | | | | | | r1 r2 i0 j0 l0 M1 M2 | | | | |]; subst.
  inversion M1 as [| | | | |i1 B| | | | | | |]; subst.
  inversion M2 as [| | | | | | | r3 r4 i2 j2 l2 M3 M4 | | | | |]; subst.
  inversion M3 as [| | | | | | | r5 r6 i4 j4 l4 M5 M6 | | | | |]; subst.
  inversion M5 as [| | |neg its c i5 Ac Cc| | | | | | | | |]; subst.
  inversion M4 as [| | | | | | | r7 r8 i6 j6 l6 M7 M8 | | | | |]; subst.
  inversion M7 as [| |p c' i7 Ac' Cc'| | | | | | | | | |]; subst.
  unfold bol in B. cbn [andb] in B. rewrite orb_false_r in B. apply Nat.eqb_eq in B.
  rewrite B in *.
  unfold char_match in Cc'. apply N.eqb_eq in Cc'. subst c'.
  unfold at_ in Ac'. destruct (nth_error_split e j2 Ac') as (w & rest & Ee & Lw).
  assert (Run : forall k, k < j2 -> exists x, at_ e k = Some x /\ author_char x = true).
  { intros k Hk. destruct k as [|k].
    - exists c. split; [exact Ac|]. rewrite <- class_author. exact Cc.
    - destruct (class_star_run _ _ _ _ _ _ _ _ M6 (S k) ltac:(lia)) as (x & Ax & Cx).
      exists x. split; [exact Ax|]. rewrite <- class_author. exact Cx. }
  pose proof (matches_le _ _ _ _ _ _ M6) as Le.
  exists w, rest. split; [intros ->; simpl in Lw; lia|]. split; [|exact Ee].
  apply forallb_forall. intros x Ix. apply In_nth_error in Ix as [k Kx].
  assert (Hk : k < List.length w) by (apply nth_error_Some; congruence).
  destruct (Run k ltac:(lia)) as (y & Ay & Cy).
  unfold at_ in Ay. rewrite Ee, nth_error_app1 in Ay by exact Hk. congruence.
Qed.


(** What [_is_valid_citation(e, style, 'bibliography')] returning [True] tells. *)
Lemma is_valid_bibliography e style :
  Extractor.is_valid_citation e style (u "bibliography") = Ok true ->
  20 <= List.length e <= 1000 /\
  (exists m, search (u "[.!?]$") e NOFLAGS = Ok (Some m)) /\
  (existsb (text_eqb style) author_styles = true ->
   exists m, search (u "^[A-Za-zÀ-ÿ\-]+,") e NOFLAGS = Ok (Some m)).
Proof.
  intros H. unfold Extractor.is_valid_citation in H. cbv beta zeta in H.
  assert (B : text_eqb (u "bibliography") (u "in_text") = false) by (vm_compute; reflexivity).
  rewrite B, text_eqb_refl in H.
  repeat (first [ discriminate
                | match type of H with
                  | context [bind (search ?p ?s ?f) _] =>
                      let E := fresh "S" in
                      destruct (search p s f) as [[?|]|?] eqn:E; cbn [bind is_some negb andb orb] in H
                  | context [if ?b then _ else _] =>
                      let E := fresh "B" in destruct b eqn:E; cbn [negb andb orb] in H
                  end ]).
  all: match goal with L1 : (_ <? 20) = false, L2 : (1000 <? _) = false |- _ =>
         apply Nat.ltb_ge in L1; apply Nat.ltb_ge in L2 end.
  all: split; [lia|]; split; [eexists; reflexivity|].
  all: intros X; unfold author_styles in X; try (eexists; reflexivity).
  all: match goal with Y : existsb _ _ && _ = false |- _ => rewrite X in Y; discriminate Y end.
Qed.

Lemma keep_valid_in entries style l e :
  Extractor.keep_valid entries style = Ok l -> In e l ->
  exists e0, e = strip e0 /\ Extractor.is_valid_citation e style (u "bibliography") = Ok true.
Proof.
  revert l; induction entries as [|x es IH]; intros l H I; cbn [Extractor.keep_valid] in H.
  - injection H as <-. destruct I.
  - cbv zeta in H.
    destruct (if Nat.eqb (List.length (strip x)) 0 then Ok false
              else Extractor.is_valid_citation (strip x) style (u "bibliography")) as [v|err] eqn:V;
      cbn [bind] in H; [|discriminate].
    destruct (Extractor.keep_valid es style) as [rest|err] eqn:R; cbn [bind] in H; [|discriminate].
    injection H as <-. destruct v; [destruct I as [<-|I]|].
    + exists x. split; [reflexivity|].
      destruct (Nat.eqb (List.length (strip x)) 0); [discriminate|exact V].
    + exact (IH rest eq_refl I).
    + exact (IH rest eq_refl I).
Qed.

(** C9 (as the code behaves): every entry [extract_bibliography_citations]
    returns has between 20 and 1000 characters and ends in ['.'], ['!'] or
    ['?']; for APA, MLA, CHICAGO and HARVARD it starts with a non-empty run of
    ASCII letters, letters of [À-ÿ] and hyphens, of either case, followed by
    a comma. *)
Theorem bibliography_entries_valid (t style : text) (l : list text) (e : text) :
  Extractor.extract_bibliography_citations t style = Ok l -> In e l ->
  20 <= List.length e <= 1000 /\
  (exists pre c, e = pre ++ [c] /\ terminal c = true) /\
  (existsb (text_eqb style) author_styles = true ->
   exists w rest, w <> [] /\ forallb author_char w = true /\ e = w ++ 44%N :: rest).
Proof.
  intros H I. unfold Extractor.extract_bibliography_citations in H.
  destruct (Extractor.extract_bibliography_section t style) as [sec|err]; cbn [bind] in H;
    [|discriminate].
  destruct (Nat.eqb (List.length sec) 0).
  { injection H as <-. destruct I. }
  destruct (Extractor.split_bibliography_entries sec style) as [es|err]; cbn [bind] in H;
    [|discriminate].
  destruct (keep_valid_in _ _ _ _ H I) as (e0 & Ee & V).
  destruct (is_valid_bibliography _ _ V) as (Len & [m Tm] & Au).
  split; [exact Len|]. split.
  - apply (terminal_search e m); [|exact Tm].
    intros pre c Ep. rewrite Ee in Ep. exact (strip_last_nonws _ _ _ Ep).
  - intros X. destruct (Au X) as [m' Am]. exact (author_search e m' Am).
Qed.

Lemma bibliography_entries_valid_witness :
  exists w rest, w <> [] /\ forallb author_char w = true /\
    u "Smith, J. (2020). A title here. Publisher." = w ++ 44%N :: rest.
Proof.
  assert (E : Extractor.extract_bibliography_citations Examples.duplicate_entry_text Extractor.APA
              = Ok [u "Smith, J. (2020). A title here. Publisher.";
                    u "Smith, J. (2020). A title here. Publisher."]) by (vm_compute; reflexivity).
  assert (X : existsb (text_eqb Extractor.APA) author_styles = true) by (vm_compute; reflexivity).
  destruct (bibliography_entries_valid _ _ _ (u "Smith, J. (2020). A title here. Publisher.") E
              (or_introl eq_refl)) as [_ [_ A]].
  exact (A X).
Defined.

(** C9: an APA entry may start with a lower-case surname, and an IEEE entry
    need not start with [[n]] or [n.]: the bibliography header itself is
    accepted as its start. *)
Lemma bibliography_entries_shape_cex :
  Extractor.extract_bibliography_citations Examples.lower_case_entry_text Extractor.APA
    = Ok [u "smith, j. (2020). A title here. Publisher."] /\
  is_upper (hd 0%N (u "smith, j. (2020). A title here. Publisher.")) = false /\
  Extractor.extract_bibliography_citations Examples.ieee_entry_text (u "IEEE")
    = Ok [u "References Smith J, Title of the work, vol. 12. 2020."].
Proof. split; [|split]; vm_compute; reflexivity. Qed.
End BibFacts.

Module StripFacts.

Lemma lstrip_cons_nonws c r : is_ws c = false -> lstrip (c :: r) = c :: r.
Proof. intros W. unfold lstrip. simpl. rewrite W. reflexivity. Qed.

Lemma lstrip_app_last l c : is_ws c = false -> exists l', lstrip (l ++ [c]) = l' ++ [c].
Proof.
  intros W. induction l as [|x l IH].
  - exists []. apply lstrip_cons_nonws. exact W.
  - cbn [app]. unfold lstrip. simpl. destruct (is_ws x).
    + exact IH.
    + exists (x :: l). reflexivity.
Qed.

(** [str.strip()] leaves no whitespace at the start. *)
Lemma strip_head s c r : strip s = c :: r -> is_ws c = false.
Proof.
  unfold strip. destruct (BibFacts.lstrip_shape s) as [E|(c0 & r0 & E & W)]; rewrite E.
  - cbn. discriminate.
  - cbn [rev]. destruct (lstrip_app_last (rev r0) c0 W) as [l' E']. rewrite E'.
    rewrite rev_app_distr. cbn. intros H. injection H as <- _. exact W.
Qed.

Lemma lstrip_strip s : lstrip (strip s) = strip s.
Proof.
  destruct (strip s) as [|c r] eqn:E; [reflexivity|].
  apply lstrip_cons_nonws. exact (strip_head _ _ _ E).
Qed.

Lemma lstrip_blank s : forallb is_ws s = true -> lstrip s = [].
Proof.
  induction s as [|c s IH]; intros H; [reflexivity|].
  cbn [forallb] in H. apply andb_true_iff in H as [H1 H2].
  unfold lstrip. simpl. rewrite H1. apply IH. exact H2.
Qed.

Lemma strip_blank s : forallb is_ws s = true -> strip s = [].
Proof. intros H. unfold strip. rewrite (lstrip_blank s H). reflexivity. Qed.

(** [str.lower()] leaves whitespace alone. *)
Lemma lower_ws c : is_ws c = true -> lower c = c.
Proof.
  intros H. unfold is_ws in H. apply existsb_exists in H as (w & Iw & Ew).
  apply N.eqb_eq in Ew. subst w. unfold ws_chars in Iw.
  repeat (destruct Iw as [<-|Iw]; [reflexivity|]). destruct Iw.
Qed.

Lemma blank_lower s : forallb is_ws s = true -> forallb is_ws (map lower s) = true.
Proof.
  induction s as [|c s IH]; intros H; [reflexivity|].
  cbn [forallb map] in *. apply andb_true_iff in H as [H1 H2].
  rewrite (lower_ws c H1), H1. apply IH. exact H2.
Qed.

End StripFacts.

Module MatchingFacts.
Import CrossRef Matching XProps StripFacts.

Lemma first_word_strip s : strip s <> [] -> exists w, Validator.first_word (strip s) = Ok w.
Proof.
  intros N. unfold Validator.first_word. rewrite lstrip_strip.
  destruct (strip s); [congruence|]. eexists. reflexivity.
Qed.

Lemma containsb_nil_l s : containsb [] s = true.
Proof. destruct s; reflexivity. Qed.

Lemma is_matching_total author year bib_author bib_year style :
  exists b, is_matching_citation author year bib_author bib_year style = Ok b.
Proof.
  unfold is_matching_citation.
  destruct (negb (nonempty author) && negb (nonempty year)); [eexists; reflexivity|].
  destruct (containsb (u ",") (strip (map lower bib_author))); cbn [bind].
  - destruct (text_eqb style (u "MLA")); eexists; reflexivity.
  - destruct (strip (map lower bib_author)) as [|c r] eqn:E; cbn [nonempty bind].
    + destruct (text_eqb style (u "MLA")); eexists; reflexivity.
    + destruct (first_word_strip (map lower bib_author)) as [w Ew]; [rewrite E; discriminate|].
      rewrite <- E, Ew. cbn [bind]. destruct (text_eqb style (u "MLA")); eexists; reflexivity.
Qed.

(** X4: [_is_matching_citation] never raises; with an empty author and an
    empty year it answers False; outside MLA a True answer implies that the
    two years are equal. *)
Theorem is_matching_citation_basic (author year bib_author bib_year style : text) :
  (exists b, is_matching_citation author year bib_author bib_year style = Ok b)
  /\ (author = [] -> year = [] -> is_matching_citation author year bib_author bib_year style = Ok false)
  /\ (text_eqb style (u "MLA") = false ->
      is_matching_citation author year bib_author bib_year style = Ok true -> year = bib_year).
Proof.
  split; [apply is_matching_total|]. split.
  - intros -> ->. reflexivity.
  - intros M H. unfold is_matching_citation in H. rewrite M in H.
    destruct (negb (nonempty author) && negb (nonempty year)); [discriminate|].
    match type of H with bind ?m _ = _ => destruct m as [bs|e] end; cbn [bind] in H; [|discriminate].
    injection H as H. apply andb_true_iff in H as [_ H]. apply DictFacts.text_eqb_eq. exact H.
Qed.

(** X5: when the bibliography author is blank (whitespace only), the
    author test of [_is_matching_citation] always succeeds, so the answer is
    True exactly when the author or the year is non-empty and, outside MLA,
    the years are equal. *)
Theorem blank_bib_author_matches (author year bib_author bib_year style : text) :
  blank bib_author = true ->
  is_matching_citation author year bib_author bib_year style =
  Ok ((nonempty author || nonempty year) && (text_eqb style (u "MLA") || text_eqb year bib_year)).
Proof.
  intros B. unfold is_matching_citation.
  rewrite (strip_blank _ (blank_lower _ B)).
  destruct (nonempty author), (nonempty year); cbn [negb andb orb]; try reflexivity.
  all: replace (containsb (u ",") []) with false by (vm_compute; reflexivity); cbn [nonempty bind];
    rewrite containsb_nil_l, orb_true_r;
    destruct (text_eqb style (u "MLA")); reflexivity.
Qed.

Lemma blank_bib_author_matches_witness :
  blank (u "  ") = true /\
  is_matching_citation (u "Smith") (u "2020") (u "  ") (u "2020") (u "APA") = Ok true.
Proof.
  split; [vm_compute; reflexivity|].
  rewrite (blank_bib_author_matches (u "Smith") (u "2020") (u "  ") (u "2020") (u "APA")
             ltac:(vm_compute; reflexivity)).
  vm_compute. reflexivity.
Defined.

End MatchingFacts.

Module CrossRefFacts.
Import CrossRef XProps.

Lemma existsb_false {A} (f : A -> bool) l : (forall x, In x l -> f x = false) -> existsb f l = false.
Proof.
  induction l as [|x l IH]; intros H; [reflexivity|]. cbn [existsb].
  rewrite (H x (or_introl eq_refl)). apply IH. intros y I. apply H. right. exact I.
Qed.

Lemma found_reference_spec st a y refs :
  found_reference st a y refs = existsb (xmatch st a y) refs.
Proof.
  induction refs as [|r refs IH]; [reflexivity|].
  cbn [found_reference existsb]. rewrite IH.
  remember (existsb (xmatch st a y) refs) as R eqn:HR. clear HR IH.
  unfold xmatch, names_match. cbv zeta.
  destruct (existsb (text_eqb st) author_date_styles), (text_eqb st (u "MLA")),
    (nonempty a), (nonempty (ref_surname r)), (nonempty y), (nonempty (get_str r (u "year"))),
    (containsb (norm_cited a) (strip (map lower (ref_surname r)))),
    (containsb (strip (map lower (ref_surname r))) (norm_cited a)),
    (text_eqb y (get_str r (u "year"))); reflexivity.
Qed.

Lemma cited_in_spec st r cits :
  cited_in st (ref_surname r) (get_str r (u "year")) cits
  = existsb (fun c => xmatch st (fst c) (snd c) r) cits.
Proof.
  induction cits as [|[a y] cits IH]; [reflexivity|].
  cbn [cited_in existsb fst snd]. rewrite IH.
  remember (existsb (fun c => xmatch st (fst c) (snd c) r) cits) as R eqn:HR. clear HR IH.
  unfold xmatch, names_match. cbv zeta.
  destruct (existsb (text_eqb st) author_date_styles), (text_eqb st (u "MLA")),
    (nonempty a), (nonempty (ref_surname r)), (nonempty y), (nonempty (get_str r (u "year"))),
    (containsb (norm_cited a) (strip (map lower (ref_surname r)))),
    (containsb (strip (map lower (ref_surname r))) (norm_cited a)),
    (text_eqb y (get_str r (u "year"))); reflexivity.
Qed.

Lemma missing_spec cits refs st :
  find_citations_without_references cits refs st =
  map (fun c => citation_text (fst c) (snd c))
    (filter (fun c => negb (existsb (xmatch st (fst c) (snd c)) refs) && nonempty (strip (fst c))) cits).
Proof.
  induction cits as [|[a y] cits IH]; [reflexivity|].
  cbn [find_citations_without_references filter fst snd]. rewrite found_reference_spec, IH.
  destruct (negb (existsb (xmatch st a y) refs) && nonempty (strip a)); reflexivity.
Qed.

Lemma unused_spec cits refs st :
  find_references_without_citations cits refs st =
  filter (fun r => negb (existsb (fun c => xmatch st (fst c) (snd c) r) cits) && nonempty (strip (ref_surname r))) refs.
Proof.
  induction refs as [|r refs IH]; [reflexivity|].
  cbn [find_references_without_citations filter]. rewrite cited_in_spec, IH.
  destruct (negb (existsb (fun c => xmatch st (fst c) (snd c) r) cits) && nonempty (strip (ref_surname r)));
    reflexivity.
Qed.

(** X1: [_find_citations_without_references] lists, in order, the text
    [citation_text author year] of every citation whose author is not blank
    and that no reference matches; [_find_references_without_citations]
    keeps, in order, every reference whose surname is not blank and that no
    citation matches; both use the same match [xmatch]. *)
Theorem crossref_reports (citations : list (text * text)) (references : list (dict text)) (style : text) :
  find_citations_without_references citations references style =
    map (fun c => citation_text (fst c) (snd c))
      (filter (fun c => negb (existsb (xmatch style (fst c) (snd c)) references) && nonempty (strip (fst c)))
         citations)
  /\ find_references_without_citations citations references style =
    filter (fun r => negb (existsb (fun c => xmatch style (fst c) (snd c) r) citations)
                     && nonempty (strip (ref_surname r))) references.
Proof. split; [apply missing_spec|apply unused_spec]. Qed.

Lemma xmatch_other st a y r :
  existsb (text_eqb st) compared_styles = false -> xmatch st a y r = false.
Proof.
  intros H. unfold xmatch. unfold compared_styles, author_date_styles in *.
  cbn [map existsb] in *. apply orb_false_iff in H as [H1 H]. apply orb_false_iff in H as [H2 H].
  apply orb_false_iff in H as [H3 H]. apply orb_false_iff in H as [H4 _].
  rewrite H1, H2, H3, H4. reflexivity.
Qed.

(** X2: for a style other than APA, HARVARD, CHICAGO and MLA nothing is
    ever matched: every citation with a non-blank author is reported missing
    and every reference with a non-blank surname is reported unused. *)
Theorem crossref_other_styles (citations : list (text * text)) (references : list (dict text)) (style : text) :
  existsb (text_eqb style) compared_styles = false ->
  find_citations_without_references citations references style =
    map (fun c => citation_text (fst c) (snd c)) (filter (fun c => nonempty (strip (fst c))) citations)
  /\ find_references_without_citations citations references style =
    filter (fun r => nonempty (strip (ref_surname r))) references.
Proof.
  intros H. rewrite missing_spec, unused_spec. split.
  - f_equal. apply filter_ext. intros [a y]. cbn [fst snd].
    replace (existsb (xmatch style a y) references) with false; [reflexivity|].
    symmetry. apply existsb_false. intros r _. apply xmatch_other. exact H.
  - apply filter_ext. intros r.
    replace (existsb (fun c => xmatch style (fst c) (snd c) r) citations) with false; [reflexivity|].
    symmetry. apply existsb_false. intros c _. apply xmatch_other. exact H.
Qed.

Lemma crossref_other_styles_witness :
  existsb (text_eqb (u "IEEE")) compared_styles = false /\
  find_citations_without_references [(u "Smith", u "2020")] [[(u "author", u "Smith, J."); (u "year", u "2020")]] (u "IEEE")
    = [u "Smith (2020)"]%string.
Proof.
  split; [vm_compute; reflexivity|].
  destruct (crossref_other_styles [(u "Smith", u "2020")] [[(u "author", u "Smith, J."); (u "year", u "2020")]]
              (u "IEEE") ltac:(vm_compute; reflexivity)) as [E _].
  rewrite E. vm_compute. reflexivity.
Defined.

Lemma xmatch_no_year st a r :
  In st author_date_styles -> xmatch st a [] r = false.
Proof.
  intros I. unfold xmatch.
  replace (existsb (text_eqb st) author_date_styles) with true.
  - cbn [nonempty]. rewrite !andb_false_r. reflexivity.
  - symmetry. apply existsb_exists. exists st. split; [exact I|]. apply DictFacts.text_eqb_refl.
Qed.

Lemma xmatch_no_ref_year st a y r :
  In st author_date_styles -> get_str r (u "year") = [] -> xmatch st a y r = false.
Proof.
  intros I E. unfold xmatch. rewrite E.
  replace (existsb (text_eqb st) author_date_styles) with true.
  - cbn [nonempty]. rewrite !andb_false_r. reflexivity.
  - symmetry. apply existsb_exists. exists st. split; [exact I|]. apply DictFacts.text_eqb_refl.
Qed.

(** X3: for APA, HARVARD and CHICAGO a citation without a year is always
    reported missing (when its author is not blank), and a reference without
    a year is always reported unused (when its surname is not blank), whatever
    the other list holds. *)
Theorem crossref_yearless (citations : list (text * text)) (references : list (dict text)) (style : text) :
  In style author_date_styles ->
  (forall author, In (author, []) citations -> nonempty (strip author) = true ->
     In author (find_citations_without_references citations references style))
  /\ (forall ref, In ref references -> get_str ref (u "year") = [] -> nonempty (strip (ref_surname ref)) = true ->
     In ref (find_references_without_citations citations references style)).
Proof.
  intros S. split.
  - intros a I N. rewrite missing_spec. apply in_map_iff. exists (a, []). split; [reflexivity|].
    apply filter_In. split; [exact I|]. cbn [fst snd]. rewrite N, andb_true_r.
    replace (existsb (xmatch style a []) references) with false; [reflexivity|].
    symmetry. apply existsb_false. intros r _. apply xmatch_no_year. exact S.
  - intros r I E N. rewrite unused_spec. apply filter_In. split; [exact I|]. rewrite N, andb_true_r.
    replace (existsb (fun c => xmatch style (fst c) (snd c) r) citations) with false; [reflexivity|].
    symmetry. apply existsb_false. intros c _. apply xmatch_no_ref_year; assumption.
Qed.

Lemma crossref_yearless_witness :
  In (u "Smith")
    (find_citations_without_references [(u "Smith", [])]
       [[(u "author", u "Smith, J."); (u "year", u "2020")]] (u "APA")).
Proof.
  apply (proj1 (crossref_yearless [(u "Smith", [])]
           [[(u "author", u "Smith, J."); (u "year", u "2020")]] (u "APA")
           (or_introl eq_refl))).
  - left. reflexivity.
  - vm_compute. reflexivity.
Defined.

End CrossRefFacts.

Module KeyMatchFacts.
Import Validator ValidatorFacts KeyMatch StripFacts XProps.

Lemma normalize_strip a n : normalize_author_name a = Ok n -> exists x, n = strip x.
Proof.
  unfold normalize_author_name, Re.sub, Re.finditer.
  rewrite compile_punct. cbn [bind]. rewrite compile_spaces. cbn [bind].
  intros H. injection H as <-. eexists. reflexivity.
Qed.

Lemma main_author_strip x : exists w, main_author (strip x) = Ok w.
Proof.
  unfold main_author. destruct (containsb (u " ") (strip x)) eqn:C; [|eexists; reflexivity].
  unfold first_word. rewrite lstrip_strip. destruct (strip x) as [|c r].
  - vm_compute in C. discriminate.
  - eexists. reflexivity.
Qed.

(** [_match_author_names] never raises. *)
Lemma match_author_names_total a b : exists m, match_author_names a b = Ok m.
Proof.
  destruct (normalize_total a) as [na Ea], (normalize_total b) as [nb Eb].
  destruct (normalize_strip _ _ Ea) as [xa ->], (normalize_strip _ _ Eb) as [xb ->].
  unfold match_author_names. rewrite Ea, Eb. cbn [bind].
  destruct (text_eqb _ _); [eexists; reflexivity|].
  destruct (_ && _); [eexists; reflexivity|].
  destruct (_ && _); [eexists; reflexivity|].
  destruct (_ || _); [eexists; reflexivity|].
  destruct (main_author_strip xa) as [ma ->], (main_author_strip xb) as [mb ->].
  cbn [bind]. eexists. reflexivity.
Qed.

Lemma match_author_names_comm a b : match_author_names a b = match_author_names b a.
Proof.
  destruct (normalize_total a) as [na Ea], (normalize_total b) as [nb Eb].
  unfold match_author_names. rewrite Ea, Eb. cbn [bind].
  rewrite (text_eqb_sym nb na).
  destruct (text_eqb na nb); [reflexivity|].
  destruct (containsb ET_AL na && containsb (strip (before ET_AL na)) nb);
  destruct (containsb ET_AL nb && containsb (strip (before ET_AL nb)) na); try reflexivity.
  rewrite orb_comm.
  destruct (containsb nb na || containsb na nb); [reflexivity|].
  destruct (main_author na) as [ma|e1] eqn:Ma, (main_author nb) as [mb|e2] eqn:Mb; cbn [bind].
  - rewrite text_eqb_sym. reflexivity.
  - reflexivity.
  - reflexivity.
  - apply main_author_err in Ma. apply main_author_err in Mb. subst. reflexivity.
Qed.

(** The Boolean [_match_author_names] computes. *)
Lemma mab_spec a b : match_author_names a b = Ok (mab a b).
Proof. unfold mab. destruct (match_author_names_total a b) as [m ->]. reflexivity. Qed.

Lemma mab_comm a b : mab a b = mab b a.
Proof. unfold mab. rewrite match_author_names_comm. reflexivity. Qed.

Lemma reference_spec a y keys st :
  find_matching_reference a y keys st =
  Ok (existsb (fun k => let '(ba, by_, _) := k in
                 mab a ba && (if negb (CrossRef.nonempty y) && text_eqb st (u "MLA") then true
                              else text_eqb y by_)) keys).
Proof.
  unfold find_matching_reference.
  destruct (negb (CrossRef.nonempty y) && text_eqb st (u "MLA")).
  - induction keys as [|[[ba by_] t] keys IH]; [reflexivity|].
    rewrite mab_spec. cbn [bind existsb]. rewrite andb_true_r.
    destruct (mab a ba); [reflexivity|exact IH].
  - induction keys as [|[[ba by_] t] keys IH]; [reflexivity|].
    rewrite mab_spec. cbn [bind existsb].
    destruct (mab a ba && text_eqb y by_); [reflexivity|exact IH].
Qed.

Lemma citation_spec a y keys st :
  find_matching_citation a y keys st =
  Ok (existsb (fun k => mab a (fst k) && (text_eqb st (u "MLA") || text_eqb y (snd k))) keys).
Proof.
  induction keys as [|[ca cy] keys IH]; [reflexivity|].
  cbn [find_matching_citation existsb fst snd]. rewrite mab_spec.
  destruct (text_eqb st (u "MLA")); cbn [bind orb].
  - rewrite andb_true_r. destruct (mab a ca); [reflexivity|exact IH].
  - destruct (mab a ca && text_eqb y cy); [reflexivity|exact IH].
Qed.

(** X6: outside MLA, or when the year is empty, [_find_matching_reference]
    finds a bibliography key for a citation exactly when
    [_find_matching_citation], run from some key of the list against that
    single citation, finds it: the two directions of the validator agree. *)
Theorem reference_citation_agree (author year : text) (bib_keys : list (text * text * text)) (style : text) :
  text_eqb style (u "MLA") = false \/ year = [] ->
  (find_matching_reference author year bib_keys style = Ok true <->
   exists bib_author bib_year title, In (bib_author, bib_year, title) bib_keys /\
     find_matching_citation bib_author bib_year [(author, year)] style = Ok true).
Proof.
  intros H. rewrite reference_spec. split.
  - intros E. injection E as E. apply existsb_exists in E as ([[ba by_] t] & I & M).
    exists ba, by_, t. split; [exact I|]. rewrite citation_spec. cbn [existsb fst snd].
    rewrite mab_comm, orb_false_r. f_equal.
    destruct H as [H| ->].
    + rewrite H in *. rewrite andb_false_r in M. cbn [orb]. rewrite ValidatorFacts.text_eqb_sym in M. exact M.
    + cbn [CrossRef.nonempty negb andb] in M.
      destruct (text_eqb style (u "MLA")); cbn [orb].
      * exact M.
      * rewrite ValidatorFacts.text_eqb_sym in M. exact M.
  - intros (ba & by_ & t & I & M). rewrite citation_spec in M. cbn [existsb fst snd] in M.
    rewrite orb_false_r in M. injection M as M. f_equal. apply existsb_exists.
    exists (ba, by_, t). split; [exact I|]. rewrite mab_comm.
    destruct H as [H| ->].
    + rewrite H in *. rewrite andb_false_r. cbn [orb] in M. rewrite ValidatorFacts.text_eqb_sym. exact M.
    + cbn [CrossRef.nonempty negb andb].
      destruct (text_eqb style (u "MLA")); cbn [orb] in M.
      * exact M.
      * rewrite ValidatorFacts.text_eqb_sym. exact M.
Qed.

Lemma reference_citation_agree_witness :
  exists bib_author bib_year title,
    In (bib_author, bib_year, title) [(u "Smith, J.", u "2020", u "T")] /\
    find_matching_citation bib_author bib_year [(u "Smith", u "2020")] (u "APA") = Ok true.
Proof.
  apply (proj1 (reference_citation_agree (u "Smith") (u "2020") [(u "Smith, J.", u "2020", u "T")]
           (u "APA") (or_introl (ltac:(vm_compute; reflexivity) : text_eqb (u "APA") (u "MLA") = false)))).
  vm_compute. reflexivity.
Defined.

End KeyMatchFacts.

Module ReportFacts.
Import Re ReSem ReFacts Report.
Local Open Scope nat_scope.

(** A match reported by [re.match] is a match of the compiled regex from 0. *)
Lemma rmatch_sound pat s fl m :
  rmatch pat s fl = Ok (Some m) ->
  exists r j, compile pat = Ok r /\ matches s (effective_ic fl r) (multiline fl) r 0 j.
Proof.
  unfold rmatch. destruct (compile pat) as [r|e]; cbn [bind]; [|discriminate].
  destruct (match_at s _ _ r 0) as [[j cp]|] eqn:E; [|discriminate].
  intros _. unfold match_at in E. destruct (mt_sound _ _ _ _ _ _ _ _ E) as (j' & cp' & M & _).
  exists r, j'. split; [reflexivity|exact M].
Qed.

Ltac inv_m :=
  repeat match goal with
  | H : matches _ _ _ (RSeq _ _) _ _ |- _ => inversion H; subst; clear H
  | H : matches _ _ _ (RAlt _ _) _ _ |- _ => inversion H; subst; clear H
  | H : matches _ _ _ RBol _ _ |- _ => inversion H; subst; clear H
  | H : matches _ _ _ (RChar _) _ _ |- _ => inversion H; subst; clear H
  | H : matches _ _ _ (RClass _ _) _ _ |- _ => inversion H; subst; clear H
  end.

Lemma re_matched_cases pat e r :
  compile (u pat) = Ok r ->
  exists b, re_matched pat e = Ok b /\
    (b = true -> exists j, matches e (effective_ic NOFLAGS r) (multiline NOFLAGS) r 0 j).
Proof.
  intros C. unfold re_matched.
  destruct (rmatch (u pat) e NOFLAGS) as [[m|]|ex] eqn:E.
  - exists true. split; [reflexivity|]. intros _.
    destruct (rmatch_sound _ _ _ _ E) as (r' & j & C' & M). rewrite C in C'. injection C' as <-.
    exists j. exact M.
  - exists false. split; [reflexivity|discriminate].
  - unfold rmatch in E. rewrite C in E. discriminate.
Qed.

Lemma compile_last_first :
  compile (u "^[A-Za-z\-]+,\s[A-Za-z]") =
  Ok (RSeq RBol (RSeq (RSeq (RClass false [CRange 65%N 90%N; CRange 97%N 122%N; CChar 45%N])
                            (RStar true (RClass false [CRange 65%N 90%N; CRange 97%N 122%N; CChar 45%N])))
     (RSeq (RChar 44%N) (RSeq (RClass false [CSpace]) (RSeq (RClass false [CRange 65%N 90%N; CRange 97%N 122%N]) REmpty))))).
Proof. vm_compute. reflexivity. Qed.

Lemma compile_first_last :
  compile (u "^[A-Z]\.\s[A-Za-z\-]+") =
  Ok (RSeq RBol (RSeq (RClass false [CRange 65%N 90%N]) (RSeq (RChar 46%N) (RSeq (RClass false [CSpace])
     (RSeq (RSeq (RClass false [CRange 65%N 90%N; CRange 97%N 122%N; CChar 45%N])
                 (RStar true (RClass false [CRange 65%N 90%N; CRange 97%N 122%N; CChar 45%N]))) REmpty))))).
Proof. vm_compute. reflexivity. Qed.

Lemma compile_numbered :
  compile (u "^\d+\.|\[\d+\]") =
  Ok (RAlt (RSeq RBol (RSeq (RSeq (RClass false [CDigit]) (RStar true (RClass false [CDigit])))
                            (RSeq (RChar 46%N) REmpty)))
           (RSeq (RChar 91%N) (RSeq (RSeq (RClass false [CDigit]) (RStar true (RClass false [CDigit])))
                                  (RSeq (RChar 93%N) REmpty)))).
Proof. vm_compute. reflexivity. Qed.

Lemma compile_unnumbered :
  compile (u "^[A-Za-z]") =
  Ok (RSeq RBol (RSeq (RClass false [CRange 65%N 90%N; CRange 97%N 122%N]) REmpty)).
Proof. vm_compute. reflexivity. Qed.


(** [re.match(r'^[A-Za-z\-]+,\s[A-Za-z]', e)]: the second character is not a period. *)
Lemma last_first_second e : exists b, re_matched "^[A-Za-z\-]+,\s[A-Za-z]" e = Ok b /\
  (b = true -> forall c, at_ e 1 = Some c -> c <> 46%N).
Proof.
  destruct (re_matched_cases _ e _ compile_last_first) as (b & E & H). exists b. split; [exact E|].
  intros Hb c A. destruct (H Hb) as [j M]. cbn in M. inv_m.
  match goal with
  | Hs : matches _ _ _ (RStar _ _) 1 ?k, Hc : at_ e ?k = Some ?x, Hm : char_match _ _ ?x = true |- _ =>
      destruct (Nat.eq_dec k 1) as [Ek|Ne];
      [ subst k; rewrite A in Hc; injection Hc as <-; unfold char_match in Hm; apply N.eqb_eq in Hm;
        congruence
      | pose proof (matches_le _ _ _ _ _ _ Hs);
        destruct (BibFacts.class_star_run _ _ _ _ _ _ _ _ Hs 1 ltac:(lia)) as (y & Ay & Cy);
        rewrite A in Ay; injection Ay as <-; unfold class_match in Cy; cbn in Cy;
        intros ->; discriminate Cy ]
  end.
Qed.

(** [re.match(r'^[A-Z]\.\s[A-Za-z\-]+', e)]: the second character is a period. *)
Lemma first_last_second e : exists b, re_matched "^[A-Z]\.\s[A-Za-z\-]+" e = Ok b /\
  (b = true -> at_ e 1 = Some 46%N).
Proof.
  destruct (re_matched_cases _ e _ compile_first_last) as (b & E & H). exists b. split; [exact E|].
  intros Hb. destruct (H Hb) as [j M]. cbn in M. inv_m.
  match goal with
  | Hc : at_ e 1 = Some ?x, Hm : char_match _ _ ?x = true |- _ =>
      unfold char_match in Hm; apply N.eqb_eq in Hm; subst; exact Hc
  end.
Qed.

(** [re.match(r'^\d+\.|\[\d+\]', e)]: the first character is a digit or [[]. *)
Lemma numbered_first e : exists b, re_matched "^\d+\.|\[\d+\]" e = Ok b /\
  (b = true -> exists c, at_ e 0 = Some c /\ (is_digit c = true \/ c = 91%N)).
Proof.
  destruct (re_matched_cases _ e _ compile_numbered) as (b & E & H). exists b. split; [exact E|].
  intros Hb. destruct (H Hb) as [j M]. cbn in M. inv_m.
  - match goal with
    | Hc : at_ e 0 = Some ?x, Hm : class_match _ _ _ ?x = true |- _ =>
        exists x; split; [exact Hc|left]; unfold class_match in Hm; cbn in Hm;
        destruct (is_digit x); [reflexivity|discriminate Hm]
    end.
  - match goal with
    | Hc : at_ e 0 = Some ?x, Hm : char_match _ _ ?x = true |- _ =>
        exists x; split; [exact Hc|right]; unfold char_match in Hm; apply N.eqb_eq in Hm; congruence
    end.
Qed.

(** [re.match(r'^[A-Za-z]', e)]: the first character is an ASCII letter. *)
Lemma unnumbered_first e : exists b, re_matched "^[A-Za-z]" e = Ok b /\
  (b = true -> exists c, at_ e 0 = Some c /\ ((65 <=? c)%N && (c <=? 90)%N || (97 <=? c)%N && (c <=? 122)%N) = true).
Proof.
  destruct (re_matched_cases _ e _ compile_unnumbered) as (b & E & H). exists b. split; [exact E|].
  intros Hb. destruct (H Hb) as [j M]. cbn in M. inv_m.
  match goal with
  | Hc : at_ e 0 = Some ?x, Hm : class_match _ _ _ ?x = true |- _ =>
      exists x; split; [exact Hc|]; unfold class_match in Hm; cbn in Hm; rewrite !orb_false_r in Hm; exact Hm
  end.
Qed.

Lemma anyM_total {A} (f : A -> res bool) l :
  (forall x, In x l -> exists b, f x = Ok b) -> exists b, anyM f l = Ok b.
Proof.
  induction l as [|x l IH]; intros H; cbn [anyM].
  - exists false. reflexivity.
  - destruct (H x (or_introl eq_refl)) as [b E]. rewrite E. cbn [bind]. destruct b.
    + exists true. reflexivity.
    + apply IH. intros y Hy. apply H. right. exact Hy.
Qed.

Lemma re_found_total pat fl s r : compile (u pat) = Ok r -> exists b, re_found pat fl s = Ok b.
Proof. intros C. unfold re_found, search. rewrite C. cbn [bind]. eexists. reflexivity. Qed.

Lemma compile_author_year : exists r, compile (u "\([A-Za-z].*\d{4}") = Ok r.
Proof. eexists. vm_compute. reflexivity. Qed.

Lemma compile_numeric : exists r, compile (u "[\[\(]\d+[\]\)]") = Ok r.
Proof. eexists. vm_compute. reflexivity. Qed.

Lemma anyM_single {A} (f : A -> res bool) x b : f x = Ok b -> anyM f [x] = Ok b.
Proof. intros E. cbn [anyM]. rewrite E. cbn [bind]. destruct b; reflexivity. Qed.

(** X7: [_check_overall_style_consistency] never raises, and with at most one
    bibliography entry it reports neither mixed author formats nor mixed numbering. *)
Theorem overall_consistency_single_entry citations style :
  exists issues, check_overall_style_consistency citations style = Ok issues /\
  (List.length (get_list citations (u "bibliograficas")) <= 1 ->
   forall i, In i issues ->
     rule_id i <> u "mixed_author_formats" /\ rule_id i <> u "mixed_bibliography_numbering").
Proof.
  unfold check_overall_style_consistency.
  remember (get_list citations (u "en_texto")) as it eqn:Eit; clear Eit.
  remember (get_list citations (u "bibliograficas")) as bib eqn:Ebib; clear Ebib.
  assert (exists i1, (if nonempty_list it then
      let* has_author_year := anyM (re_found "\([A-Za-z].*\d{4}" NOFLAGS) it in
      let* has_numeric := anyM (re_found "[\[\(]\d+[\]\)]" NOFLAGS) it in
      Ok ((if existsb (fun cit => containsb (u "(") cit && containsb (u ")") cit) it &&
              existsb (fun cit => containsb (u "[") cit && containsb (u "]") cit) it then
             [mk (u "mixed_citation_styles")
              (u "Se mezclan citas con paréntesis () y corchetes []")
              (u "En estilo " ++ style ++ u ", mantener consistencia en el uso de paréntesis o corchetes")%list]
           else []) ++
          (if has_author_year && has_numeric then
          [mk (u "mixed_citation_systems")
              (u "Se mezclan sistemas de citación autor-fecha y numérico")
              (u "Elegir un solo sistema de citación para todo el documento")]
        else []))%list
    else Ok []) = Ok i1 /\ forall i, In i i1 ->
       rule_id i <> u "mixed_author_formats" /\ rule_id i <> u "mixed_bibliography_numbering") as (i1 & E1 & H1).
  { destruct (nonempty_list it).
    - destruct compile_author_year as [r1 C1]. destruct compile_numeric as [r2 C2].
      destruct (anyM_total (re_found "\([A-Za-z].*\d{4}" NOFLAGS) it
                  (fun x _ => re_found_total _ _ x _ C1)) as [b1 B1].
      destruct (anyM_total (re_found "[\[\(]\d+[\]\)]" NOFLAGS) it
                  (fun x _ => re_found_total _ _ x _ C2)) as [b2 B2].
      rewrite B1. cbn [bind]. rewrite B2. cbn [bind].
      eexists. split; [reflexivity|].
      intros i Hi. apply in_app_or in Hi.
      destruct Hi as [Hi|Hi]; [destruct (existsb _ it && existsb _ it)|destruct (b1 && b2)];
        cbn in Hi; try contradiction; destruct Hi as [<-|[]]; cbn;
        split; intros Ex; vm_compute in Ex; discriminate Ex.
    - exists []. split; [reflexivity|intros i []]. }
  cbv zeta in E1 |- *. rewrite E1. cbn [bind].
  destruct (anyM_total (re_matched "^[A-Za-z\-]+,\s[A-Za-z]") bib
     (fun x _ => let (b, P) := last_first_second x in ex_intro _ b (proj1 P))) as [a3 B3].
  destruct (anyM_total (re_matched "^[A-Z]\.\s[A-Za-z\-]+") bib
     (fun x _ => let (b, P) := first_last_second x in ex_intro _ b (proj1 P))) as [a4 B4].
  destruct (anyM_total (re_matched "^\d+\.|\[\d+\]") bib
     (fun x _ => let (b, P) := numbered_first x in ex_intro _ b (proj1 P))) as [a5 B5].
  destruct (anyM_total (re_matched "^[A-Za-z]") bib
     (fun x _ => let (b, P) := unnumbered_first x in ex_intro _ b (proj1 P))) as [a6 B6].
  destruct bib as [|e rest].
  - cbn [nonempty_list bind]. eexists. split; [reflexivity|].
    intros _ i Hi. rewrite app_nil_r in Hi. exact (H1 i Hi).
  - cbn [nonempty_list]. rewrite B3. cbn [bind]. rewrite B4. cbn [bind].
    rewrite B5. cbn [bind]. rewrite B6. cbn [bind].
    eexists. split; [reflexivity|]. intros Hl i Hi.
    destruct rest as [|e' rest]; [|cbn [List.length] in Hl; lia].
    apply in_app_or in Hi. destruct Hi as [Hi|Hi]; [exact (H1 i Hi)|].
    destruct (last_first_second e) as (b3 & E3 & H3).
    destruct (first_last_second e) as (b4 & E4 & H4).
    destruct (numbered_first e) as (b5 & E5 & H5).
    destruct (unnumbered_first e) as (b6 & E6 & H6).
    rewrite (anyM_single _ _ _ E3) in B3. rewrite (anyM_single _ _ _ E4) in B4.
    rewrite (anyM_single _ _ _ E5) in B5. rewrite (anyM_single _ _ _ E6) in B6.
    injection B3 as <-. injection B4 as <-. injection B5 as <-. injection B6 as <-.
    assert (N34 : b3 && b4 = false).
    { destruct b3, b4; try reflexivity.
      exfalso. apply (H3 eq_refl 46%N (H4 eq_refl)). reflexivity. }
    assert (N56 : b5 && b6 = false).
    { destruct b5, b6; try reflexivity. exfalso.
      destruct (H5 eq_refl) as (c & A & D). destruct (H6 eq_refl) as (c' & A' & L).
      rewrite A in A'. injection A' as <-. unfold is_digit in D.
      destruct D as [D| ->]; [|discriminate L].
      apply andb_true_iff in D as [D1 D2]. apply N.leb_le in D1, D2.
      apply orb_true_iff in L as [L|L]; apply andb_true_iff in L as [L1 L2];
        apply N.leb_le in L1, L2; lia. }
    rewrite N34, N56 in Hi. contradiction.
Qed.

Lemma compile_footnote : exists r, compile (u "^\d+\.") = Ok r.
Proof. eexists. vm_compute. reflexivity. Qed.

Lemma re_matched_total pat s r : compile (u pat) = Ok r -> exists b, re_matched pat s = Ok b.
Proof. intros C. unfold re_matched, rmatch. rewrite C. cbn [bind]. eexists. reflexivity. Qed.

Lemma in_rule_ids x l : In x (map rule_id l) <-> exists i, In i l /\ rule_id i = x.
Proof.
  rewrite in_map_iff. split; intros (i & A & B); exists i; split; assumption.
Qed.

Lemma nonempty_list_spec {A} (l : list A) : nonempty_list l = true <-> l <> [].
Proof. destruct l; cbn; split; congruence. Qed.

Lemma in_ids_mk x r d c l : In x (map rule_id (mk r d c :: l)) <-> x = r \/ In x (map rule_id l).
Proof. cbn. split; intros [A|A]; auto. Qed.

Ltac text_neq := let A := fresh in intros A; vm_compute in A; discriminate A.

(** X8: [_generate_recommendations] never raises; it recommends consulting the style
    guide exactly when some format or consistency issue was found, and adding a
    bibliography section exactly when there are in-text citations and no
    bibliography entries. *)
Theorem recommendations_triggers citations style issues :
  exists recs, generate_recommendations citations style issues = Ok recs /\
  (In (u "consult_style_guide") (map rule_id recs) <->
     formato_incorrecto issues <> [] \/ inconsistencias_estilo issues <> []) /\
  (In (u "missing_bibliography_section") (map rule_id recs) <->
     get_list citations (u "en_texto") <> [] /\ get_list citations (u "bibliograficas") = []).
Proof.
  unfold generate_recommendations.
  match goal with |- exists _, bind ?X _ = _ /\ _ =>
    assert (HX : exists r2, X = Ok r2 /\ forall i, In i r2 -> In (rule_id i)
      (map u (["apa_et_al"; "apa_doi"; "mla_et_al"; "mla_web"; "chicago_notes"; "chicago_author_date"])%string))
  end.
  { destruct (text_eqb style (u "APA")); [|destruct (text_eqb style (u "MLA")); [|destruct (text_eqb style (u "CHICAGO"))]].
    - eexists. split; [reflexivity|]. intros i Hi. apply in_app_or in Hi.
      destruct Hi as [Hi|Hi]; [destruct (existsb _ _)|destruct (negb _ && _)];
        cbn in Hi; try contradiction; destruct Hi as [<-|[]]; cbn; tauto.
    - eexists. split; [reflexivity|]. intros i Hi. apply in_app_or in Hi.
      destruct Hi as [Hi|Hi]; [destruct (existsb _ _)|destruct (existsb _ _)];
        cbn in Hi; try contradiction; destruct Hi as [<-|[]]; cbn; tauto.
    - destruct compile_footnote as [r C].
      destruct (anyM_total (re_matched "^\d+\.") (get_list citations (u "en_texto"))
                  (fun x _ => re_matched_total _ x _ C)) as [b B].
      rewrite B. cbn [bind]. eexists. split; [reflexivity|].
      intros i Hi. destruct b; cbn in Hi; destruct Hi as [<-|[]]; cbn; tauto.
    - exists []. split; [reflexivity|intros i []]. }
  destruct HX as (r2 & E2 & H2). rewrite E2. cbn [bind].
  eexists. split; [reflexivity|].
  assert (NC : ~ In (u "consult_style_guide") (map rule_id r2)).
  { intros Hc. apply in_rule_ids in Hc as (i & Hi & Ri). apply H2 in Hi. rewrite Ri in Hi.
    apply OrderFacts.existsb_text_eqb in Hi. vm_compute in Hi. discriminate Hi. }
  assert (NM : ~ In (u "missing_bibliography_section") (map rule_id r2)).
  { intros Hc. apply in_rule_ids in Hc as (i & Hi & Ri). apply H2 in Hi. rewrite Ri in Hi.
    apply OrderFacts.existsb_text_eqb in Hi. vm_compute in Hi. discriminate Hi. }
  clear E2 H2.
  rewrite !map_app, !in_app_iff.
  set (c1 := nonempty_list (formato_incorrecto issues) || nonempty_list (inconsistencias_estilo issues)).
  assert (C1 : c1 = true <-> formato_incorrecto issues <> [] \/ inconsistencias_estilo issues <> []).
  { unfold c1. rewrite orb_true_iff, !nonempty_list_spec. reflexivity. }
  set (c3 := Nat.ltb 0 (List.length (get_list citations (u "en_texto")))
             && Nat.eqb (List.length (get_list citations (u "bibliograficas"))) 0).
  assert (C3 : c3 = true <-> get_list citations (u "en_texto") <> [] /\ get_list citations (u "bibliograficas") = []).
  { unfold c3. destruct (get_list citations (u "en_texto")), (get_list citations (u "bibliograficas"));
      cbn; (split; [intros E; first [discriminate E | split; [discriminate|reflexivity]]
                   |intros [A B]; first [reflexivity | discriminate B | exfalso; apply A; reflexivity]]). }
  rewrite <- C1, <- C3. clearbody c1 c3. clear C1 C3.
  set (tool := existsb (text_eqb style) [u "APA"; u "MLA"; u "CHICAGO"; u "HARVARD"]). clearbody tool.
  assert (D1 : u "use_citation_tool" <> u "consult_style_guide") by text_neq.
  assert (D2 : u "missing_bibliography_section" <> u "consult_style_guide") by text_neq.
  assert (D3 : u "use_citation_tool" <> u "missing_bibliography_section") by text_neq.
  set (a := u "consult_style_guide") in *. set (b := u "missing_bibliography_section") in *.
  set (c := u "use_citation_tool") in *. clearbody a b c.
  destruct c1, c3, tool; cbn [map rule_id mk In]; intuition congruence.
Qed.
End ReportFacts.

Module GetterFacts.
Import Patterns Getter DictFacts Props PatternsFacts.

Lemma get_or_nil_appended (d d' : dict (list Re.regex)) style rx :
  appended d d' style rx ->
  get_or_nil d' style = (get_or_nil d style ++ [rx])%list /\
  forall st, st <> style -> get_or_nil d' st = get_or_nil d st.
Proof.
  intros [A O]. unfold get_or_nil. rewrite A. split; [reflexivity|].
  intros st N. rewrite (O st N). reflexivity.
Qed.

Lemma index_last (l : list Re.regex) rx :
  (if (0 <=? Z.of_nat (List.length l))%Z && (Z.of_nat (List.length l) <? Z.of_nat (List.length (l ++ [rx])))%Z then
     match nth_error (l ++ [rx]) (Z.to_nat (Z.of_nat (List.length l))) with Some p => One p | None => Many (l ++ [rx]) end
   else Many (l ++ [rx])) = One rx.
Proof.
  rewrite length_app. cbn [List.length].
  replace ((0 <=? Z.of_nat (List.length l))%Z && (Z.of_nat (List.length l) <? Z.of_nat (List.length l + 1))%Z)
    with true by (symmetry; apply andb_true_iff; split; [apply Z.leb_le|apply Z.ltb_lt]; lia).
  rewrite Nat2Z.id, nth_error_app2, Nat.sub_diag by lia. reflexivity.
Qed.

Ltac after_add E C A2 :=
  rewrite E; cbn [bind]; eexists; split; [reflexivity|];
  destruct (get_or_nil_appended _ _ _ _ A2) as [G Go];
  unfold get_pattern; cbn [compiled_in_text compiled_bibliography compiled_headers].


End GetterFacts.

Module MarkersFacts.
Import Markers XProps DictFacts.
Local Open Scope nat_scope.

Lemma dget_in_keys {V} (m : dict V) k v : dget m k = Some v -> In k (map fst m).
Proof.
  induction m as [|[k' v'] m IH]; cbn; [discriminate|].
  destruct (text_eqb k k') eqn:E; intros H.
  - left. symmetry. apply text_eqb_eq. exact E.
  - right. apply IH. exact H.
Qed.

Lemma in_keys_dget_some {V} (m : dict V) k : In k (map fst m) -> exists v, dget m k = Some v.
Proof.
  induction m as [|[k' v'] m IH]; cbn; [intros []|].
  intros H. destruct (text_eqb k k') eqn:E; [eauto|].
  destruct H as [<-|H]; [rewrite text_eqb_refl in E; discriminate|]. apply IH. exact H.
Qed.

Lemma map_fst_dset {V} (m : dict V) k v : In k (map fst m) -> map fst (dset m k v) = map fst m.
Proof.
  induction m as [|[k' v'] m IH]; cbn; [intros []|].
  intros H. destruct (text_eqb k k') eqn:E; cbn; [reflexivity|].
  destruct H as [<-|H]; [rewrite text_eqb_refl in E; discriminate|]. rewrite IH by exact H. reflexivity.
Qed.

Lemma shape_mono hb sb hb' sb' m :
  markers_shape hb sb m ->
  (forall x, In x marker_styles -> hb x <= hb' x) ->
  (forall x, In x marker_styles -> sb x <= sb' x) ->
  markers_shape hb' sb' m.
Proof.
  intros [K H] Hh Hs. split; [exact K|]. intros st d D.
  assert (I : In st marker_styles) by (rewrite <- K; exact (dget_in_keys _ _ _ D)).
  destruct (H st d D) as (F & A & B & h & s & Dh & Ds & Lh & Ls).
  repeat split; try assumption. exists h, s. repeat split; try assumption.
  - specialize (Hh st I). lia.
  - specialize (Hs st I). lia.
Qed.

Lemma field_neq : forall a b, In a marker_fields -> In b marker_fields -> a <> b -> text_eqb a b = false.
Proof.
  intros a b A B N. destruct (text_eqb a b) eqn:E; [|reflexivity].
  apply text_eqb_eq in E. contradiction.
Qed.

Ltac fields_neq := vm_compute; reflexivity.

Lemma bump_headers hb sb m st n :
  markers_shape hb sb m -> In st marker_styles ->
  exists m', bump m st (u "headers") n = Ok m' /\
    markers_shape (fun x => if text_eqb x st then hb x + n else hb x) sb m'.
Proof.
  intros [K H] I.
  assert (I' : In st (map fst m)) by (rewrite K; exact I).
  destruct (in_keys_dget_some _ _ I') as [d D].
  destruct (H st d D) as (F & A & B & h & s & Dh & Ds & Lh & Ls).
  unfold bump. rewrite D, Dh. eexists. split; [reflexivity|]. split.
  - rewrite map_fst_dset by exact I'. exact K.
  - intros st' d' D'. destruct (text_eqb st' st) eqn:E.
    + apply text_eqb_eq in E. subst st'. rewrite dget_dset_same in D'. injection D' as <-.
      assert (Ih : In (u "headers") (map fst d)) by (rewrite F; vm_compute; tauto).
      split; [rewrite map_fst_dset by exact Ih; exact F|].
      rewrite !dget_dset_other by (vm_compute; discriminate).
      split; [exact A|]. split; [exact B|]. exists (h + n), s.
      rewrite dget_dset_same, dget_dset_other by (vm_compute; discriminate).
      repeat split; [exact Ds|lia|exact Ls].
    + rewrite dget_dset_other in D'.
      * destruct (H st' d' D') as (F' & A' & B' & h' & s' & Dh' & Ds' & Lh' & Ls').
        repeat split; try assumption. exists h', s'. repeat split; assumption.
      * intros ->. rewrite text_eqb_refl in E. discriminate.
Qed.

Lemma bump_specific hb sb m st n :
  markers_shape hb sb m -> In st marker_styles ->
  exists m', bump m st (u "specific") n = Ok m' /\
    markers_shape hb (fun x => if text_eqb x st then sb x + n else sb x) m'.
Proof.
  intros [K H] I.
  assert (I' : In st (map fst m)) by (rewrite K; exact I).
  destruct (in_keys_dget_some _ _ I') as [d D].
  destruct (H st d D) as (F & A & B & h & s & Dh & Ds & Lh & Ls).
  unfold bump. rewrite D, Ds. eexists. split; [reflexivity|]. split.
  - rewrite map_fst_dset by exact I'. exact K.
  - intros st' d' D'. destruct (text_eqb st' st) eqn:E.
    + apply text_eqb_eq in E. subst st'. rewrite dget_dset_same in D'. injection D' as <-.
      assert (Is : In (u "specific") (map fst d)) by (rewrite F; vm_compute; tauto).
      split; [rewrite map_fst_dset by exact Is; exact F|].
      rewrite !dget_dset_other by (vm_compute; discriminate).
      split; [exact A|]. split; [exact B|]. exists h, (s + n).
      rewrite dget_dset_same.
      repeat split; [exact Dh|lia|lia].
    + rewrite dget_dset_other in D'.
      * destruct (H st' d' D') as (F' & A' & B' & h' & s' & Dh' & Ds' & Lh' & Ls').
        repeat split; try assumption. exists h', s'. repeat split; assumption.
      * intros ->. rewrite text_eqb_refl in E. discriminate.
Qed.

Lemma header_loop_shape st hs t : forall hb sb m,
  markers_shape hb sb m -> In st marker_styles ->
  (forall h, In h hs -> exists r, Re.compile h = Ok r) ->
  exists m', header_loop st hs t m = Ok m' /\
    markers_shape (fun x => if text_eqb x st then hb x + List.length hs else hb x) sb m'.
Proof.
  induction hs as [|h hs IH]; intros hb sb m S I C; cbn [header_loop].
  - exists m. split; [reflexivity|]. eapply shape_mono; [exact S| |]; intros x _; [|lia]; cbv beta.
    destruct (text_eqb x st); lia.
  - destruct (C h (or_introl eq_refl)) as [r Cr].
    unfold Re.search. rewrite Cr. cbn [bind].
    destruct (is_some _).
    + destruct (bump_headers _ _ _ _ 1 S I) as (m1 & E1 & S1). rewrite E1. cbn [bind].
      destruct (IH _ _ _ S1 I (fun h' H' => C h' (or_intror H'))) as (m2 & E2 & S2).
      exists m2. split; [exact E2|]. eapply shape_mono; [exact S2| |]; intros x _; [|lia]; cbv beta.
      cbn [List.length]. destruct (text_eqb x st); lia.
    + cbn [bind].
      destruct (IH _ _ _ S I (fun h' H' => C h' (or_intror H'))) as (m2 & E2 & S2).
      exists m2. split; [exact E2|]. eapply shape_mono; [exact S2| |]; intros x _; [|lia]; cbv beta.
      cbn [List.length]. destruct (text_eqb x st); lia.
Qed.

Lemma header_markers_shape tbl t : forall hb sb m,
  markers_shape hb sb m ->
  (forall st hs, In (st, hs) tbl -> In st marker_styles /\ forall h, In h hs -> exists r, Re.compile h = Ok r) ->
  exists m', header_markers tbl t m = Ok m' /\
    markers_shape (fun x => hb x + list_sum (map (fun e => if text_eqb x (fst e) then List.length (snd e) else 0) tbl)) sb m'.
Proof.
  induction tbl as [|[st hs] tbl IH]; intros hb sb m S T; cbn [header_markers].
  - exists m. split; [reflexivity|]. eapply shape_mono; [exact S| |]; intros x _; cbn; lia.
  - destruct (T st hs (or_introl eq_refl)) as [I C].
    destruct (header_loop_shape st hs t _ _ _ S I C) as (m1 & E1 & S1). rewrite E1. cbn [bind].
    destruct (IH _ _ _ S1 (fun st' hs' H => T st' hs' (or_intror H))) as (m2 & E2 & S2).
    exists m2. split; [exact E2|]. eapply shape_mono; [exact S2| |]; intros x _; [|lia]; cbv beta.
    cbn [map fst snd]. change (list_sum (?a :: ?l)) with (a + list_sum l).
    destruct (text_eqb x st); lia.
Qed.

Lemma if_found_shape hb sb m p st t :
  markers_shape hb sb m -> In st marker_styles ->
  match Re.compile (u p) with Ok _ => True | Err _ => False end ->
  exists m', if_found p st t m = Ok m' /\
    markers_shape hb (fun x => if text_eqb x st then sb x + 1 else sb x) m'.
Proof.
  intros S I C. unfold if_found, Re.search.
  destruct (Re.compile (u p)) as [r|e]; [|contradiction]. cbn [bind].
  destruct (is_some _).
  - exact (bump_specific _ _ _ _ 1 S I).
  - exists m. split; [reflexivity|]. eapply shape_mono; [exact S| |]; intros x _; [lia|]; cbv beta.
    destruct (text_eqb x st); lia.
Qed.

Lemma capped_shape hb sb m p fl cap st t :
  markers_shape hb sb m -> In st marker_styles ->
  match Re.compile (u p) with Ok _ => True | Err _ => False end ->
  exists m', capped p fl cap st t m = Ok m' /\
    markers_shape hb (fun x => if text_eqb x st then sb x + cap else sb x) m'.
Proof.
  intros S I C. unfold capped, Re.findall, Re.finditer.
  destruct (Re.compile (u p)) as [r|e]; [|contradiction]. cbn [bind].
  destruct (Nat.ltb 0 _).
  - destruct (bump_specific _ _ _ _ (Nat.min (List.length (Re.scan fl r t)) cap) S I) as (m' & E & S').
    exists m'. split; [exact E|]. eapply shape_mono; [exact S'| |]; intros x _; [lia|]; cbv beta.
    pose proof (Nat.le_min_r (List.length (Re.scan fl r t)) cap).
    cbv beta. destruct (text_eqb x st); lia.
  - exists m. split; [reflexivity|]. eapply shape_mono; [exact S| |]; intros x _; [lia|]; cbv beta.
    destruct (text_eqb x st); lia.
Qed.

Lemma init_shape : markers_shape (fun _ => 0) (fun _ => 0) init_markers.
Proof.
  split; [reflexivity|]. intros st d D.
  assert (Z : d = zero_counts).
  { revert D. unfold init_markers. generalize marker_styles as l.
    induction l as [|a l IH]; cbn; [discriminate|]. destruct (text_eqb st a); [congruence|exact IH]. }
  subst d. split; [reflexivity|]. split; [vm_compute; reflexivity|]. split; [vm_compute; reflexivity|].
  exists 0, 0. split; [vm_compute; reflexivity|]. split; [vm_compute; reflexivity|]. lia.
Qed.

Ltac step :=
  match goal with
  | S : markers_shape _ _ ?m |- exists m', bind (if_found ?p ?st ?t ?m) _ = Ok m' /\ _ =>
      let m1 := fresh "m" in let E := fresh "E" in let S1 := fresh "S" in
      destruct (if_found_shape _ _ m p st t S ltac:(vm_compute; tauto) ltac:(vm_compute; exact I))
        as (m1 & E & S1);
      rewrite E; cbn [bind]; clear S E
  | S : markers_shape _ _ ?m |- exists m', bind (capped ?p ?fl ?cap ?st ?t ?m) _ = Ok m' /\ _ =>
      let m1 := fresh "m" in let E := fresh "E" in let S1 := fresh "S" in
      destruct (capped_shape _ _ m p fl cap st t S ltac:(vm_compute; tauto) ltac:(vm_compute; exact I))
        as (m1 & E & S1);
      rewrite E; cbn [bind]; clear S E
  end.

(** X9: [identify_style_markers] never raises; it returns the seven styles,
    each with its four counters; the in-text and bibliography counters stay
    at zero, the header counter is at most the number of header patterns of
    the style, and the specific counter at most the sum of what its markers
    can add (APA 2, MLA 2, CHICAGO 5 + 3, HARVARD 1, IEEE 5, VANCOUVER 1,
    CSE 1). *)
Theorem style_markers_bounds t :
  exists m, identify_style_markers t = Ok m /\
  map fst m = marker_styles /\
  forall st d, dget m st = Some d ->
    map fst d = marker_fields /\ dget d (u "in_text") = Some 0 /\
    dget d (u "bibliography") = Some 0 /\
    exists h s, dget d (u "headers") = Some h /\ dget d (u "specific") = Some s /\
      h <= header_count st /\ s <= specific_cap st.
Proof.
  unfold identify_style_markers.
  destruct (header_markers_shape Extractor.bibliography_headers t _ _ _ init_shape) as (m0 & E0 & S0).
  { intros st hs H. cbn in H.
    repeat (destruct H as [H|H]; [injection H as <- <-; split; [vm_compute; tauto|];
      intros h Hh; cbn in Hh; repeat (destruct Hh as [<-|Hh]; [eexists; vm_compute; reflexivity|]);
      destruct Hh|]).
    destruct H. }
  rewrite E0. cbn [bind].
  do 10 step.
  match goal with S : markers_shape _ _ ?m |- _ =>
    exists m; split; [reflexivity|];
    destruct (shape_mono _ _ header_count specific_cap _ S) as [K H]
  end.
  - intros x I. cbn in I.
    repeat (destruct I as [<-|I]; [apply Nat.leb_le; vm_compute; reflexivity|]). destruct I.
  - intros x I. cbn in I.
    repeat (destruct I as [<-|I]; [apply Nat.leb_le; vm_compute; reflexivity|]). destruct I.
  - split; [exact K|exact H].
Qed.

End MarkersFacts.
